(** * Invoice generator: the domain model, its money arithmetic and its
      JSON form, embedded from [models.py], [utils.py] and [storage.py],
      with the item dialog and the main window of [gui.py] as far as they
      compute.

    Conventions of the embedding.
    - Python exceptions are the [Raise] outcomes of an error monad; the
      order of the binds is Python's evaluation order, so the exception a
      function reports is the first one Python would raise.
    - [decimal.Decimal] is a sign, a coefficient and an exponent, plus the
      special values; arithmetic is the arithmetic of the module's context
      as [models.py] sets it up ([prec = 28], every other setting left at
      its default: ROUND_HALF_EVEN, Emax = 999999, Emin = -999999, traps on
      InvalidOperation, DivisionByZero and Overflow, clamp = 0). Exponents
      and coefficients are unbounded integers, as in the reference
      implementation of the module.
    - Text is a [string] of ASCII characters; text with other characters is
      outside the model.
    - A JSON document is a [value]; numbers with a fraction or an exponent
      (Python floats) are outside the model. *)

From Stdlib Require Import ZArith NArith List String Ascii Bool Lia.
From Stdlib Require Import Permutation.
Import ListNotations.

Local Open Scope Z_scope.

(** ** Exceptions and the error monad *)

Inductive exn : Type :=
| TypeError
| AttributeError
| ValueError
| KeyError
| InvalidOperation
| DivisionByZero
| Overflow.

Inductive result (A : Type) : Type :=
| Ok (a : A)
| Raise (e : exn).

Arguments Ok {A} a.
Arguments Raise {A} e.

Definition bind {A B : Type} (m : result A) (k : A -> result B) : result B :=
  match m with
  | Ok a => k a
  | Raise e => Raise e
  end.

Notation "x <- m ;; k" := (bind m (fun x => k))
  (at level 61, m at next level, right associativity).

Fixpoint mapM {A B : Type} (f : A -> result B) (l : list A) : result (list B) :=
  match l with
  | [] => Ok []
  | a :: l' => b <- f a ;; bs <- mapM f l' ;; Ok (b :: bs)
  end.

Fixpoint foldM {A B : Type} (f : A -> B -> result A) (l : list B) (a : A)
  : result A :=
  match l with
  | [] => Ok a
  | b :: l' => a' <- f a b ;; foldM f l' a'
  end.

Definition succeeds {A : Type} (m : result A) : bool :=
  match m with Ok _ => true | Raise _ => false end.

(** ** Decimal digits *)

Definition is_digit (a : ascii) : bool :=
  ((48 <=? N_of_ascii a) && (N_of_ascii a <=? 57))%N.

Definition digit_val (a : ascii) : N := (N_of_ascii a - 48)%N.

Definition digit_char (d : N) : ascii := ascii_of_N (48 + d).

(** [N_of_digits acc l] is Python's [int] on a run of digits, the digits
    read so far being [acc]. *)
Fixpoint N_of_digits (acc : N) (l : list ascii) : N :=
  match l with
  | [] => acc
  | a :: l' => N_of_digits (acc * 10 + digit_val a) l'
  end.

Fixpoint digits_aux (fuel : nat) (n : N) (acc : list ascii) : list ascii :=
  match fuel with
  | O => acc
  | S fuel' =>
      let acc' := digit_char (n mod 10) :: acc in
      if (n / 10 =? 0)%N then acc' else digits_aux fuel' (n / 10) acc'
  end.

(** [str(n)] for a natural number: no leading zero, ["0"] for zero. *)
Definition digits_of_N (n : N) : list ascii :=
  digits_aux (S (N.to_nat (N.log2 n))) n [].

(** [len(self._int)], the number of digits of a coefficient. *)
Definition ndigits (n : N) : Z := Z.of_nat (List.length (digits_of_N n)).

Definition pow10 (k : Z) : N := (10 ^ Z.to_N k)%N.

(** ** [decimal.Decimal] *)

Inductive Decimal : Type :=
| Finite (sign : bool) (coeff : N) (exp : Z)
| Infinity (sign : bool)
| NaN (sign : bool) (payload : N)
| sNaN (sign : bool) (payload : N).

Inductive rounding : Type :=
| ROUND_HALF_UP
| ROUND_HALF_EVEN.

(** The context of [models.py]: [getcontext().prec = 28]. *)
Definition prec : Z := 28.
Definition Emax : Z := 999999.
Definition Emin : Z := -999999.
Definition Etiny : Z := Emin - prec + 1.
Definition Etop : Z := Emax - prec + 1.
Definition context_rounding : rounding := ROUND_HALF_EVEN.

(** The coefficient [c] with its last [k] digits rounded away ([0 < k]):
    [_round_half_up] and [_round_half_even] look at the discarded digits
    and say whether the kept ones are incremented. *)
Definition round_digits (r : rounding) (c : N) (k : Z) : N :=
  let p := pow10 k in
  let q := (c / p)%N in
  let rem := (c mod p)%N in
  let up :=
    match r with
    | ROUND_HALF_UP => (p <=? 2 * rem)%N
    | ROUND_HALF_EVEN =>
        (p <? 2 * rem)%N || ((p =? 2 * rem)%N && N.odd q)
    end in
  if up then (q + 1)%N else q.

(** [Decimal._rescale]: the same value at exponent [e], rounded when [e] is
    above the exponent of the value. *)
Definition rescale (r : rounding) (s : bool) (c : N) (e e' : Z) : Decimal :=
  if (c =? 0)%N then Finite s 0 e'
  else if e' <=? e then Finite s (c * pow10 (e - e')) e'
  else Finite s (round_digits r c (e' - e)) e'.

(** [Decimal._fix_nan]: the payload keeps its last [prec] digits. *)
Definition fix_nan (s : bool) (payload : N) : Decimal :=
  NaN s (payload mod pow10 prec).

(** [Decimal._fix]: round a finite value to the context. *)
Definition fix_finite (s : bool) (c : N) (e : Z) : result Decimal :=
  if (c =? 0)%N then Ok (Finite s 0 (Z.min (Z.max e Etiny) Emax))
  else
    let exp_min := ndigits c + e - prec in
    if Etop <? exp_min then Raise Overflow
    else
      let exp_min := if exp_min <? Etiny then Etiny else exp_min in
      if e <? exp_min then
        let coeff := round_digits context_rounding c (exp_min - e) in
        let '(coeff, exp_min) :=
          if prec <? ndigits coeff then ((coeff / 10)%N, exp_min + 1)
          else (coeff, exp_min) in
        if Etop <? exp_min then Raise Overflow
        else Ok (Finite s coeff exp_min)
      else Ok (Finite s c e).

Definition dec_fix (d : Decimal) : result Decimal :=
  match d with
  | Finite s c e => fix_finite s c e
  | Infinity s => Ok (Infinity s)
  | NaN s p => Ok (fix_nan s p)
  | sNaN s p => Ok (fix_nan s p)
  end.

(** [Decimal._check_nans]: [Some] outcome when an operand is a NaN. A
    signalling NaN raises (InvalidOperation is trapped), a quiet one is the
    result. *)
Definition check_nans (a b : Decimal) : option (result Decimal) :=
  match a, b with
  | sNaN _ _, _ => Some (Raise InvalidOperation)
  | _, sNaN _ _ => Some (Raise InvalidOperation)
  | NaN s p, _ => Some (Ok (fix_nan s p))
  | _, NaN s p => Some (Ok (fix_nan s p))
  | _, _ => None
  end.

Definition is_zero (d : Decimal) : bool :=
  match d with
  | Finite _ c _ => (c =? 0)%N
  | _ => false
  end.

(** [Decimal.is_finite] *)
Definition is_finite (d : Decimal) : bool :=
  match d with
  | Finite _ _ _ => true
  | _ => false
  end.

(** [Decimal.is_nan]: quiet or signalling. *)
Definition is_nan (d : Decimal) : bool :=
  match d with
  | NaN _ _ | sNaN _ _ => true
  | _ => false
  end.

(** [Decimal.__mul__] *)
Definition dec_mul (a b : Decimal) : result Decimal :=
  match check_nans a b with
  | Some r => r
  | None =>
      match a, b with
      | Finite sa ca ea, Finite sb cb eb =>
          fix_finite (xorb sa sb) (ca * cb) (ea + eb)
      | Infinity sa, Finite sb cb _ =>
          if (cb =? 0)%N then Raise InvalidOperation
          else Ok (Infinity (xorb sa sb))
      | Finite sa ca _, Infinity sb =>
          if (ca =? 0)%N then Raise InvalidOperation
          else Ok (Infinity (xorb sa sb))
      | Infinity sa, Infinity sb => Ok (Infinity (xorb sa sb))
      | _, _ => Raise InvalidOperation
      end
  end.

Definition signed (s : bool) (c exp_shift : N) : Z :=
  let m := Z.of_N (c * exp_shift) in if s then - m else m.

(** [Decimal.__add__]: the exact sum at the smaller exponent, then [_fix].
    (The implementation first replaces an operand too small to matter by a
    sticky digit so that the integers it adds stay short; the rounded result
    is the one of the exact sum.) *)
Definition dec_add (a b : Decimal) : result Decimal :=
  match check_nans a b with
  | Some r => r
  | None =>
      match a, b with
      | Finite sa ca ea, Finite sb cb eb =>
          let e := Z.min ea eb in
          if (ca =? 0)%N && (cb =? 0)%N then fix_finite (sa && sb) 0 e
          else if (ca =? 0)%N then
            dec_fix (rescale context_rounding sb cb eb (Z.max e (eb - prec - 1)))
          else if (cb =? 0)%N then
            dec_fix (rescale context_rounding sa ca ea (Z.max e (ea - prec - 1)))
          else
            let z := signed sa ca (pow10 (ea - e))
                     + signed sb cb (pow10 (eb - e)) in
            fix_finite (z <? 0) (Z.abs_N z) e
      | Infinity sa, Infinity sb =>
          if eqb sa sb then Ok (Infinity sa) else Raise InvalidOperation
      | Infinity sa, _ => Ok (Infinity sa)
      | _, Infinity sb => Ok (Infinity sb)
      | _, _ => Raise InvalidOperation
      end
  end.

(** The loop of [__truediv__] that brings an exact quotient as close to the
    ideal exponent as its trailing zeros allow; [n] bounds the steps. *)
Fixpoint strip_zeros (n : nat) (coeff : N) (e ideal : Z) : N * Z :=
  match n with
  | O => (coeff, e)
  | S n' =>
      if (e <? ideal) && (coeff mod 10 =? 0)%N
      then strip_zeros n' (coeff / 10) (e + 1) ideal
      else (coeff, e)
  end.

(** [Decimal.__truediv__] *)
Definition dec_div (a b : Decimal) : result Decimal :=
  match check_nans a b with
  | Some r => r
  | None =>
      match a, b with
      | Finite sa ca ea, Finite sb cb eb =>
          let s := xorb sa sb in
          if (cb =? 0)%N then
            if (ca =? 0)%N then Raise InvalidOperation
            else Raise DivisionByZero
          else if (ca =? 0)%N then fix_finite s 0 (ea - eb)
          else
            let shift := ndigits cb - ndigits ca + prec + 1 in
            let e := ea - eb - shift in
            let '(coeff, remainder) :=
              if 0 <=? shift
              then N.div_eucl (ca * pow10 shift) cb
              else N.div_eucl ca (cb * pow10 (- shift)) in
            if (remainder =? 0)%N then
              let '(coeff, e) :=
                strip_zeros (Z.to_nat (ea - eb - e)) coeff e (ea - eb) in
              fix_finite s coeff e
            else
              fix_finite s
                (if (coeff mod 5 =? 0)%N then coeff + 1 else coeff)%N e
      | Infinity _, Infinity _ => Raise InvalidOperation
      | Infinity sa, Finite sb _ _ => Ok (Infinity (xorb sa sb))
      | Finite sa _ _, Infinity sb => Ok (Finite (xorb sa sb) 0 Etiny)
      | _, _ => Raise InvalidOperation
      end
  end.

(** [Decimal.quantize(exp, rounding)] where [exp] is a finite decimal of
    exponent [e']. *)
Definition quantize (r : rounding) (a : Decimal) (e' : Z) : result Decimal :=
  match a with
  | sNaN _ _ => Raise InvalidOperation
  | NaN s p => Ok (fix_nan s p)
  | Infinity _ => Raise InvalidOperation
  | Finite s c e =>
      if (e' <? Etiny) || (Emax <? e') then Raise InvalidOperation
      else if (c =? 0)%N then fix_finite s 0 e'
      else
        let adjusted := ndigits c + e - 1 in
        if Emax <? adjusted then Raise InvalidOperation
        else if prec <? adjusted - e' + 1 then Raise InvalidOperation
        else
          match rescale r s c e e' with
          | Finite s1 c1 e1 =>
              if Emax <? ndigits c1 + e1 - 1 then Raise InvalidOperation
              else if prec <? ndigits c1 then Raise InvalidOperation
              else fix_finite s1 c1 e1
          | d => Ok d
          end
  end.

(** The order of two finite values, as [Decimal._cmp] settles it. *)
Definition dec_value_eqb (sa : bool) (ca : N) (ea : Z)
                         (sb : bool) (cb : N) (eb : Z) : bool :=
  if (ca =? 0)%N then (cb =? 0)%N
  else if (cb =? 0)%N then false
  else
    eqb sa sb &&
    (let e := Z.min ea eb in
     (ca * pow10 (ea - e) =? cb * pow10 (eb - e))%N).

(** [Decimal.__eq__]: False on a quiet NaN, InvalidOperation on a
    signalling one, the numeric comparison otherwise. *)
Definition dec_equal (a b : Decimal) : result bool :=
  match a, b with
  | sNaN _ _, _ | _, sNaN _ _ => Raise InvalidOperation
  | NaN _ _, _ | _, NaN _ _ => Ok false
  | Infinity sa, Infinity sb => Ok (eqb sa sb)
  | Infinity _, Finite _ _ _ | Finite _ _ _, Infinity _ => Ok false
  | Finite sa ca ea, Finite sb cb eb => Ok (dec_value_eqb sa ca ea sb cb eb)
  end.

(** ** Text: [str] methods, [str(Decimal)] and [Decimal(str)] *)

Local Open Scope char_scope.
Local Open Scope Z_scope.

Definition chars (s : string) : list ascii := list_ascii_of_string s.
Definition text (l : list ascii) : string := string_of_list_ascii l.

(** [str.isspace] on ASCII: tab to carriage return, the four separators
    28 to 31, and the space. *)
Definition is_space (a : ascii) : bool :=
  let n := N_of_ascii a in
  ((9 <=? n) && (n <=? 13) || (28 <=? n) && (n <=? 32))%N.

Fixpoint lstrip (l : list ascii) : list ascii :=
  match l with
  | a :: l' => if is_space a then lstrip l' else l
  | [] => []
  end.

Definition strip (l : list ascii) : list ascii :=
  rev (lstrip (rev (lstrip l))).

(** [s.replace(old, new)] for one-character [old] and [new]. *)
Definition replace_char (old new : ascii) (l : list ascii) : list ascii :=
  map (fun a => if Ascii.eqb a old then new else a) l.

(** [s.replace(old, "")] for a one-character [old]. *)
Definition remove_char (old : ascii) (l : list ascii) : list ascii :=
  filter (fun a => negb (Ascii.eqb a old)) l.

Definition lower (a : ascii) : ascii :=
  let n := N_of_ascii a in
  if ((65 <=? n) && (n <=? 90))%N then ascii_of_N (n + 32) else a.

Fixpoint chars_eqb (l1 l2 : list ascii) : bool :=
  match l1, l2 with
  | [], [] => true
  | a :: l1', b :: l2' => Ascii.eqb a b && chars_eqb l1' l2'
  | _, _ => false
  end.

Fixpoint span_digits (l : list ascii) : list ascii * list ascii :=
  match l with
  | a :: l' =>
      if is_digit a
      then let '(ds, rest) := span_digits l' in (a :: ds, rest)
      else ([], l)
  | [] => ([], [])
  end.

Definition sign_chars (s : bool) : list ascii := if s then ["-"] else [].

(** ["%+d" % z] *)
Definition signed_digits (z : Z) : list ascii :=
  (if z <? 0 then "-" else "+") :: digits_of_N (Z.abs_N z).

(** The diagnostic digits of a NaN: none for payload zero. *)
Definition payload_digits (p : N) : list ascii :=
  if (p =? 0)%N then [] else digits_of_N p.

(** [Decimal.__str__]: scientific notation as the module prints it. *)
Definition Decimal_chars (d : Decimal) : list ascii :=
  match d with
  | Infinity s => sign_chars s ++ chars "Infinity"
  | NaN s p => sign_chars s ++ chars "NaN" ++ payload_digits p
  | sNaN s p => sign_chars s ++ chars "sNaN" ++ payload_digits p
  | Finite s c e =>
      let int := digits_of_N c in
      let len := Z.of_nat (List.length int) in
      let leftdigits := e + len in
      let dotplace :=
        if (e <=? 0) && (-6 <? leftdigits) then leftdigits else 1 in
      let '(intpart, fracpart) :=
        if dotplace <=? 0 then
          (["0"], "." :: repeat "0" (Z.to_nat (- dotplace)) ++ int)
        else if len <=? dotplace then
          (int ++ repeat "0" (Z.to_nat (dotplace - len)), [])
        else
          (firstn (Z.to_nat dotplace) int,
           "." :: skipn (Z.to_nat dotplace) int) in
      let exp :=
        if leftdigits =? dotplace then []
        else "E" :: signed_digits (leftdigits - dotplace) in
      sign_chars s ++ intpart ++ fracpart ++ exp
  end.

Definition Decimal_str (d : Decimal) : string := text (Decimal_chars d).

Definition parse_sign (l : list ascii) : bool * list ascii :=
  match l with
  | "-" :: r => (true, r)
  | "+" :: r => (false, r)
  | _ => (false, l)
  end.

(** The exponent after the letter E: an optional sign and at least one
    digit, up to the end of the text. *)
Definition parse_exponent (l : list ascii) : option Z :=
  let '(s, r) := parse_sign l in
  let '(ds, rest) := span_digits r in
  match ds, rest with
  | _ :: _, [] =>
      let n := Z.of_N (N_of_digits 0 ds) in Some (if s then - n else n)
  | _, _ => None
  end.

(** The numeric branch of the module's grammar: digits, an optional
    fraction, an optional exponent; at least one digit before the
    exponent. *)
Definition parse_number (s : bool) (l : list ascii) : option Decimal :=
  let '(ip, r1) := span_digits l in
  let '(fp, r2) :=
    match r1 with
    | "." :: r => span_digits r
    | _ => ([], r1)
    end in
  match ip ++ fp with
  | [] => None
  | ds =>
      let c := N_of_digits 0 ds in
      let e := - Z.of_nat (List.length fp) in
      match r2 with
      | [] => Some (Finite s c e)
      | a :: r3 =>
          if Ascii.eqb (lower a) "e" then
            match parse_exponent r3 with
            | Some x => Some (Finite s c (x + e))
            | None => None
            end
          else None
      end
  end.

(** The other branches: an infinity, or a NaN with its diagnostic digits;
    letters in either case. *)
Definition parse_special (s : bool) (l : list ascii) : option Decimal :=
  let low := map lower l in
  if chars_eqb low (chars "inf") || chars_eqb low (chars "infinity")
  then Some (Infinity s)
  else
    match low with
    | "n" :: "a" :: "n" :: diag =>
        if forallb is_digit diag then Some (NaN s (N_of_digits 0 diag))
        else None
    | "s" :: "n" :: "a" :: "n" :: diag =>
        if forallb is_digit diag then Some (sNaN s (N_of_digits 0 diag))
        else None
    | _ => None
    end.

Definition Decimal_of_chars (l : list ascii) : result Decimal :=
  let '(s, r) := parse_sign (remove_char "_" (strip l)) in
  match parse_number s r with
  | Some d => Ok d
  | None =>
      match parse_special s r with
      | Some d => Ok d
      | None => Raise InvalidOperation
      end
  end.

(** [Decimal(text)]: exact, not rounded to the context. *)
Definition Decimal_of_str (s : string) : result Decimal :=
  Decimal_of_chars (chars s).

(** ** Python values: what [json.loads] returns *)

Local Open Scope string_scope.
Local Open Scope Z_scope.

(** A dict is the list of its items in insertion order; its keys are
    distinct, and [dict_get] reads the first item of a key. *)
#[local] Unset Elimination Schemes.
Inductive value : Type :=
| VNone
| VBool (b : bool)
| VInt (z : Z)
| VStr (s : string)
| VList (l : list value)
| VDict (d : list (string * value)).
#[local] Set Elimination Schemes.

Fixpoint dict_get (k : string) (d : list (string * value)) : option value :=
  match d with
  | [] => None
  | (k', v) :: d' => if String.eqb k k' then Some v else dict_get k d'
  end.

(** [d.get(k, default)] *)
Definition get_default (k : string) (default : value)
                       (d : list (string * value)) : value :=
  match dict_get k d with
  | Some v => v
  | None => default
  end.

(** [bool(v)] *)
Definition truthy (v : value) : bool :=
  match v with
  | VNone => false
  | VBool b => b
  | VInt z => negb (z =? 0)
  | VStr s => negb (String.eqb s "")
  | VList l => match l with [] => false | _ => true end
  | VDict d => match d with [] => false | _ => true end
  end.

(** [v1 == v2]. A bool compares as the integer it is. *)
Fixpoint py_eq (v1 v2 : value) {struct v1} : bool :=
  match v1, v2 with
  | VNone, VNone => true
  | VBool b1, VBool b2 => Bool.eqb b1 b2
  | VBool b, VInt z | VInt z, VBool b => Z.b2z b =? z
  | VInt z1, VInt z2 => z1 =? z2
  | VStr s1, VStr s2 => String.eqb s1 s2
  | VList l1, VList l2 =>
      (fix list_eq (l1 l2 : list value) {struct l1} : bool :=
         match l1, l2 with
         | [], [] => true
         | a :: l1', b :: l2' => py_eq a b && list_eq l1' l2'
         | _, _ => false
         end) l1 l2
  | VDict d1, VDict d2 =>
      (List.length d1 =? List.length d2)%nat &&
      (fix items_in (d : list (string * value)) {struct d} : bool :=
         match d with
         | [] => true
         | (k, a) :: d' =>
             match dict_get k d2 with
             | Some b => py_eq a b && items_in d'
             | None => false
             end
         end) d1
  | _, _ => false
  end.

(** [str(v)] for the scalars; the text of a list or a dict is not
    modelled. *)
Definition py_str (v : value) : option string :=
  match v with
  | VNone => Some "None"
  | VBool true => Some "True"
  | VBool false => Some "False"
  | VInt z => Some (text (sign_chars (z <? 0) ++ digits_of_N (Z.abs_N z)))
  | VStr s => Some s
  | VList _ | VDict _ => None
  end.

(** [Decimal(str(v))]. The text of a list or a dict opens with a bracket,
    which no numeral does: the conversion fails on it. *)
Definition Decimal_of_value (v : value) : result Decimal :=
  match py_str v with
  | Some s => Decimal_of_str s
  | None => Raise InvalidOperation
  end.

(** What [for i in v] runs through: the elements of a list, the keys of a
    dict, the characters of a text; anything else is not iterable. *)
Definition iterate (v : value) : result (list value) :=
  match v with
  | VList l => Ok l
  | VDict d => Ok (map (fun kv => VStr (fst kv)) d)
  | VStr s => Ok (map (fun a => VStr (String a EmptyString)) (chars s))
  | _ => Raise TypeError
  end.

(** ** [datetime.date] *)

Record date : Type := Date { year : N; month : N; day : N }.

Definition is_leap (y : N) : bool :=
  ((y mod 4 =? 0) && (negb (y mod 100 =? 0) || (y mod 400 =? 0)))%N.

Definition days_in_month (y m : N) : N :=
  if (m =? 2)%N then (if is_leap y then 29 else 28)%N
  else if ((m =? 4) || (m =? 6) || (m =? 9) || (m =? 11))%N then 30%N
  else 31%N.

(** The dates the [date] constructor accepts. *)
Definition date_valid (d : date) : bool :=
  ((1 <=? year d) && (year d <=? 9999) &&
   (1 <=? month d) && (month d <=? 12) &&
   (1 <=? day d) && (day d <=? days_in_month (year d) (month d)))%N.

(** ["%0wd" % n] *)
Definition zero_pad (w : nat) (n : N) : list ascii :=
  let ds := digits_of_N n in
  repeat "0"%char (w - List.length ds) ++ ds.

(** [date.isoformat]: YYYY-MM-DD. *)
Definition isoformat (d : date) : string :=
  text (zero_pad 4 (year d) ++ "-"%char :: zero_pad 2 (month d)
        ++ "-"%char :: zero_pad 2 (day d)).

(** [date.fromisoformat] on the format [isoformat] writes, YYYY-MM-DD,
    which is the whole of its contract up to Python 3.10; the compact and
    week forms that later versions also read are not modelled. *)
Definition fromisoformat (s : string) : result date :=
  match chars s with
  | [y1; y2; y3; y4; s1; m1; m2; s2; d1; d2] =>
      if forallb is_digit [y1; y2; y3; y4; m1; m2; d1; d2]
         && Ascii.eqb s1 "-" && Ascii.eqb s2 "-"
      then
        let d := Date (N_of_digits 0 [y1; y2; y3; y4])
                      (N_of_digits 0 [m1; m2]) (N_of_digits 0 [d1; d2]) in
        if date_valid d then Ok d else Raise ValueError
      else Raise ValueError
  | _ => Raise ValueError
  end.

(** [date.fromisoformat(v)]: the argument must be a [str]. *)
Definition fromisoformat_value (v : value) : result date :=
  match v with
  | VStr s => fromisoformat s
  | _ => Raise TypeError
  end.

Definition date_eqb (d1 d2 : date) : bool :=
  ((year d1 =? year d2) && (month d1 =? month d2) && (day d1 =? day d2))%N.

(** ** [models.py] *)

(** [as_money(value, ndigits)]: [quant] is [Decimal("1." + "0" * ndigits)],
    a finite decimal of exponent [- ndigits]; [quantize] reads nothing else
    of it. *)
Definition as_money_n (ndigits : nat) (v : Decimal) : result Decimal :=
  quantize ROUND_HALF_UP v (- Z.of_nat ndigits).

(** [as_money(value)], as every caller writes it ([ndigits = 2]). *)
Definition as_money (v : Decimal) : result Decimal := as_money_n 2 v.

(** The dataclasses check no field type: a field holds whatever the caller
    or the document put there. Fields the code computes with or writes out
    ([Decimal], [date]) have their type; the others are plain values. *)
(** [isinstance(v, str)] *)
Definition is_text (v : value) : bool :=
  match v with
  | VStr _ => true
  | _ => false
  end.

Module Company.
Record t : Type := Make {
  name : value;
  address : value;
  gst_number : value;
  email : value;
  phone : value
}.

Definition fields : list string :=
  ["name"; "address"; "gst_number"; "email"; "phone"].

(** The constructor called on an unpacked dict: TypeError on a keyword
    that is no field or when [name] or [address] is missing. *)
Definition of_kwargs (kw : list (string * value)) : result t :=
  if forallb (fun kv => existsb (String.eqb (fst kv)) fields) kw then
    match dict_get "name" kw, dict_get "address" kw with
    | Some n, Some a =>
        Ok (Make n a (get_default "gst_number" (VStr "") kw)
              (get_default "email" (VStr "") kw)
              (get_default "phone" (VStr "") kw))
    | _, _ => Raise TypeError
    end
  else Raise TypeError.

(** [asdict] on a company. *)
Definition asdict (c : t) : value :=
  VDict [("name", name c); ("address", address c);
         ("gst_number", gst_number c); ("email", email c);
         ("phone", phone c)].

(** The generated [__eq__]: the tuples of fields, compared in order. *)
Definition eq (a b : t) : bool :=
  py_eq (name a) (name b) && py_eq (address a) (address b)
  && py_eq (gst_number a) (gst_number b) && py_eq (email a) (email b)
  && py_eq (phone a) (phone b).

(** Every field has its declared type, [str]. *)
Definition typed (c : t) : bool :=
  is_text (name c) && is_text (address c) && is_text (gst_number c)
  && is_text (email c) && is_text (phone c).
End Company.

Module Customer.
Record t : Type := Make {
  name : value;
  address : value;
  email : value;
  phone : value
}.

Definition fields : list string := ["name"; "address"; "email"; "phone"].

Definition of_kwargs (kw : list (string * value)) : result t :=
  if forallb (fun kv => existsb (String.eqb (fst kv)) fields) kw then
    match dict_get "name" kw, dict_get "address" kw with
    | Some n, Some a =>
        Ok (Make n a (get_default "email" (VStr "") kw)
              (get_default "phone" (VStr "") kw))
    | _, _ => Raise TypeError
    end
  else Raise TypeError.

Definition asdict (c : t) : value :=
  VDict [("name", name c); ("address", address c);
         ("email", email c); ("phone", phone c)].

Definition eq (a b : t) : bool :=
  py_eq (name a) (name b) && py_eq (address a) (address b)
  && py_eq (email a) (email b) && py_eq (phone a) (phone b).

Definition typed (c : t) : bool :=
  is_text (name c) && is_text (address c) && is_text (email c)
  && is_text (phone c).
End Customer.

(** [a and-then b] on comparisons that may raise: the second runs only when
    the first is true, as in the element-wise comparison of two tuples. *)
Definition and_then (a : result bool) (b : result bool) : result bool :=
  r <- a ;; if r : bool then b else Ok false.

Definition hundred : Decimal := Finite false 100 0.
Definition zero : Decimal := Finite false 0 0.

Module Item.
Record t : Type := Make {
  description : value;
  quantity : Decimal;
  unit_price : Decimal;
  tax_rate : Decimal
}.

Definition subtotal (self : t) : result Decimal :=
  m <- dec_mul (quantity self) (unit_price self) ;;
  as_money m.

Definition tax_amount (self : t) : result Decimal :=
  s <- subtotal self ;;
  r <- dec_div (tax_rate self) hundred ;;
  m <- dec_mul s r ;;
  as_money m.

Definition total (self : t) : result Decimal :=
  s <- subtotal self ;;
  x <- tax_amount self ;;
  a <- dec_add s x ;;
  as_money a.

(** The item of [to_dict]. *)
Definition to_dict (it : t) : value :=
  VDict [("description", description it);
         ("quantity", VStr (Decimal_str (quantity it)));
         ("unit_price", VStr (Decimal_str (unit_price it)));
         ("tax_rate", VStr (Decimal_str (tax_rate it)))].

(** The item of [from_dict]: [i.get] needs a dict. *)
Definition from_value (i : value) : result t :=
  match i with
  | VDict d =>
      let desc := get_default "description" (VStr "") d in
      q <- Decimal_of_value (get_default "quantity" (VStr "0") d) ;;
      u <- Decimal_of_value (get_default "unit_price" (VStr "0") d) ;;
      x <- Decimal_of_value (get_default "tax_rate" (VStr "0") d) ;;
      Ok (Make desc q u x)
  | _ => Raise AttributeError
  end.

(** No field is an infinity or a NaN. *)
Definition finite (it : t) : bool :=
  is_finite (quantity it) && is_finite (unit_price it)
  && is_finite (tax_rate it).

(** No field is a NaN, quiet or signalling. *)
Definition no_nan (it : t) : bool :=
  negb (is_nan (quantity it)) && negb (is_nan (unit_price it))
  && negb (is_nan (tax_rate it)).

Definition typed (it : t) : bool := is_text (description it).

Definition eq (a b : t) : result bool :=
  and_then (Ok (py_eq (description a) (description b)))
    (and_then (dec_equal (quantity a) (quantity b))
       (and_then (dec_equal (unit_price a) (unit_price b))
          (dec_equal (tax_rate a) (tax_rate b)))).
End Item.

(** [l1 == l2] on lists of items: lists of different lengths are unequal
    without a look at the items. *)
Fixpoint items_eq_aux (l1 l2 : list Item.t) : result bool :=
  match l1, l2 with
  | a :: l1', b :: l2' => and_then (Item.eq a b) (items_eq_aux l1' l2')
  | _, _ => Ok true
  end.

Definition items_eq (l1 l2 : list Item.t) : result bool :=
  if (List.length l1 =? List.length l2)%nat then items_eq_aux l1 l2
  else Ok false.

Definition due_date_eq (a b : option date) : bool :=
  match a, b with
  | None, None => true
  | Some d1, Some d2 => date_eqb d1 d2
  | _, _ => false
  end.

(** [v.get(k, default)]: only a dict has [get]. *)
Definition value_get (v : value) (k : string) (default : value)
  : result value :=
  match v with
  | VDict d => Ok (get_default k default d)
  | _ => Raise AttributeError
  end.

Module Invoice.
Record t : Type := Make {
  company : Company.t;
  customer : Customer.t;
  items : list Item.t;
  invoice_number : value;
  invoice_date : date;
  due_date : option date;
  currency : value;
  notes : value;
  authorized_by : value
}.

(** [sum((f(i) for i in items), Decimal("0"))]: each term is computed
    when the sum reaches it. *)
Definition sum_of (f : Item.t -> result Decimal) (l : list Item.t)
  : result Decimal :=
  foldM (fun acc i => x <- f i ;; dec_add acc x) l zero.

Definition subtotal (self : t) : result Decimal :=
  s <- sum_of Item.subtotal (items self) ;;
  as_money s.

Definition tax_total (self : t) : result Decimal :=
  s <- sum_of Item.tax_amount (items self) ;;
  as_money s.

Definition grand_total (self : t) : result Decimal :=
  s <- subtotal self ;;
  x <- tax_total self ;;
  a <- dec_add s x ;;
  as_money a.

(** [to_dict]: [asdict] lays the keys out in field order, and the three
    entries it cannot leave to JSON are then written over in place. *)
Definition to_dict (self : t) : value :=
  VDict [("company", Company.asdict (company self));
         ("customer", Customer.asdict (customer self));
         ("items", VList (map Item.to_dict (items self)));
         ("invoice_number", invoice_number self);
         ("invoice_date", VStr (isoformat (invoice_date self)));
         ("due_date", match due_date self with
                      | Some d => VStr (isoformat d)
                      | None => VNone
                      end);
         ("currency", currency self);
         ("notes", notes self);
         ("authorized_by", authorized_by self)].

Definition decode_company (d : list (string * value))
  : result Company.t :=
  match dict_get "company" d with
  | Some (VDict kw) => Company.of_kwargs kw
  | _ =>
      let c := get_default "company" (VDict []) d in
      n <- value_get c "name" (VStr "") ;;
      a <- value_get c "address" (VStr "") ;;
      g <- value_get c "gst_number" (VStr "") ;;
      e <- value_get c "email" (VStr "") ;;
      p <- value_get c "phone" (VStr "") ;;
      Ok (Company.Make n a g e p)
  end.

Definition decode_customer (d : list (string * value))
  : result Customer.t :=
  match dict_get "customer" d with
  | Some (VDict kw) => Customer.of_kwargs kw
  | _ =>
      let c := get_default "customer" (VDict []) d in
      n <- value_get c "name" (VStr "") ;;
      a <- value_get c "address" (VStr "") ;;
      e <- value_get c "email" (VStr "") ;;
      p <- value_get c "phone" (VStr "") ;;
      Ok (Customer.Make n a e p)
  end.

Definition decode_items (d : list (string * value))
  : result (list Item.t) :=
  l <- iterate (get_default "items" (VList []) d) ;;
  mapM Item.from_value l.

Definition decode_invoice_date (today : date) (d : list (string * value))
  : result date :=
  fromisoformat_value
    (get_default "invoice_date" (VStr (isoformat today)) d).

Definition decode_due_date (d : list (string * value))
  : result (option date) :=
  if truthy (get_default "due_date" VNone d) then
    match dict_get "due_date" d with
    | Some v => x <- fromisoformat_value v ;; Ok (Some x)
    | None => Raise KeyError
    end
  else Ok None.

(** [from_dict(data)]; [today] is what [date.today()] returns. *)
Definition from_dict (today : date) (data : value) : result t :=
  match data with
  | VDict d =>
      co <- decode_company d ;;
      cu <- decode_customer d ;;
      its <- decode_items d ;;
      dt <- decode_invoice_date today d ;;
      due <- decode_due_date d ;;
      Ok (Make co cu its
            (get_default "invoice_number" (VStr "") d)
            dt due
            (get_default "currency" (VStr "EUR") d)
            (get_default "notes" (VStr "") d)
            (get_default "authorized_by" (VStr "") d))
  | _ => Raise AttributeError
  end.

(** The generated [__eq__] on two invoices that share no object: the
    tuples of fields, compared in order up to the first difference. *)
Definition eq (a b : t) : result bool :=
  and_then (Ok (Company.eq (company a) (company b)))
    (and_then (Ok (Customer.eq (customer a) (customer b)))
       (and_then (items_eq (items a) (items b))
          (Ok (py_eq (invoice_number a) (invoice_number b)
               && date_eqb (invoice_date a) (invoice_date b)
               && due_date_eq (due_date a) (due_date b)
               && py_eq (currency a) (currency b)
               && py_eq (notes a) (notes b)
               && py_eq (authorized_by a) (authorized_by b))))).

(** The dates are dates of the calendar, as every [date] object is. *)
Definition dates_valid (self : t) : bool :=
  date_valid (invoice_date self)
  && match due_date self with
     | Some d => date_valid d
     | None => true
     end.

(** The text fields are texts. *)
Definition typed (self : t) : bool :=
  Company.typed (company self) && Customer.typed (customer self)
  && forallb Item.typed (items self)
  && is_text (invoice_number self) && is_text (currency self)
  && is_text (notes self) && is_text (authorized_by self).

Definition no_nan (self : t) : bool := forallb Item.no_nan (items self).
End Invoice.

(** ** [storage.py] *)

(** [load_invoice_json(path)]: the file and [json.loads] come in as their
    outcome, the document read or the error raised. *)
Definition load_invoice_json (today : date) (loaded : result value)
  : result Invoice.t :=
  data <- loaded ;;
  Invoice.from_dict today data.

(** ** [utils.py] *)

(** [parse_decimal(value, default)]: [strip] and [replace] are [str]
    methods, so any other value raises AttributeError, which the handler
    catches along with InvalidOperation. *)
Definition parse_decimal (v : value) (default : string) : result Decimal :=
  match v with
  | VStr s =>
      match Decimal_of_chars
              (replace_char ","%char "."%char (strip (chars s))) with
      | Ok d => Ok d
      | Raise InvalidOperation => Decimal_of_str default
      | Raise e => Raise e
      end
  | _ => Decimal_of_str default
  end.

(** The digits from the last one on, [k] of them to go before the next
    separator. *)
Fixpoint insert_sep_rev (sep : ascii) (l : list ascii) (k : nat)
  : list ascii :=
  match l with
  | [] => []
  | a :: l' =>
      match k with
      | O => sep :: a :: insert_sep_rev sep l' 2
      | S k' => a :: insert_sep_rev sep l' k'
      end
  end.

(** Groups of three digits from the right, [sep] between them. *)
Definition thousands (sep : ascii) (digits : list ascii) : list ascii :=
  rev (insert_sep_rev sep (rev digits) 3).

(** [format(amount, ",.2f")]: the comma asks for groups of three digits
    with a comma between them; a finite amount is rescaled to two places
    in the rounding of the context, whatever its size; a special value is
    printed by name. *)
Definition format_2f (amount : Decimal) : list ascii :=
  match amount with
  | Finite s c e =>
      match rescale context_rounding s c e (-2) with
      | Finite s1 c1 _ =>
          sign_chars s1 ++ thousands ","%char (digits_of_N (c1 / 100))
          ++ "."%char :: zero_pad 2 (c1 mod 100)
      | d => Decimal_chars d
      end
  | d => Decimal_chars d
  end.

(** [format_currency(amount, currency)] *)
Definition format_currency (amount : Decimal) (currency : string) : string :=
  text (replace_char "_"%char "."%char
         (replace_char "."%char ","%char
           (replace_char ","%char "_"%char
              (format_2f amount ++ " "%char :: chars currency)))).

(** ** The specification's rounding *)

(** Round-half-up to two places, on the magnitude [c * 10 ^ e]: the number
    of cents nearest to it, the upper one on a tie. With [k = -2 - e]
    digits to discard this is [floor (c / 10 ^ k + 1 / 2)]. *)
Definition half_up_cents (c : N) (e : Z) : N :=
  if -2 <=? e then (c * pow10 (e + 2))%N
  else ((2 * c + pow10 (-2 - e)) / (2 * pow10 (-2 - e)))%N.

(** A money value: finite, two places, within the precision of the
    context. *)
Definition is_money (d : Decimal) : bool :=
  match d with
  | Finite _ c e => (e =? -2) && (c <? pow10 prec)%N
  | _ => false
  end.

(** ** Sample values and classes of documents *)

(** [inv.items = l]: the one mutation the model has, the replacement of the
    whole sequence. *)
Definition with_items (inv : Invoice.t) (l : list Item.t) : Invoice.t :=
  Invoice.Make (Invoice.company inv) (Invoice.customer inv) l
    (Invoice.invoice_number inv) (Invoice.invoice_date inv)
    (Invoice.due_date inv) (Invoice.currency inv) (Invoice.notes inv)
    (Invoice.authorized_by inv).

(** [sum(ms, Decimal("0"))] on values already computed. *)
Definition dec_sum (ms : list Decimal) : result Decimal :=
  foldM dec_add ms zero.

(** The item of [test_item_totals]: quantity 2, unit price 10, tax 10 %. *)
Definition sample_item : Item.t :=
  Item.Make (VStr "x") (Finite false 2 0) (Finite false 10 0)
    (Finite false 10 0).

(** The items of [test_invoice_aggregates]. *)
Definition sample_items : list Item.t :=
  [Item.Make (VStr "a") (Finite false 1 0) (Finite false 100 0)
     (Finite false 0 0);
   Item.Make (VStr "b") (Finite false 2 0) (Finite false 50 0)
     (Finite false 10 0)].

(** [isinstance(v, dict)] *)
Definition is_dict (v : value) : bool :=
  match v with
  | VDict _ => true
  | _ => false
  end.

(** The company and the customer of a document that has none. *)
Definition default_company : Company.t :=
  Company.Make (VStr "") (VStr "") (VStr "") (VStr "") (VStr "").

Definition default_customer : Customer.t :=
  Customer.Make (VStr "") (VStr "") (VStr "") (VStr "").

(** The keys [from_dict] reads. *)
Definition document_keys : list string :=
  ["company"; "customer"; "items"; "invoice_number"; "invoice_date";
   "due_date"; "currency"; "notes"; "authorized_by"].

(** The keywords a constructor rejects: one that is no field, or the lack
    of a required one. *)
Definition bad_kwargs (fields : list string) (kw : list (string * value))
  : Prop :=
  dict_get "name" kw = None \/ dict_get "address" kw = None
  \/ exists k v, In (k, v) kw /\ ~ In k fields.

(** A document with text that [date.fromisoformat] or [Decimal] rejects
    where [from_dict] converts it: the invoice date, a due date that is not
    empty, a decimal of an item. *)
Inductive malformed (d : list (string * value)) : Prop :=
| malformed_invoice_date (s : string) (e : exn) :
    dict_get "invoice_date" d = Some (VStr s) ->
    fromisoformat s = Raise e ->
    malformed d
| malformed_due_date (s : string) (e : exn) :
    dict_get "due_date" d = Some (VStr s) ->
    s <> "" ->
    fromisoformat s = Raise e ->
    malformed d
| malformed_decimal (l : list value) (i : list (string * value))
    (k s : string) (e : exn) :
    dict_get "items" d = Some (VList l) ->
    In (VDict i) l ->
    In k ["quantity"; "unit_price"; "tax_rate"] ->
    dict_get k i = Some (VStr s) ->
    Decimal_of_str s = Raise e ->
    malformed d.

(** The three characters [format_currency] replaces. *)
Definition is_mark (a : ascii) : bool :=
  Ascii.eqb a ","%char || Ascii.eqb a "."%char || Ascii.eqb a "_"%char.

Definition no_mark (l : list ascii) : bool :=
  forallb (fun a => negb (is_mark a)) l.

(** An invoice with one item, whose quantity is a NaN. *)
Definition nan_invoice : Invoice.t :=
  Invoice.Make
    (Company.Make (VStr "c") (VStr "addr") (VStr "") (VStr "") (VStr ""))
    (Customer.Make (VStr "u") (VStr "addr") (VStr "") (VStr ""))
    [Item.Make (VStr "x") (NaN false 0) (Finite false 1 0) zero]
    (VStr "") (Date 2025 10 19) None (VStr "EUR") (VStr "") (VStr "").

(** The invoice of [test_invoice_aggregates], due a fortnight on. *)
Definition sample_invoice : Invoice.t :=
  Invoice.Make
    (Company.Make (VStr "c") (VStr "addr") (VStr "") (VStr "") (VStr ""))
    (Customer.Make (VStr "u") (VStr "addr") (VStr "") (VStr ""))
    sample_items (VStr "INV-1") (Date 2025 10 19)
    (Some (Date 2025 11 2)) (VStr "EUR") (VStr "") (VStr "").

(** ** Layouts of text *)

(** What the three replacements of [format_currency] make of one
    character. *)
Definition swap_marks (a : ascii) : ascii :=
  if Ascii.eqb a ","%char then "."%char
  else if Ascii.eqb a "."%char then ","%char
  else if Ascii.eqb a "_"%char then "."%char
  else a.

(** Characters that [strip] and the removal of underscores leave alone. *)
Definition plain (l : list ascii) : bool :=
  forallb (fun a => negb (is_space a) && negb (Ascii.eqb a "_"%char)) l.

(** The fraction and the exponent of a numeral, when it has them. *)
Definition frac_chars (o : option (list ascii)) : list ascii :=
  match o with
  | Some fp => "."%char :: fp
  | None => []
  end.

Definition frac_digits (o : option (list ascii)) : list ascii :=
  match o with
  | Some fp => fp
  | None => []
  end.

Definition exp_chars (o : option Z) : list ascii :=
  match o with
  | Some x => "E"%char :: signed_digits x
  | None => []
  end.

Definition exp_value (o : option Z) : Z :=
  match o with
  | Some x => x
  | None => 0
  end.

(** The first character of [l], if any, is no digit. *)
Definition no_digit_ahead (l : list ascii) : bool :=
  match l with
  | a :: _ => negb (is_digit a)
  | [] => true
  end.

(** ** Items, sums and exceptions *)

(** The keys [from_dict] reads in an item. *)
Definition item_keys : list string :=
  ["description"; "quantity"; "unit_price"; "tax_rate"].

(** [getattr(it, k)] for the name of a decimal field. *)
Definition decimal_field (k : string) (it : Item.t) : Decimal :=
  if String.eqb k "quantity" then Item.quantity it
  else if String.eqb k "unit_price" then Item.unit_price it
  else Item.tax_rate it.

(** [Decimal(z)] for an integer. *)
Definition Decimal_of_Z (z : Z) : Decimal := Finite (z <? 0) (Z.abs_N z) 0.

(** [non_empty(text)] of [utils.py]: [bool(text and text.strip())]. A false
    [text] is the value of the conjunction; [strip] is a method of [str]
    alone. *)
Definition non_empty (v : value) : result bool :=
  if truthy v then
    match v with
    | VStr s => Ok (truthy (VStr (text (strip (chars s)))))
    | _ => Raise AttributeError
    end
  else Ok false.

Definition no_comma (l : list ascii) : bool :=
  forallb (fun a => negb (Ascii.eqb a ","%char)) l.

(** [LabeledEntry.get] of [gui.py]: the text of the entry, stripped. *)
Definition entry_get (var : string) : string := text (strip (chars var)).

(** [ItemDialog.on_ok] of [gui.py], the windows apart: the item made of
    the texts of the four entries, which is the result of the dialog
    unless an exception is raised. *)
Definition on_ok (desc qty uprice tax : string) : result Item.t :=
  let d := entry_get desc in
  q <- parse_decimal (VStr (entry_get qty)) "0" ;;
  u <- parse_decimal (VStr (entry_get uprice)) "0" ;;
  x <- parse_decimal (VStr (entry_get tax)) "0" ;;
  Ok (Item.Make (VStr d) q u x).

(** The cents of a decimal of two places, as a signed integer. *)
Definition cents (d : Decimal) : Z :=
  match d with
  | Finite s c _ => if s then - Z.of_N c else Z.of_N c
  | _ => 0
  end.

(** The sum of the cents of a list of decimals, and of their magnitudes. *)
Definition sum_cents (l : list Decimal) : Z :=
  fold_right (fun d acc => cents d + acc) 0 l.

Definition sum_abs_cents (l : list Decimal) : Z :=
  fold_right (fun d acc => Z.abs (cents d) + acc) 0 l.

(** The decimal of two places that is [z] cents. *)
Definition money_of_cents (z : Z) : Decimal :=
  Finite (z <? 0) (Z.abs_N z) (-2).

(** The zero with a minus sign, at any exponent. *)
Definition negative_zero (d : Decimal) : bool :=
  match d with
  | Finite true 0%N _ => true
  | _ => false
  end.

(** ** [gui.py]: the main window *)

Module App.
(** The entries of the window, each the text its variable holds. *)
Record form : Type := Form {
  c_name : string;
  c_addr : string;
  c_gst : string;
  c_email : string;
  c_phone : string;
  u_name : string;
  u_addr : string;
  u_email : string;
  u_phone : string;
  inv_no : string;
  inv_date : string;
  due_date : string;
  currency : string;
  notes : string;
  auth : string
}.

(** [x or y] on texts: [y] when [x] is empty. *)
Definition or_text (x y : string) : string :=
  if String.eqb x "" then y else x.

(** [App.build_invoice]; [items] is the outcome of reading the table of
    items, which Tk keeps, and [today] what [date.today()] returns. *)
Definition build_invoice (today : date) (f : form)
                         (items : result (list Item.t))
  : result Invoice.t :=
  let company :=
    Company.Make (VStr (entry_get (c_name f))) (VStr (entry_get (c_addr f)))
      (VStr (entry_get (c_gst f))) (VStr (entry_get (c_email f)))
      (VStr (entry_get (c_phone f))) in
  let customer :=
    Customer.Make (VStr (entry_get (u_name f)))
      (VStr (entry_get (u_addr f))) (VStr (entry_get (u_email f)))
      (VStr (entry_get (u_phone f))) in
  its <- items ;;
  dt <- fromisoformat (or_text (entry_get (inv_date f)) (isoformat today)) ;;
  due <- (if String.eqb (entry_get (due_date f)) "" then Ok None
          else d <- fromisoformat (entry_get (due_date f)) ;; Ok (Some d)) ;;
  Ok (Invoice.Make company customer its (VStr (entry_get (inv_no f)))
        dt due (VStr (or_text (entry_get (currency f)) "EUR"))
        (VStr (entry_get (notes f))) (VStr (entry_get (auth f)))).

(** The text of a field that is one. *)
Definition text_of (v : value) : string :=
  match v with
  | VStr s => s
  | _ => ""
  end.

(** [App.load_into_form], the table of items apart, on an invoice whose
    text fields are texts ([Invoice.typed]); what Tk makes of a field of
    another type is not modelled. *)
Definition load_into_form (inv : Invoice.t) : form :=
  Form (text_of (Company.name (Invoice.company inv)))
    (text_of (Company.address (Invoice.company inv)))
    (text_of (Company.gst_number (Invoice.company inv)))
    (text_of (Company.email (Invoice.company inv)))
    (text_of (Company.phone (Invoice.company inv)))
    (text_of (Customer.name (Invoice.customer inv)))
    (text_of (Customer.address (Invoice.customer inv)))
    (text_of (Customer.email (Invoice.customer inv)))
    (text_of (Customer.phone (Invoice.customer inv)))
    (text_of (Invoice.invoice_number inv))
    (isoformat (Invoice.invoice_date inv))
    (match Invoice.due_date inv with
     | Some d => isoformat d
     | None => ""
     end)
    (text_of (Invoice.currency inv))
    (text_of (Invoice.notes inv))
    (text_of (Invoice.authorized_by inv)).

(** The text fields of an invoice that the window shows. *)
Definition text_fields (inv : Invoice.t) : list value :=
  [Company.name (Invoice.company inv);
   Company.address (Invoice.company inv);
   Company.gst_number (Invoice.company inv);
   Company.email (Invoice.company inv);
   Company.phone (Invoice.company inv);
   Customer.name (Invoice.customer inv);
   Customer.address (Invoice.customer inv);
   Customer.email (Invoice.customer inv);
   Customer.phone (Invoice.customer inv);
   Invoice.invoice_number inv;
   Invoice.currency inv;
   Invoice.notes inv;
   Invoice.authorized_by inv].

(** A text without whitespace at either end. *)
Definition is_stripped (v : value) : bool :=
  match v with
  | VStr s => String.eqb (entry_get s) s
  | _ => false
  end.
End App.

(** The exceptions of [decimal] that the arithmetic of an invoice can
    raise, and those a document can make [from_dict] raise. *)
Definition arithmetic_error (e : exn) : bool :=
  match e with
  | InvalidOperation | Overflow => true
  | _ => false
  end.

Definition load_error (e : exn) : bool :=
  match e with
  | TypeError | AttributeError | ValueError | InvalidOperation => true
  | _ => false
  end.

(** * Properties *)

Local Open Scope list_scope.
Local Open Scope Z_scope.

(** ** Decimal digits: the printer and the reader *)

Lemma N_div10_ind (P : N -> Prop) :
  (forall n, (n < 10)%N -> P n) ->
  (forall n, (10 <= n)%N -> P (n / 10)%N -> P n) ->
  forall n, P n.
Proof.
  intros Hb Hs n.
  induction n as [n IH] using (well_founded_induction N.lt_wf_0).
  destruct (N.ltb_spec n 10) as [Hlt | Hge]; [now apply Hb|].
  apply Hs; [assumption|]. apply IH. apply N.div_lt; lia.
Qed.

Lemma digits_aux_S : forall fuel n acc,
  digits_aux (S fuel) n acc =
  if (n / 10 =? 0)%N then digit_char (n mod 10) :: acc
  else digits_aux fuel (n / 10) (digit_char (n mod 10) :: acc).
Proof. reflexivity. Qed.

Lemma digits_aux_app : forall fuel n acc,
  digits_aux fuel n acc = digits_aux fuel n [] ++ acc.
Proof.
  induction fuel as [|f IH]; intros n acc; [reflexivity|].
  rewrite !digits_aux_S. destruct (n / 10 =? 0)%N; [reflexivity|].
  rewrite IH, (IH _ [_]), <- app_assoc. reflexivity.
Qed.

Lemma div10_small : forall n, (n / 10 =? 0)%N = (n <? 10)%N.
Proof.
  intros n. destruct (N.ltb_spec n 10) as [H | H].
  - apply N.eqb_eq. now apply N.div_small.
  - apply N.eqb_neq. intros E.
    pose proof (N.Div0.mul_div_le n 10).
    pose proof (N.mod_upper_bound n 10 ltac:(lia)).
    pose proof (N.div_mod n 10 ltac:(lia)). lia.
Qed.

Lemma digits_aux_fuel : forall f1 f2 n acc,
  (n < 2 ^ N.of_nat (S f1))%N -> (n < 2 ^ N.of_nat (S f2))%N ->
  digits_aux (S f1) n acc = digits_aux (S f2) n acc.
Proof.
  induction f1 as [|f1 IH]; intros f2 n acc H1 H2; rewrite !digits_aux_S;
    rewrite div10_small; destruct (N.ltb_spec n 10) as [Hn | Hn];
    try reflexivity.
  - change (2 ^ N.of_nat 1)%N with 2%N in H1. lia.
  - destruct f2 as [|f2].
    + change (2 ^ N.of_nat 1)%N with 2%N in H2. lia.
    + assert (Hd : forall f, (n < 2 ^ N.of_nat (S (S f)))%N ->
                             (n / 10 < 2 ^ N.of_nat (S f))%N).
      { intros f Hf. rewrite (Nat2N.inj_succ (S f)), N.pow_succ_r' in Hf.
        apply N.Div0.div_lt_upper_bound. lia. }
      apply IH; apply Hd; assumption.
Qed.

(** The printer, one digit at a time and free of its fuel. *)
Lemma digits_of_N_eq : forall n,
  digits_of_N n =
  if (n <? 10)%N then [digit_char n]
  else digits_of_N (n / 10) ++ [digit_char (n mod 10)].
Proof.
  intros n. unfold digits_of_N at 1. rewrite digits_aux_S, div10_small.
  destruct (N.ltb_spec n 10) as [Hn | Hn].
  - now rewrite N.mod_small.
  - rewrite digits_aux_app. f_equal.
    assert (H3 : (3 <= N.log2 n)%N).
    { change 3%N with (N.log2 8). apply N.log2_le_mono. lia. }
    destruct (N.to_nat (N.log2 n)) as [|f] eqn:Ef; [lia|].
    unfold digits_of_N. apply digits_aux_fuel.
    + rewrite <- Ef, N2Nat.id.
      destruct (N.log2_spec n ltac:(lia)) as [_ Hu].
      rewrite N.pow_succ_r' in Hu.
      apply N.Div0.div_lt_upper_bound. lia.
    + rewrite Nat2N.inj_succ, N2Nat.id.
      assert (0 < n / 10)%N.
      { apply N.div_str_pos. lia. }
      now destruct (N.log2_spec (n / 10) ltac:(lia)).
Qed.

Lemma N_of_ascii_digit_char : forall d,
  (d < 10)%N -> N_of_ascii (digit_char d) = (48 + d)%N.
Proof.
  intros d H. unfold digit_char. apply N_ascii_embedding. lia.
Qed.

Lemma is_digit_digit_char : forall d,
  (d < 10)%N -> is_digit (digit_char d) = true.
Proof.
  intros d H. unfold is_digit. rewrite N_of_ascii_digit_char by assumption.
  apply andb_true_iff; split; apply N.leb_le; lia.
Qed.

Lemma digit_val_digit_char : forall d,
  (d < 10)%N -> digit_val (digit_char d) = d.
Proof.
  intros d H. unfold digit_val. rewrite N_of_ascii_digit_char by assumption.
  lia.
Qed.

Lemma digits_of_N_digits : forall n, forallb is_digit (digits_of_N n) = true.
Proof.
  induction n as [n Hn | n Hn IH] using N_div10_ind;
    rewrite digits_of_N_eq;
    destruct (N.ltb_spec n 10) as [H | H]; try lia.
  - simpl. now rewrite is_digit_digit_char.
  - rewrite forallb_app, IH. simpl.
    rewrite is_digit_digit_char; [reflexivity|].
    apply N.mod_upper_bound. lia.
Qed.

Lemma N_of_digits_app : forall l1 l2 acc,
  N_of_digits acc (l1 ++ l2) = N_of_digits (N_of_digits acc l1) l2.
Proof.
  induction l1 as [|a l1 IH]; intros l2 acc; simpl; [reflexivity|apply IH].
Qed.

Lemma N_of_digits_of_N : forall n, N_of_digits 0 (digits_of_N n) = n.
Proof.
  induction n as [n Hn | n Hn IH] using N_div10_ind;
    rewrite digits_of_N_eq;
    destruct (N.ltb_spec n 10) as [H | H]; try lia.
  - simpl. now rewrite digit_val_digit_char.
  - rewrite N_of_digits_app, IH. simpl.
    rewrite digit_val_digit_char by (apply N.mod_upper_bound; lia).
    pose proof (N.div_mod n 10 ltac:(lia)). lia.
Qed.

Lemma digits_of_N_length : forall n,
  (n < 10 ^ N.of_nat (List.length (digits_of_N n)))%N /\
  (n <> 0%N -> (10 ^ N.of_nat (List.length (digits_of_N n)) <= 10 * n)%N) /\
  (1 <= List.length (digits_of_N n))%nat.
Proof.
  induction n as [n Hn | n Hn IH] using N_div10_ind;
    rewrite digits_of_N_eq;
    destruct (N.ltb_spec n 10) as [H | H]; try lia.
  - cbn [List.length]. change (10 ^ N.of_nat 1)%N with 10%N. lia.
  - destruct IH as (IH1 & IH2 & IH3).
    rewrite length_app. simpl List.length.
    replace (N.of_nat (List.length (digits_of_N (n / 10)) + 1))
      with (N.succ (N.of_nat (List.length (digits_of_N (n / 10))))) by lia.
    rewrite N.pow_succ_r'.
    pose proof (N.div_mod n 10 ltac:(lia)).
    pose proof (N.mod_upper_bound n 10 ltac:(lia)).
    assert (n / 10 <> 0)%N.
    { intros E. rewrite E in *. lia. }
    specialize (IH2 ltac:(assumption)).
    generalize dependent (10 ^ N.of_nat (List.length (digits_of_N (n / 10))))%N.
    intros p ? ?. pose proof (N.Div0.mul_div_le n 10). lia.
Qed.

(** ** Powers of ten and the number of digits *)

Lemma pow10_pos : forall k, (0 < pow10 k)%N.
Proof.
  intros k. unfold pow10.
  assert (10 ^ Z.to_N k <> 0)%N by (apply N.pow_nonzero; lia). lia.
Qed.

Lemma pow10_add : forall a b,
  0 <= a -> 0 <= b -> pow10 (a + b) = (pow10 a * pow10 b)%N.
Proof.
  intros a b Ha Hb. unfold pow10.
  rewrite Z2N.inj_add by assumption. apply N.pow_add_r.
Qed.

Lemma pow10_succ : forall a, 0 <= a -> pow10 (a + 1) = (10 * pow10 a)%N.
Proof.
  intros a Ha. rewrite pow10_add by lia. change (pow10 1) with 10%N. lia.
Qed.

Lemma pow10_le : forall a b, a <= b -> (pow10 a <= pow10 b)%N.
Proof.
  intros a b H. unfold pow10. apply N.pow_le_mono_r; lia.
Qed.

Lemma pow10_ndigits : forall n,
  pow10 (ndigits n) = (10 ^ N.of_nat (List.length (digits_of_N n)))%N.
Proof.
  intros n. unfold pow10, ndigits. now rewrite <- nat_N_Z, N2Z.id.
Qed.

Lemma ndigits_pos : forall n, 1 <= ndigits n.
Proof.
  intros n. unfold ndigits. pose proof (digits_of_N_length n). lia.
Qed.

Lemma ndigits_upper : forall n, (n < pow10 (ndigits n))%N.
Proof.
  intros n. rewrite pow10_ndigits. apply digits_of_N_length.
Qed.

Lemma ndigits_lower : forall n,
  n <> 0%N -> (pow10 (ndigits n) <= 10 * n)%N.
Proof.
  intros n H. rewrite pow10_ndigits. now apply digits_of_N_length.
Qed.

(** [n] has at most [k] digits exactly when it is below [10 ^ k]. *)
Lemma ndigits_le_iff : forall n k,
  n <> 0%N -> 0 <= k -> (ndigits n <= k <-> (n < pow10 k)%N).
Proof.
  intros n k Hn Hk. split; intros H.
  - pose proof (ndigits_upper n). pose proof (pow10_le _ _ H). lia.
  - destruct (Z_le_gt_dec (ndigits n) k) as [|Hgt]; [assumption|exfalso].
    pose proof (ndigits_lower n Hn).
    pose proof (pow10_le (k + 1) (ndigits n) ltac:(lia)).
    rewrite pow10_succ in * by assumption. lia.
Qed.

Lemma ndigits_zero : ndigits 0 = 1.
Proof. reflexivity. Qed.

(** ** Rounding to cents *)

(** Discarding [k] digits half-up is adding half a unit and truncating. *)
Lemma round_half_up_eq : forall c k,
  round_digits ROUND_HALF_UP c k
  = ((2 * c + pow10 k) / (2 * pow10 k))%N.
Proof.
  intros c k. unfold round_digits.
  pose proof (pow10_pos k) as Hp.
  generalize dependent (pow10 k). intros p Hp.
  pose proof (N.div_mod c p ltac:(lia)) as Hc.
  pose proof (N.mod_upper_bound c p ltac:(lia)) as Hr.
  generalize dependent (c mod p)%N. generalize dependent (c / p)%N.
  intros q r Hc Hr.
  destruct (N.leb_spec p (2 * r)) as [Hup | Hdown].
  - apply N.div_unique with (2 * r - p)%N; nia.
  - apply N.div_unique with (2 * r + p)%N; nia.
Qed.

Lemma half_up_cents_zero : forall e, half_up_cents 0 e = 0%N.
Proof.
  intros e. unfold half_up_cents. destruct (-2 <=? e); [reflexivity|].
  apply N.div_small. pose proof (pow10_pos (-2 - e)). lia.
Qed.

Lemma half_up_cents_big : forall c e,
  c <> 0%N -> 26 < ndigits c + e -> (pow10 28 <= half_up_cents c e)%N.
Proof.
  intros c e Hc H. pose proof (ndigits_lower c Hc) as Hl.
  pose proof (ndigits_pos c) as Hp.
  replace (ndigits c) with ((ndigits c - 1) + 1) in Hl by lia.
  rewrite pow10_succ in Hl by lia.
  unfold half_up_cents. destruct (Z.leb_spec (-2) e) as [He | He].
  - pose proof (pow10_le 28 ((ndigits c - 1) + (e + 2)) ltac:(lia)) as Hm.
    rewrite pow10_add in Hm by lia. nia.
  - pose proof (pow10_le 28 (ndigits c - 1 - (-2 - e)) ltac:(lia)) as Hm.
    assert (Hs : pow10 (ndigits c - 1)
                 = (pow10 (ndigits c - 1 - (-2 - e)) * pow10 (-2 - e))%N).
    { rewrite <- pow10_add by lia. f_equal. lia. }
    pose proof (pow10_pos (-2 - e)) as Hq.
    generalize dependent (pow10 (-2 - e)). intros p Hs Hq.
    generalize dependent (pow10 (ndigits c - 1 - (-2 - e))). intros m Hm Hs.
    apply N.div_le_lower_bound; [lia|]. nia.
Qed.

Lemma half_up_cents_small : forall c e,
  ndigits c + e <= 26 -> (half_up_cents c e <= pow10 28)%N.
Proof.
  intros c e H. pose proof (ndigits_upper c) as Hu.
  pose proof (ndigits_pos c) as Hp.
  unfold half_up_cents. destruct (Z.leb_spec (-2) e) as [He | He].
  - pose proof (pow10_le (ndigits c + (e + 2)) 28 ltac:(lia)) as Hm.
    rewrite pow10_add in Hm by lia. nia.
  - pose proof (pow10_pos (-2 - e)) as Hq.
    apply N.lt_succ_r, N.Div0.div_lt_upper_bound.
    destruct (Z_le_gt_dec (ndigits c) (-2 - e)) as [Hle | Hgt].
    + pose proof (pow10_le _ _ Hle). pose proof (pow10_pos 28). nia.
    + pose proof (pow10_le (ndigits c - (-2 - e)) 28 ltac:(lia)) as Hm.
      assert (Hs : pow10 (ndigits c)
                   = (pow10 (ndigits c - (-2 - e)) * pow10 (-2 - e))%N).
      { rewrite <- pow10_add by lia. f_equal. lia. }
      nia.
Qed.

Lemma fix_finite_zero : forall s e,
  Etiny <= e <= Emax -> fix_finite s 0 e = Ok (Finite s 0 e).
Proof.
  intros s e H. unfold fix_finite. cbn [N.eqb]. do 2 f_equal. lia.
Qed.

(** [_fix] leaves alone a value that fits the context. *)
Lemma fix_finite_exact : forall s c e,
  (c < pow10 prec)%N -> Etiny <= e -> ndigits c + e <= Emax + 1 ->
  fix_finite s c e = Ok (Finite s c e).
Proof.
  intros s c e Hc He Hm. destruct (N.eq_dec c 0) as [-> | Hnz].
  - apply fix_finite_zero. change (ndigits 0) with 1 in Hm. lia.
  - unfold fix_finite. apply N.eqb_neq in Hnz as Hz. rewrite Hz.
    apply ndigits_le_iff in Hc; [|assumption|unfold prec; lia].
    unfold Etop, Etiny, Emin, Emax, prec in *.
    destruct (Z.ltb_spec (999999 - 28 + 1) (ndigits c + e - 28)); [lia|].
    destruct (Z.ltb_spec (ndigits c + e - 28) (-999999 - 28 + 1));
      (match goal with
       | |- context [?a <? ?b] => destruct (Z.ltb_spec a b)
       end; [lia|reflexivity]).
Qed.

Lemma rescale_half_up_cents : forall s c e,
  rescale ROUND_HALF_UP s c e (-2) = Finite s (half_up_cents c e) (-2).
Proof.
  intros s c e. unfold rescale. destruct (N.eqb_spec c 0) as [-> | Hc].
  - now rewrite half_up_cents_zero.
  - unfold half_up_cents. destruct (-2 <=? e).
    + reflexivity.
    + now rewrite round_half_up_eq.
Qed.

(** [as_money] on a finite value: the cents of the magnitude rounded
    half-up, under the sign of the value, if they fit [prec] digits. *)
Lemma as_money_finite : forall s c e,
  as_money (Finite s c e) =
  if (half_up_cents c e <? pow10 prec)%N
  then Ok (Finite s (half_up_cents c e) (-2))
  else Raise InvalidOperation.
Proof.
  intros s c e. unfold as_money, as_money_n, quantize.
  change (- Z.of_nat 2) with (-2).
  change ((-2 <? Etiny) || (Emax <? -2)) with false. cbv iota.
  destruct (N.eqb_spec c 0) as [-> | Hc].
  - rewrite half_up_cents_zero. reflexivity.
  - destruct (Z.ltb_spec Emax (ndigits c + e - 1)) as [H1 | H1].
    { pose proof (half_up_cents_big c e Hc) as Hb. unfold Emax in H1.
      destruct (N.ltb_spec (half_up_cents c e) (pow10 prec)) as [Hlt | _];
        [|reflexivity].
      unfold prec in Hlt. specialize (Hb ltac:(lia)). lia. }
    destruct (Z.ltb_spec prec (ndigits c + e - 1 - -2 + 1)) as [H2 | H2].
    { pose proof (half_up_cents_big c e Hc) as Hb. unfold prec in H2.
      destruct (N.ltb_spec (half_up_cents c e) (pow10 prec)) as [Hlt | _];
        [|reflexivity].
      unfold prec in Hlt. specialize (Hb ltac:(lia)). lia. }
    rewrite rescale_half_up_cents.
    pose proof (half_up_cents_small c e) as Hs. unfold prec in H2.
    specialize (Hs ltac:(lia)).
    destruct (N.ltb_spec (half_up_cents c e) (pow10 prec)) as [Hlt | Hge].
    + assert (Hd : ndigits (half_up_cents c e) <= 28).
      { destruct (N.eq_dec (half_up_cents c e) 0) as [-> | Hnz].
        - change (ndigits 0) with 1. lia.
        - apply ndigits_le_iff; [assumption|lia|assumption]. }
      destruct (Z.ltb_spec Emax (ndigits (half_up_cents c e) + -2 - 1));
        [unfold Emax in *; lia|].
      destruct (Z.ltb_spec prec (ndigits (half_up_cents c e)));
        [unfold prec in *; lia|].
      apply fix_finite_exact; [assumption|unfold Etiny, Emin, prec; lia|].
      unfold Emax; lia.
    + unfold prec in Hge.
      replace (half_up_cents c e) with (pow10 28) by lia. reflexivity.
Qed.

(** ** The error monad *)

Lemma bind_ok {A B : Type} (m : result A) (k : A -> result B) (r : B) :
  bind m k = Ok r <-> exists a, m = Ok a /\ k a = Ok r.
Proof.
  destruct m as [a | e]; simpl; split.
  - intros H. now exists a.
  - intros (a' & E & H). now injection E as ->.
  - discriminate.
  - intros (a' & E & _). discriminate.
Qed.

Lemma bind_raise {A B : Type} (m : result A) (k : A -> result B) (e : exn) :
  m = Raise e -> bind m k = Raise e.
Proof. intros ->. reflexivity. Qed.

Ltac inv_bind H :=
  let a := fresh "a" in
  let E := fresh "E" in
  apply bind_ok in H; destruct H as (a & E & H).

(** ** Finite operands give finite results *)

Lemma fix_finite_cases : forall s c e,
  fix_finite s c e = Raise Overflow \/
  exists c' e', fix_finite s c e = Ok (Finite s c' e').
Proof.
  intros s c e. unfold fix_finite.
  destruct (c =? 0)%N; [right; eauto|]. cbv zeta.
  destruct (Etop <? _); [now left|].
  destruct (e <? _); [|right; eauto].
  destruct (prec <? _); (destruct (Etop <? _); [now left|right; eauto]).
Qed.

Lemma fix_finite_finite : forall s c e r,
  fix_finite s c e = Ok r -> is_finite r = true.
Proof.
  intros s c e r H.
  destruct (fix_finite_cases s c e) as [E | (c' & e' & E)];
    rewrite E in H; [discriminate|now injection H as <-].
Qed.

Lemma rescale_finite : forall r s c e e',
  exists c', rescale r s c e e' = Finite s c' e'.
Proof.
  intros r s c e e'. unfold rescale.
  destruct (c =? 0)%N; [eauto|]. destruct (e' <=? e); eauto.
Qed.

Lemma dec_mul_finite : forall a b r,
  is_finite a = true -> is_finite b = true ->
  dec_mul a b = Ok r -> is_finite r = true.
Proof.
  intros [sa ca ea | | |] [sb cb eb | | |] r Ha Hb H; try discriminate.
  now apply fix_finite_finite in H.
Qed.


Lemma dec_div_finite : forall a b r,
  is_finite a = true -> is_finite b = true ->
  dec_div a b = Ok r -> is_finite r = true.
Proof.
  intros [sa ca ea | | |] [sb cb eb | | |] r Ha Hb H; try discriminate.
  unfold dec_div, check_nans in H. cbv zeta in H.
  destruct (cb =? 0)%N; [destruct (ca =? 0)%N; discriminate|].
  destruct (ca =? 0)%N; [now apply fix_finite_finite in H|].
  destruct (if 0 <=? _ then _ else _) as [coeff remainder].
  destruct (remainder =? 0)%N.
  - destruct (strip_zeros _ _ _ _) as [coeff' e'].
    now apply fix_finite_finite in H.
  - now apply fix_finite_finite in H.
Qed.

Lemma is_money_finite : forall d, is_money d = true -> is_finite d = true.
Proof. intros [s c e | | |] H; [reflexivity|discriminate..]. Qed.

Lemma as_money_money : forall m r,
  is_finite m = true -> as_money m = Ok r -> is_money r = true.
Proof.
  intros [s c e | | |] r Hm H; try discriminate.
  rewrite as_money_finite in H.
  destruct (half_up_cents c e <? pow10 prec)%N eqn:Hlt; [|discriminate].
  injection H as <-. simpl. assumption.
Qed.

(** A money value is its own rounding. *)
Lemma as_money_idem : forall d, is_money d = true -> as_money d = Ok d.
Proof.
  intros [s c e | | |] H; try discriminate. simpl in H.
  apply andb_true_iff in H as [He Hc]. apply Z.eqb_eq in He. subst e.
  rewrite as_money_finite.
  replace (half_up_cents c (-2)) with c.
  - now rewrite Hc.
  - unfold half_up_cents. change (pow10 (-2 + 2)) with 1%N. simpl. lia.
Qed.

Lemma Item_subtotal_money : forall it r,
  Item.finite it = true -> Item.subtotal it = Ok r -> is_money r = true.
Proof.
  intros it r Hf H. unfold Item.finite in Hf.
  apply andb_true_iff in Hf as [Hf _]. apply andb_true_iff in Hf as [Hq Hp].
  unfold Item.subtotal in H. inv_bind H.
  eapply as_money_money; [|eassumption].
  eapply dec_mul_finite; [| |eassumption]; assumption.
Qed.

Lemma Item_tax_amount_money : forall it r,
  Item.finite it = true -> Item.tax_amount it = Ok r -> is_money r = true.
Proof.
  intros it r Hf H. pose proof Hf as Hf'. unfold Item.finite in Hf.
  apply andb_true_iff in Hf as [_ Hr].
  unfold Item.tax_amount in H. inv_bind H. inv_bind H. inv_bind H.
  eapply as_money_money; [|eassumption].
  eapply dec_mul_finite; [| |eassumption].
  - eapply is_money_finite, Item_subtotal_money; eassumption.
  - eapply dec_div_finite; [| |eassumption]; [assumption|reflexivity].
Qed.




(** [half_up_cents] is the nearest number of cents, the upper one on a
    tie: with the magnitude written [num / den] cents,
    [h <= num / den + 1 / 2 < h + 1]. *)
Lemma half_up_cents_nearest : forall c e,
  let h := half_up_cents c e in
  let num := (c * pow10 (e + 2))%N in
  let den := pow10 (-2 - e) in
  (2 * h * den <= 2 * num + den < 2 * (h + 1) * den)%N.
Proof.
  intros c e. cbv zeta. unfold half_up_cents.
  destruct (Z.leb_spec (-2) e) as [He | He].
  - replace (pow10 (-2 - e)) with 1%N; [lia|].
    unfold pow10. now replace (Z.to_N (-2 - e)) with 0%N by lia.
  - replace (pow10 (e + 2)) with 1%N.
    2:{ unfold pow10. now replace (Z.to_N (e + 2)) with 0%N by lia. }
    pose proof (pow10_pos (-2 - e)) as Hp.
    generalize dependent (pow10 (-2 - e)). intros p Hp.
    pose proof (N.Div0.mul_div_le (2 * c + p) (2 * p)).
    pose proof (N.mul_succ_div_gt (2 * c + p) (2 * p) ltac:(lia)).
    lia.
Qed.

(** C4 (amended). [as_money] on a finite value of sign [s], coefficient
    [c] and exponent [e] rounds the magnitude to the nearest cent, a tie
    going to the larger magnitude, and keeps the sign; it returns that
    value at exponent -2 when its coefficient fits the 28 digits of the
    context, and raises InvalidOperation when it does not. So 0.005 gives
    0.01 and -0.005 gives -0.01. *)
Theorem as_money_round_half_up : forall s c e,
  let h := half_up_cents c e in
  let num := (c * pow10 (e + 2))%N in
  let den := pow10 (-2 - e) in
  (2 * h * den <= 2 * num + den < 2 * (h + 1) * den)%N /\
  as_money (Finite s c e)
  = (if (h <? pow10 prec)%N then Ok (Finite s h (-2))
     else Raise InvalidOperation) /\
  as_money (Finite false 5 (-3)) = Ok (Finite false 1 (-2)) /\
  as_money (Finite true 5 (-3)) = Ok (Finite true 1 (-2)).
Proof.
  intros s c e. cbv zeta. split; [apply half_up_cents_nearest|].
  split; [apply as_money_finite|]. split; reflexivity.
Qed.

(** C4, as written, fails on the finite value 1E+26: two places would take
    29 digits. *)
Lemma as_money_raises_on_1E26 :
  is_finite (Finite false 1 26) = true /\
  as_money (Finite false 1 26) = Raise InvalidOperation.
Proof. split; reflexivity. Qed.




(** The sum that computes each term when it reaches it returns what the
    sum of the terms computed beforehand returns. *)
Lemma sum_of_mapM : forall (f : Item.t -> result Decimal) l a r,
  foldM (fun acc i => x <- f i ;; dec_add acc x) l a = Ok r <->
  exists ms, mapM f l = Ok ms /\ foldM dec_add ms a = Ok r.
Proof.
  intros f l. induction l as [|i l IH]; intros a r; simpl.
  - split.
    + intros H. exists []. now split.
    + intros (ms & E & H). now injection E as <-.
  - rewrite bind_ok. split.
    + intros (a' & Ha & H). inv_bind Ha. apply IH in H as (ms & Em & H).
      exists (a0 :: ms). rewrite E, Em. simpl. split; [reflexivity|].
      now rewrite Ha.
    + intros (ms & Em & H). inv_bind Em. inv_bind Em. injection Em as <-.
      simpl in H. inv_bind H. exists a2. rewrite E. simpl.
      split; [assumption|]. apply IH. now exists a1.
Qed.

Lemma Invoice_sum_ok : forall (f : Item.t -> result Decimal) l r,
  (s <- Invoice.sum_of f l ;; as_money s) = Ok r <->
  exists ms s, mapM f l = Ok ms /\ dec_sum ms = Ok s /\ as_money s = Ok r.
Proof.
  intros f l r. rewrite bind_ok. unfold Invoice.sum_of, dec_sum. split.
  - intros (s & Hs & H). apply sum_of_mapM in Hs as (ms & Em & Hs).
    now exists ms, s.
  - intros (ms & s & Em & Hs & H). exists s. split; [|assumption].
    apply sum_of_mapM. now exists ms.
Qed.



(** ** Dates and their text *)

Lemma chars_text : forall l, chars (text l) = l.
Proof. exact list_ascii_of_string_of_list_ascii. Qed.

Lemma text_chars : forall s, text (chars s) = s.
Proof. exact string_of_list_ascii_of_string. Qed.

Lemma N_of_digits_zeros : forall k acc,
  N_of_digits acc (repeat "0"%char k) = (acc * 10 ^ N.of_nat k)%N.
Proof.
  induction k as [|k IH]; intros acc.
  - simpl. lia.
  - cbn [repeat N_of_digits]. rewrite IH, Nat2N.inj_succ, N.pow_succ_r'.
    change (digit_val "0"%char) with 0%N. lia.
Qed.

Lemma digits_length_le : forall n w,
  (n < 10 ^ N.of_nat w)%N -> (1 <= w)%nat ->
  (List.length (digits_of_N n) <= w)%nat.
Proof.
  intros n w Hn Hw. destruct (N.eq_dec n 0) as [-> | Hnz].
  - exact Hw.
  - assert (H : ndigits n <= Z.of_nat w).
    { apply ndigits_le_iff; [assumption|lia|].
      unfold pow10. now rewrite <- nat_N_Z, N2Z.id. }
    unfold ndigits in H. lia.
Qed.

Lemma zero_pad_spec : forall w n,
  (n < 10 ^ N.of_nat w)%N -> (1 <= w)%nat ->
  List.length (zero_pad w n) = w /\
  forallb is_digit (zero_pad w n) = true /\
  N_of_digits 0 (zero_pad w n) = n.
Proof.
  intros w n Hn Hw. unfold zero_pad.
  pose proof (digits_length_le n w Hn Hw) as Hl. repeat split.
  - rewrite length_app, repeat_length. lia.
  - rewrite forallb_app, digits_of_N_digits, andb_true_r.
    apply forallb_forall. intros a Ha. apply repeat_spec in Ha. now subst a.
  - rewrite N_of_digits_app, N_of_digits_zeros. apply N_of_digits_of_N.
Qed.

Lemma list_length2 : forall (A : Type) (l : list A),
  List.length l = 2%nat -> exists a b, l = [a; b].
Proof.
  intros A [|a [|b [|c l]]] H; try discriminate. now exists a, b.
Qed.

Lemma list_length4 : forall (A : Type) (l : list A),
  List.length l = 4%nat -> exists a b c d, l = [a; b; c; d].
Proof.
  intros A [|a [|b [|c [|d [|x l]]]]] H; try discriminate.
  now exists a, b, c, d.
Qed.

Lemma date_valid_bounds : forall d,
  date_valid d = true ->
  (year d < 10 ^ N.of_nat 4)%N /\ (month d < 10 ^ N.of_nat 2)%N
  /\ (day d < 10 ^ N.of_nat 2)%N.
Proof.
  intros [y m dd] H. unfold date_valid in H. cbn [year month day] in *.
  repeat (apply andb_true_iff in H as [H ?]).
  repeat match goal with
         | H : (_ <=? _)%N = true |- _ => apply N.leb_le in H
         end.
  assert (days_in_month y m <= 31)%N.
  { unfold days_in_month.
    destruct (m =? 2)%N; [destruct (is_leap y); lia|].
    destruct ((m =? 4) || (m =? 6) || (m =? 9) || (m =? 11))%N; lia. }
  change (10 ^ N.of_nat 4)%N with 10000%N.
  change (10 ^ N.of_nat 2)%N with 100%N. lia.
Qed.

(** A date that [isoformat] wrote, [fromisoformat] reads back. *)
Lemma fromisoformat_isoformat : forall d,
  date_valid d = true -> fromisoformat (isoformat d) = Ok d.
Proof.
  intros d Hv. destruct (date_valid_bounds d Hv) as (Hy & Hm & Hd).
  destruct (zero_pad_spec 4 (year d) Hy ltac:(lia)) as (Ly & Dy & Ny).
  destruct (zero_pad_spec 2 (month d) Hm ltac:(lia)) as (Lm & Dm & Nm).
  destruct (zero_pad_spec 2 (day d) Hd ltac:(lia)) as (Ld & Dd & Nd).
  unfold fromisoformat, isoformat. rewrite chars_text.
  destruct (list_length4 _ _ Ly) as (y1 & y2 & y3 & y4 & Ey).
  destruct (list_length2 _ _ Lm) as (m1 & m2 & Em).
  destruct (list_length2 _ _ Ld) as (d1 & d2 & Ed).
  rewrite Ey, Em, Ed in *. cbn [app].
  cbn [forallb] in Dy, Dm, Dd |- *.
  repeat (apply andb_true_iff in Dy as [? Dy]).
  repeat (apply andb_true_iff in Dm as [? Dm]).
  repeat (apply andb_true_iff in Dd as [? Dd]).
  repeat match goal with
         | H : is_digit _ = true |- _ => rewrite H; clear H
         end.
  cbn [andb Ascii.eqb Bool.eqb]. rewrite Ny, Nm, Nd.
  destruct d as [y m dd]. cbn [year month day] in *. now rewrite Hv.
Qed.

(** ** Constructors and documents *)

Lemma unknown_keyword : forall fields (kw : list (string * value)) k v,
  In (k, v) kw -> ~ In k fields ->
  forallb (fun kv => existsb (String.eqb (fst kv)) fields) kw = false.
Proof.
  intros fields kw k v Hin Hk.
  destruct (forallb _ kw) eqn:E; [exfalso|reflexivity].
  rewrite forallb_forall in E. specialize (E _ Hin). cbn [fst] in E.
  apply existsb_exists in E as (x & Hx & Ex).
  apply String.eqb_eq in Ex. now subst x.
Qed.

Lemma Company_of_kwargs_bad : forall kw,
  bad_kwargs Company.fields kw -> Company.of_kwargs kw = Raise TypeError.
Proof.
  intros kw [H | [H | (k & v & Hin & Hk)]]; unfold Company.of_kwargs.
  - rewrite H. now destruct (forallb _ kw).
  - rewrite H. destruct (forallb _ kw); [|reflexivity].
    now destruct (dict_get "name" kw).
  - now rewrite (unknown_keyword _ _ _ _ Hin Hk).
Qed.

Lemma Customer_of_kwargs_bad : forall kw,
  bad_kwargs Customer.fields kw -> Customer.of_kwargs kw = Raise TypeError.
Proof.
  intros kw [H | [H | (k & v & Hin & Hk)]]; unfold Customer.of_kwargs.
  - rewrite H. now destruct (forallb _ kw).
  - rewrite H. destruct (forallb _ kw); [|reflexivity].
    now destruct (dict_get "name" kw).
  - now rewrite (unknown_keyword _ _ _ _ Hin Hk).
Qed.

Lemma decode_company_not_dict : forall d v,
  dict_get "company" d = Some v -> is_dict v = false ->
  Invoice.decode_company d = Raise AttributeError.
Proof.
  intros d v H Hv. unfold Invoice.decode_company, get_default. rewrite H.
  destruct v; try discriminate; reflexivity.
Qed.

Lemma decode_customer_not_dict : forall d v,
  dict_get "customer" d = Some v -> is_dict v = false ->
  Invoice.decode_customer d = Raise AttributeError.
Proof.
  intros d v H Hv. unfold Invoice.decode_customer, get_default. rewrite H.
  destruct v; try discriminate; reflexivity.
Qed.

(** C10. A document whose company is a dict that lacks [name] or
    [address] or has a key that is no field makes [from_dict] raise
    TypeError; one whose company is present and no dict makes it raise
    AttributeError. The same holds of the customer once the company has
    been read; whatever the company, [from_dict] raises. *)
Theorem present_but_malformed_raises : forall today d,
  (forall kw,
     dict_get "company" d = Some (VDict kw) ->
     bad_kwargs Company.fields kw ->
     Invoice.from_dict today (VDict d) = Raise TypeError) /\
  (forall v,
     dict_get "company" d = Some v -> is_dict v = false ->
     Invoice.from_dict today (VDict d) = Raise AttributeError) /\
  (forall kw,
     dict_get "customer" d = Some (VDict kw) ->
     bad_kwargs Customer.fields kw ->
     (exists e, Invoice.from_dict today (VDict d) = Raise e) /\
     (forall co, Invoice.decode_company d = Ok co ->
                 Invoice.from_dict today (VDict d) = Raise TypeError)) /\
  (forall v,
     dict_get "customer" d = Some v -> is_dict v = false ->
     (exists e, Invoice.from_dict today (VDict d) = Raise e) /\
     (forall co, Invoice.decode_company d = Ok co ->
                 Invoice.from_dict today (VDict d) = Raise AttributeError)).
Proof.
  intros today d. repeat split.
  - intros kw H Hb. unfold Invoice.from_dict, Invoice.decode_company.
    rewrite H, (Company_of_kwargs_bad _ Hb). reflexivity.
  - intros v H Hv. unfold Invoice.from_dict.
    now rewrite (decode_company_not_dict _ _ H Hv).
  - unfold Invoice.from_dict.
    destruct (Invoice.decode_company d) as [co | e]; [|now exists e].
    exists TypeError. unfold Invoice.decode_customer.
    rewrite H, (Customer_of_kwargs_bad _ H0). reflexivity.
  - intros co Hco. unfold Invoice.from_dict. rewrite Hco.
    unfold Invoice.decode_customer.
    rewrite H, (Customer_of_kwargs_bad _ H0). reflexivity.
  - unfold Invoice.from_dict.
    destruct (Invoice.decode_company d) as [co | e]; [|now exists e].
    exists AttributeError.
    now rewrite (decode_customer_not_dict _ _ H H0).
  - intros co Hco. unfold Invoice.from_dict. rewrite Hco.
    now rewrite (decode_customer_not_dict _ _ H H0).
Qed.

Lemma present_but_malformed_raises_witness :
  Invoice.from_dict (Date 2025 10 19)
    (VDict [("company", VDict [("name", VStr "Acme")])])
  = Raise TypeError /\
  Invoice.from_dict (Date 2025 10 19) (VDict [("company", VStr "Acme")])
  = Raise AttributeError.
Proof.
  split.
  - apply (proj1 (present_but_malformed_raises (Date 2025 10 19)
                    [("company", VDict [("name", VStr "Acme")])])
             [("name", VStr "Acme")]).
    + reflexivity.
    + right. left. reflexivity.
  - apply (proj1 (proj2 (present_but_malformed_raises (Date 2025 10 19)
                           [("company", VStr "Acme")]))
             (VStr "Acme")); reflexivity.
Defined.

(** ** Missing keys *)

Lemma decode_company_missing : forall d,
  dict_get "company" d = None ->
  Invoice.decode_company d = Ok default_company.
Proof.
  intros d H. unfold Invoice.decode_company, get_default. now rewrite H.
Qed.

Lemma decode_customer_missing : forall d,
  dict_get "customer" d = None ->
  Invoice.decode_customer d = Ok default_customer.
Proof.
  intros d H. unfold Invoice.decode_customer, get_default. now rewrite H.
Qed.

(** C7. A document without a company reads as the same document with the
    company of empty texts written out, so the lack of the key fails
    nothing, and the invoice read has that company; the same for the
    customer. In the invoice read, a missing [items] is the empty list, a
    missing [due_date] is no date, a missing [currency] is EUR, and a
    missing [invoice_number], [notes] or [authorized_by] is the empty
    text. The document with no key at all reads as the invoice of all
    these defaults, dated today. *)
Theorem missing_keys_default : forall today d,
  (dict_get "company" d = None ->
   Invoice.from_dict today (VDict d)
   = Invoice.from_dict today
       (VDict (("company", Company.asdict default_company) :: d))) /\
  (dict_get "customer" d = None ->
   Invoice.from_dict today (VDict d)
   = Invoice.from_dict today
       (VDict (("customer", Customer.asdict default_customer) :: d))) /\
  (forall inv,
     Invoice.from_dict today (VDict d) = Ok inv ->
     (dict_get "company" d = None ->
      Invoice.company inv = default_company) /\
     (dict_get "customer" d = None ->
      Invoice.customer inv = default_customer) /\
     (dict_get "items" d = None -> Invoice.items inv = []) /\
     (dict_get "due_date" d = None -> Invoice.due_date inv = None) /\
     (dict_get "currency" d = None -> Invoice.currency inv = VStr "EUR") /\
     (dict_get "invoice_number" d = None ->
      Invoice.invoice_number inv = VStr "") /\
     (dict_get "notes" d = None -> Invoice.notes inv = VStr "") /\
     (dict_get "authorized_by" d = None ->
      Invoice.authorized_by inv = VStr "")) /\
  (date_valid today = true ->
   Invoice.from_dict today (VDict [])
   = Ok (Invoice.Make default_company default_customer [] (VStr "")
           today None (VStr "EUR") (VStr "") (VStr ""))).
Proof.
  intros today d. split; [|split; [|split]].
  - intros H. unfold Invoice.from_dict.
    rewrite (decode_company_missing _ H). reflexivity.
  - intros H. unfold Invoice.from_dict.
    replace (Invoice.decode_customer
               (("customer", Customer.asdict default_customer) :: d))
      with (Invoice.decode_customer d)
      by (now rewrite (decode_customer_missing _ H)).
    reflexivity.
  - intros inv H. unfold Invoice.from_dict in H.
    inv_bind H. inv_bind H. inv_bind H. inv_bind H. inv_bind H.
    injection H as <-. cbn. unfold get_default. repeat split; intros Hk.
    + rewrite (decode_company_missing _ Hk) in E. congruence.
    + rewrite (decode_customer_missing _ Hk) in E0. congruence.
    + unfold Invoice.decode_items, get_default in E1. rewrite Hk in E1.
      simpl in E1. congruence.
    + unfold Invoice.decode_due_date, get_default in E3. rewrite Hk in E3.
      simpl in E3. congruence.
    + now rewrite Hk.
    + now rewrite Hk.
    + now rewrite Hk.
    + now rewrite Hk.
  - intros Hv. unfold Invoice.from_dict, Invoice.decode_invoice_date.
    unfold get_default. cbn [dict_get fromisoformat_value].
    now rewrite (fromisoformat_isoformat _ Hv).
Qed.

Lemma missing_keys_default_witness :
  Invoice.from_dict (Date 2025 10 19) (VDict [("currency", VStr "USD")])
  = Invoice.from_dict (Date 2025 10 19)
      (VDict [("company", Company.asdict default_company);
              ("currency", VStr "USD")]).
Proof.
  apply (proj1 (missing_keys_default (Date 2025 10 19)
                  [("currency", VStr "USD")])).
  reflexivity.
Defined.

(** ** Text that does not convert *)

Lemma mapM_raise : forall (A B : Type) (f : A -> result B) l a e,
  In a l -> f a = Raise e -> exists e', mapM f l = Raise e'.
Proof.
  intros A B f l a e. induction l as [|b l IH]; intros Hin Hf; [easy|].
  simpl. destruct Hin as [-> | Hin].
  - rewrite Hf. now exists e.
  - destruct (f b) as [y | e1]; [|now exists e1]. simpl.
    destruct (IH Hin Hf) as (e' & ->). now exists e'.
Qed.

Lemma Item_from_value_raise : forall i k s e,
  In k ["quantity"; "unit_price"; "tax_rate"] ->
  dict_get k i = Some (VStr s) -> Decimal_of_str s = Raise e ->
  exists e', Item.from_value (VDict i) = Raise e'.
Proof.
  intros i k s e Hk Hg Hs. unfold Item.from_value.
  assert (Hv : Decimal_of_value (get_default k (VStr "0") i) = Raise e).
  { unfold get_default. now rewrite Hg. }
  destruct (Decimal_of_value (get_default "quantity" (VStr "0") i))
    as [q | e1] eqn:Eq; [|now exists e1].
  destruct (Decimal_of_value (get_default "unit_price" (VStr "0") i))
    as [u | e2] eqn:Eu; [|now exists e2].
  destruct (Decimal_of_value (get_default "tax_rate" (VStr "0") i))
    as [x | e3] eqn:Ex; [|now exists e3].
  cbn [In] in Hk. destruct Hk as [<- | [<- | [<- | []]]]; congruence.
Qed.

Lemma decode_failure : forall today d,
  (exists e, Invoice.decode_items d = Raise e)
  \/ (exists e, Invoice.decode_invoice_date today d = Raise e)
  \/ (exists e, Invoice.decode_due_date d = Raise e) ->
  exists e, Invoice.from_dict today (VDict d) = Raise e.
Proof.
  intros today d H. unfold Invoice.from_dict.
  destruct (Invoice.decode_company d) as [co | e]; [|now exists e].
  destruct (Invoice.decode_customer d) as [cu | e]; [|now exists e].
  destruct (Invoice.decode_items d) as [its | e]; [|now exists e].
  destruct (Invoice.decode_invoice_date today d) as [dt | e];
    [|now exists e].
  destruct (Invoice.decode_due_date d) as [due | e]; [|now exists e].
  destruct H as [(e & H) | [(e & H) | (e & H)]]; discriminate.
Qed.

(** C6 (amended). A document in which the invoice date is text that
    [date.fromisoformat] rejects, or the due date is such a text other
    than the empty one, or a quantity, unit price or tax rate of an item
    is text that [Decimal] rejects, makes [from_dict] raise, and with it
    the load: no invoice is returned. *)
Theorem malformed_text_is_fatal : forall today d,
  malformed d ->
  exists e, Invoice.from_dict today (VDict d) = Raise e
            /\ load_invoice_json today (Ok (VDict d)) = Raise e.
Proof.
  intros today d H.
  enough (exists e, Invoice.from_dict today (VDict d) = Raise e)
    as (e & He) by (now exists e).
  apply decode_failure.
  destruct H as [s e Hg Hs | s e Hg Hne Hs | l i k s e Hg Hin Hk Hi Hs].
  - right. left. exists e. unfold Invoice.decode_invoice_date, get_default.
    now rewrite Hg.
  - right. right. exists e. unfold Invoice.decode_due_date, get_default.
    rewrite Hg. cbn [truthy fromisoformat_value].
    apply String.eqb_neq in Hne. rewrite Hne, Hs. reflexivity.
  - left. unfold Invoice.decode_items, get_default. rewrite Hg.
    cbn [iterate bind].
    destruct (Item_from_value_raise _ _ _ _ Hk Hi Hs) as (e1 & H1).
    exact (mapM_raise _ _ _ _ _ _ Hin H1).
Qed.

Lemma malformed_text_is_fatal_witness :
  exists e,
    Invoice.from_dict (Date 2025 10 19)
      (VDict [("invoice_date", VStr "19/10/2025")]) = Raise e
    /\ load_invoice_json (Date 2025 10 19)
         (Ok (VDict [("invoice_date", VStr "19/10/2025")])) = Raise e.
Proof.
  apply (malformed_text_is_fatal (Date 2025 10 19)
           [("invoice_date", VStr "19/10/2025")]).
  apply (malformed_invoice_date _ "19/10/2025" ValueError); reflexivity.
Defined.

(** C6, as written, fails on the document whose due date is the empty
    text: the text is no date, and the invoice is read without a due
    date. *)
Lemma empty_due_date_is_dropped :
  fromisoformat "" = Raise ValueError /\
  Invoice.from_dict (Date 2025 10 19) (VDict [("due_date", VStr "")])
  = Ok (Invoice.Make default_company default_customer [] (VStr "")
          (Date 2025 10 19) None (VStr "EUR") (VStr "") (VStr "")).
Proof. split; reflexivity. Qed.

(** ** The lenient parser *)

Lemma Decimal_of_chars_raise : forall l e,
  Decimal_of_chars l = Raise e -> e = InvalidOperation.
Proof.
  intros l e H. unfold Decimal_of_chars in H.
  destruct (parse_sign _) as [s r].
  destruct (parse_number s r); [discriminate|].
  destruct (parse_special s r); [discriminate|]. congruence.
Qed.

(** C5. With a default that is a numeral, [parse_decimal] returns a
    decimal whatever its argument: for a text, the value of the text
    stripped and with periods for commas if that is a numeral and the
    default if not; for anything that is no text, the default. The empty
    text gives the default, [12,34] gives 12.34, and [oops] with default
    [1] gives 1. *)
Theorem parse_decimal_never_raises : forall v default d0,
  Decimal_of_str default = Ok d0 ->
  (exists d, parse_decimal v default = Ok d) /\
  (forall s,
     v = VStr s ->
     parse_decimal v default
     = match Decimal_of_chars
               (replace_char ","%char "."%char (strip (chars s))) with
       | Ok d => Ok d
       | Raise _ => Ok d0
       end) /\
  ((forall s, v <> VStr s) -> parse_decimal v default = Ok d0) /\
  parse_decimal (VStr "") default = Ok d0 /\
  parse_decimal (VStr "12,34") "0" = Ok (Finite false 1234 (-2)) /\
  parse_decimal (VStr "oops") "1" = Ok (Finite false 1 0).
Proof.
  intros v default d0 Hd.
  assert (Hs : forall s,
             parse_decimal (VStr s) default
             = match Decimal_of_chars
                       (replace_char ","%char "."%char (strip (chars s)))
               with
               | Ok d => Ok d
               | Raise _ => Ok d0
               end).
  { intros s. unfold parse_decimal.
    destruct (Decimal_of_chars _) as [d | e] eqn:E; [reflexivity|].
    apply Decimal_of_chars_raise in E. now subst e. }
  repeat split.
  - destruct v as [| b | z | s | l | d]; try (now exists d0).
    rewrite Hs. destruct (Decimal_of_chars _) as [d | e];
      [now exists d|now exists d0].
  - intros s ->. apply Hs.
  - intros Hn. destruct v; try assumption. now elim (Hn s).
  - rewrite Hs. reflexivity.
Qed.

Lemma parse_decimal_never_raises_witness :
  exists d, parse_decimal (VStr " 1,5 kg") "0" = Ok d.
Proof.
  apply (proj1 (parse_decimal_never_raises (VStr " 1,5 kg") "0"
                  (Finite false 0 0) eq_refl)).
Defined.

(** ** The display of an amount *)

Lemma replace_thrice : forall l,
  replace_char "_"%char "."%char
    (replace_char "."%char ","%char (replace_char ","%char "_"%char l))
  = map swap_marks l.
Proof.
  intros l. unfold replace_char. rewrite !map_map. apply map_ext.
  intros a. unfold swap_marks.
  destruct (Ascii.eqb_spec a ","%char) as [-> | H1]; [reflexivity|].
  destruct (Ascii.eqb_spec a "."%char) as [-> | H2]; [reflexivity|].
  destruct (Ascii.eqb_spec a "_"%char) as [-> | H3]; reflexivity.
Qed.

Lemma swap_marks_no_mark : forall l, no_mark l = true -> map swap_marks l = l.
Proof.
  induction l as [|a l IH]; intros H; [reflexivity|].
  cbn [no_mark forallb] in H. apply andb_true_iff in H as [Ha Hl].
  cbn [map]. rewrite (IH Hl). f_equal.
  unfold is_mark in Ha. unfold swap_marks.
  destruct (Ascii.eqb a ","%char); [discriminate|].
  destruct (Ascii.eqb a "."%char); [discriminate|].
  destruct (Ascii.eqb a "_"%char); [discriminate|reflexivity].
Qed.

Lemma is_digit_no_mark : forall a, is_digit a = true -> is_mark a = false.
Proof.
  intros a H. unfold is_mark.
  destruct (Ascii.eqb_spec a ","%char) as [-> | _]; [discriminate|].
  destruct (Ascii.eqb_spec a "."%char) as [-> | _]; [discriminate|].
  destruct (Ascii.eqb_spec a "_"%char) as [-> | _]; [discriminate|].
  reflexivity.
Qed.

Lemma digits_no_mark : forall l, forallb is_digit l = true -> no_mark l = true.
Proof.
  intros l H. unfold no_mark. rewrite forallb_forall in *.
  intros a Ha. now rewrite is_digit_no_mark by (now apply H).
Qed.

Lemma no_mark_rev : forall l, no_mark (rev l) = no_mark l.
Proof.
  intros l. unfold no_mark. induction l as [|a l IH]; [reflexivity|].
  cbn [rev forallb]. rewrite forallb_app, IH. cbn [forallb].
  rewrite andb_true_r. apply andb_comm.
Qed.

Lemma swap_marks_insert_sep : forall sep l k,
  no_mark l = true ->
  map swap_marks (insert_sep_rev sep l k)
  = insert_sep_rev (swap_marks sep) l k.
Proof.
  intros sep l. induction l as [|a l IH]; intros k H; [reflexivity|].
  pose proof (swap_marks_no_mark [a]) as Ha.
  cbn [no_mark forallb] in H, Ha. apply andb_true_iff in H as [H1 H2].
  rewrite H1 in Ha. specialize (Ha eq_refl). injection Ha as Ha.
  destruct k as [|k]; cbn [insert_sep_rev map]; rewrite Ha, IH;
    try reflexivity; assumption.
Qed.

Lemma swap_marks_thousands : forall l,
  forallb is_digit l = true ->
  map swap_marks (thousands ","%char l) = thousands "."%char l.
Proof.
  intros l H. unfold thousands. rewrite map_rev. f_equal.
  apply swap_marks_insert_sep. rewrite no_mark_rev. now apply digits_no_mark.
Qed.

(** C8 (amended). For a finite amount and a currency text without comma,
    period or underscore, [format_currency] writes the sign, the whole
    units of the amount rescaled to two places in groups of three with
    periods between them, a comma, the two digits of the cents, a space
    and the currency; 1234.50 in EUR reads [1.234,50 EUR]. *)
Theorem format_currency_finite : forall s c e currency,
  no_mark (chars currency) = true ->
  exists c1,
    rescale context_rounding s c e (-2) = Finite s c1 (-2) /\
    List.length (zero_pad 2 (c1 mod 100)) = 2%nat /\
    format_currency (Finite s c e) currency
    = text (sign_chars s ++ thousands "."%char (digits_of_N (c1 / 100))
            ++ ","%char :: zero_pad 2 (c1 mod 100)
            ++ " "%char :: chars currency) /\
    format_currency (Finite false 123450 (-2)) "EUR" = "1.234,50 EUR".
Proof.
  intros s c e currency Hc.
  destruct (rescale_finite context_rounding s c e (-2)) as (c1 & E).
  exists c1. split; [assumption|].
  assert (Hm : (c1 mod 100 < 10 ^ N.of_nat 2)%N).
  { change (10 ^ N.of_nat 2)%N with 100%N. apply N.mod_upper_bound. lia. }
  destruct (zero_pad_spec 2 (c1 mod 100) Hm ltac:(lia)) as (Hl & Hd & _).
  split; [assumption|]. split; [|reflexivity].
  unfold format_currency, format_2f. rewrite E, replace_thrice. f_equal.
  rewrite <- !app_assoc, <- app_comm_cons.
  repeat (rewrite map_app || rewrite map_cons).
  rewrite swap_marks_thousands by apply digits_of_N_digits.
  rewrite (swap_marks_no_mark (zero_pad 2 _)) by (now apply digits_no_mark).
  rewrite (swap_marks_no_mark (chars currency)) by assumption.
  now destruct s.
Qed.

Lemma format_currency_finite_witness :
  exists c1,
    rescale context_rounding true 5 (-1) (-2) = Finite true c1 (-2) /\
    List.length (zero_pad 2 (c1 mod 100)) = 2%nat /\
    format_currency (Finite true 5 (-1)) "USD"
    = text (sign_chars true ++ thousands "."%char (digits_of_N (c1 / 100))
            ++ ","%char :: zero_pad 2 (c1 mod 100)
            ++ " "%char :: chars "USD") /\
    format_currency (Finite false 123450 (-2)) "EUR" = "1.234,50 EUR".
Proof.
  apply (format_currency_finite true 5 (-1) "USD"). reflexivity.
Defined.

(** C8, as written, fails on a currency text with a period in it, which
    comes out with a comma, and on an amount that is a NaN, which comes
    out without a digit. *)
Lemma format_currency_rewrites_currency :
  format_currency (Finite false 123450 (-2)) "Fr." = "1.234,50 Fr," /\
  format_currency (NaN false 0) "EUR" = "NaN EUR".
Proof. split; reflexivity. Qed.

(** ** The text of a decimal and its reading *)

Lemma plain_app : forall l1 l2, plain (l1 ++ l2) = plain l1 && plain l2.
Proof. intros l1 l2. apply forallb_app. Qed.

Lemma is_digit_plain : forall a,
  is_digit a = true -> negb (is_space a) && negb (Ascii.eqb a "_"%char) = true.
Proof.
  intros a H.
  destruct (Ascii.eqb_spec a "_"%char) as [-> | _]; [discriminate|].
  rewrite andb_true_r. unfold is_digit in H. unfold is_space.
  apply andb_true_iff in H as [H1 H2].
  apply N.leb_le in H1. apply N.leb_le in H2.
  destruct (N.leb_spec 9 (N_of_ascii a)), (N.leb_spec (N_of_ascii a) 13),
    (N.leb_spec 28 (N_of_ascii a)), (N.leb_spec (N_of_ascii a) 32);
    try reflexivity; lia.
Qed.

Lemma digits_plain : forall l, forallb is_digit l = true -> plain l = true.
Proof.
  intros l H. unfold plain. rewrite forallb_forall in *.
  intros a Ha. apply is_digit_plain. now apply H.
Qed.

Lemma lstrip_plain : forall l, plain l = true -> lstrip l = l.
Proof.
  intros [|a l] H; [reflexivity|]. cbn [plain forallb] in H.
  apply andb_true_iff in H as [H _]. apply andb_true_iff in H as [H _].
  cbn [lstrip]. now destruct (is_space a).
Qed.

Lemma plain_rev : forall l, plain (rev l) = plain l.
Proof.
  intros l. unfold plain. induction l as [|a l IH]; [reflexivity|].
  cbn [rev forallb]. rewrite forallb_app, IH. cbn [forallb].
  rewrite andb_true_r. apply andb_comm.
Qed.

Lemma strip_plain : forall l, plain l = true -> strip l = l.
Proof.
  intros l H. unfold strip. rewrite (lstrip_plain l H).
  rewrite lstrip_plain by (now rewrite plain_rev). apply rev_involutive.
Qed.

Lemma remove_underscore_plain : forall l,
  plain l = true -> remove_char "_"%char l = l.
Proof.
  induction l as [|a l IH]; intros H; [reflexivity|].
  cbn [plain forallb] in H. apply andb_true_iff in H as [H Hl].
  apply andb_true_iff in H as [_ H]. cbn [remove_char filter].
  rewrite H. f_equal. now apply IH.
Qed.

Lemma span_digits_app : forall ds rest,
  forallb is_digit ds = true -> no_digit_ahead rest = true ->
  span_digits (ds ++ rest) = (ds, rest).
Proof.
  induction ds as [|a ds IH]; intros rest Hd Hr.
  - destruct rest as [|b rest]; [reflexivity|]. cbn [app span_digits].
    cbn [no_digit_ahead] in Hr. now destruct (is_digit b).
  - cbn [forallb] in Hd. apply andb_true_iff in Hd as [Ha Hd].
    cbn [app span_digits]. now rewrite Ha, IH.
Qed.

Lemma digits_of_N_nonempty : forall n, digits_of_N n <> [].
Proof.
  intros n E. pose proof (digits_of_N_length n) as (_ & _ & H).
  rewrite E in H. simpl in H. lia.
Qed.

Lemma parse_exponent_signed_digits : forall x,
  parse_exponent (signed_digits x) = Some x.
Proof.
  intros x. unfold parse_exponent, signed_digits.
  assert (Hs : span_digits (digits_of_N (Z.abs_N x))
               = (digits_of_N (Z.abs_N x), [])).
  { rewrite <- (app_nil_r (digits_of_N _)) at 1.
    apply span_digits_app; [apply digits_of_N_digits|reflexivity]. }
  destruct (Z.ltb_spec x 0) as [Hx | Hx]; cbn [parse_sign]; rewrite Hs;
    (destruct (digits_of_N (Z.abs_N x)) as [|a ds] eqn:E;
     [now elim (digits_of_N_nonempty (Z.abs_N x))|]);
    rewrite <- E, N_of_digits_of_N; f_equal; lia.
Qed.

(** [parse_number] on a numeral laid out as digits, a fraction and an
    exponent. *)
Lemma parse_number_layout : forall s ip frac ox,
  forallb is_digit ip = true -> forallb is_digit (frac_digits frac) = true ->
  ip <> [] ->
  parse_number s (ip ++ frac_chars frac ++ exp_chars ox)
  = Some (Finite s (N_of_digits 0 (ip ++ frac_digits frac))
            (exp_value ox - Z.of_nat (List.length (frac_digits frac)))).
Proof.
  intros s ip frac ox Hi Hf Hne. unfold parse_number.
  assert (He : no_digit_ahead (exp_chars ox) = true) by (now destruct ox).
  rewrite span_digits_app;
    [|assumption|destruct frac; [reflexivity|exact He]].
  assert (Hr : (let '(fp, r2) :=
                  match frac_chars frac ++ exp_chars ox with
                  | "."%char :: r => span_digits r
                  | _ => ([], frac_chars frac ++ exp_chars ox)
                  end in (fp, r2))
               = (frac_digits frac, exp_chars ox)).
  { destruct frac as [fp|]; cbn [frac_chars frac_digits app].
    - cbn [frac_digits] in Hf. now rewrite span_digits_app.
    - now destruct ox. }
  destruct (match frac_chars frac ++ exp_chars ox with
            | "."%char :: r => span_digits r
            | _ => ([], frac_chars frac ++ exp_chars ox)
            end) as [fp r2].
  injection Hr as -> ->.
  destruct ip as [|a ip]; [now elim Hne|]. cbn [app].
  destruct ox as [x|]; cbn [exp_chars exp_value].
  - change (Ascii.eqb (lower "E"%char) "e"%char) with true. cbv iota.
    rewrite parse_exponent_signed_digits. reflexivity.
  - do 2 f_equal.
Qed.

Lemma forallb_firstn_skipn : forall (A : Type) (f : A -> bool) n l,
  forallb f l = true ->
  forallb f (firstn n l) = true /\ forallb f (skipn n l) = true.
Proof.
  intros A f n l H. rewrite <- (firstn_skipn n l), forallb_app in H.
  now apply andb_true_iff in H.
Qed.

Lemma forallb_repeat : forall (A : Type) (f : A -> bool) a n,
  f a = true -> forallb f (repeat a n) = true.
Proof.
  intros A f a n H. apply forallb_forall. intros b Hb.
  apply repeat_spec in Hb. now subst b.
Qed.

(** What [str] writes for a finite decimal: digits, a fraction if there
    are digits after the point, an exponent in scientific notation. *)
Lemma Decimal_chars_layout : forall s c e,
  exists ip frac ox,
    Decimal_chars (Finite s c e)
    = sign_chars s ++ ip ++ frac_chars frac ++ exp_chars ox
    /\ forallb is_digit ip = true
    /\ forallb is_digit (frac_digits frac) = true
    /\ ip <> []
    /\ N_of_digits 0 (ip ++ frac_digits frac) = c
    /\ exp_value ox - Z.of_nat (List.length (frac_digits frac)) = e.
Proof.
  intros s c e. unfold Decimal_chars.
  pose proof (digits_of_N_digits c) as Hd.
  pose proof (N_of_digits_of_N c) as Hn.
  pose proof (digits_of_N_nonempty c) as Hne.
  assert (Hl : 1 <= Z.of_nat (List.length (digits_of_N c))).
  { pose proof (digits_of_N_length c). lia. }
  generalize dependent (digits_of_N c). intros int Hd Hn Hne Hl.
  set (len := Z.of_nat (List.length int)) in *.
  set (leftdigits := e + len).
  set (dotplace := if (e <=? 0) && (-6 <? leftdigits) then leftdigits else 1).
  assert (Hdp : dotplace <= len).
  { unfold dotplace, leftdigits.
    destruct (Z.leb_spec e 0); cbn [andb]; [|lia].
    destruct (-6 <? e + len); lia. }
  set (ox := if leftdigits =? dotplace then None
             else Some (leftdigits - dotplace)).
  assert (Hox : (if leftdigits =? dotplace then []
                 else "E"%char :: signed_digits (leftdigits - dotplace))
                = exp_chars ox).
  { unfold ox. now destruct (leftdigits =? dotplace). }
  assert (Hxv : exp_value ox = leftdigits - dotplace).
  { unfold ox. destruct (Z.eqb_spec leftdigits dotplace); cbn; lia. }
  rewrite Hox. clearbody ox. clear Hox.
  destruct (Z.leb_spec dotplace 0) as [H0 | H0].
  - exists ["0"%char], (Some (repeat "0"%char (Z.to_nat (- dotplace)) ++ int)),
      ox.
    cbn [frac_chars frac_digits]. repeat split.
    + rewrite forallb_app, Hd, andb_true_r. now apply forallb_repeat.
    + discriminate.
    + cbn [app N_of_digits]. rewrite N_of_digits_app, N_of_digits_zeros.
      exact Hn.
    + rewrite length_app, repeat_length, Hxv. unfold leftdigits. lia.
  - destruct (Z.leb_spec len dotplace) as [H1 | H1].
    + exists (int ++ repeat "0"%char (Z.to_nat (dotplace - len))), None, ox.
      replace (Z.to_nat (dotplace - len)) with 0%nat by lia.
      cbn [repeat frac_chars frac_digits]. rewrite !app_nil_r.
      repeat split; try assumption.
      rewrite Hxv. unfold leftdigits. cbn. lia.
    + exists (firstn (Z.to_nat dotplace) int),
        (Some (skipn (Z.to_nat dotplace) int)), ox.
      cbn [frac_chars frac_digits]. repeat split.
      * now apply forallb_firstn_skipn.
      * now apply forallb_firstn_skipn.
      * destruct int as [|a int]; [now elim Hne|].
        destruct (Z.to_nat dotplace) eqn:E; [lia|discriminate].
      * now rewrite firstn_skipn.
      * rewrite length_skipn, Hxv. unfold leftdigits. fold len. lia.
Qed.

Lemma parse_sign_sign_chars : forall s r,
  match r with
  | a :: _ => negb (Ascii.eqb a "-"%char) && negb (Ascii.eqb a "+"%char)
  | [] => true
  end = true ->
  parse_sign (sign_chars s ++ r) = (s, r).
Proof.
  intros [|] r H; [reflexivity|]. cbn [sign_chars app].
  destruct r as [|a r]; [reflexivity|]. unfold parse_sign.
  destruct a as [[] [] [] [] [] [] [] []]; try reflexivity;
    vm_compute in H; discriminate.
Qed.

Lemma sign_chars_plain : forall s, plain (sign_chars s) = true.
Proof. now intros [|]. Qed.

Lemma signed_digits_plain : forall x, plain (signed_digits x) = true.
Proof.
  intros x. unfold signed_digits. cbn [plain forallb].
  fold (plain (digits_of_N (Z.abs_N x))).
  rewrite digits_plain by apply digits_of_N_digits. now destruct (x <? 0).
Qed.

Lemma payload_digits_spec : forall p,
  forallb is_digit (payload_digits p) = true
  /\ N_of_digits 0 (payload_digits p) = p.
Proof.
  intros p. unfold payload_digits. destruct (N.eqb_spec p 0) as [-> | H].
  - now split.
  - split; [apply digits_of_N_digits|apply N_of_digits_of_N].
Qed.

Lemma lower_digit : forall a, is_digit a = true -> lower a = a.
Proof.
  intros a H. unfold is_digit in H. apply andb_true_iff in H as [_ H].
  apply N.leb_le in H. unfold lower.
  destruct (N.leb_spec 65 (N_of_ascii a)); [lia|reflexivity].
Qed.

Lemma map_lower_digits : forall l,
  forallb is_digit l = true -> map lower l = l.
Proof.
  induction l as [|a l IH]; intros H; [reflexivity|].
  cbn [forallb] in H. apply andb_true_iff in H as [Ha Hl].
  cbn [map]. now rewrite lower_digit, IH.
Qed.

(** A decimal is the value of its own text. *)
Lemma Decimal_of_chars_Decimal_chars : forall d,
  Decimal_of_chars (Decimal_chars d) = Ok d.
Proof.
  intros d. unfold Decimal_of_chars. destruct d as [s c e | s | s p | s p].
  - destruct (Decimal_chars_layout s c e)
      as (ip & frac & ox & E & Hi & Hf & Hne & Hc & He).
    rewrite E.
    assert (Hp : plain (sign_chars s ++ ip ++ frac_chars frac ++ exp_chars ox)
                 = true).
    { rewrite !plain_app, sign_chars_plain, (digits_plain ip Hi).
      cbn [andb]. apply andb_true_iff. split.
      - destruct frac as [fp|]; [|reflexivity]. cbn [frac_chars].
        cbn [frac_digits] in Hf. cbn [plain forallb].
        fold (plain fp). now rewrite (digits_plain fp Hf).
      - destruct ox as [x|]; [|reflexivity]. cbn [exp_chars].
        cbn [plain forallb]. fold (plain (signed_digits x)).
        now rewrite signed_digits_plain. }
    rewrite (strip_plain _ Hp), (remove_underscore_plain _ Hp).
    rewrite parse_sign_sign_chars.
    + rewrite parse_number_layout by assumption. now rewrite Hc, He.
    + destruct ip as [|a ip]; [now elim Hne|]. cbn [app].
      cbn [forallb] in Hi. apply andb_true_iff in Hi as [Ha _].
      destruct (Ascii.eqb_spec a "-"%char) as [-> | _]; [discriminate|].
      destruct (Ascii.eqb_spec a "+"%char) as [-> | _]; [discriminate|].
      reflexivity.
  - unfold Decimal_chars.
    assert (Hp : plain (sign_chars s ++ chars "Infinity") = true)
      by (now destruct s).
    rewrite (strip_plain _ Hp), (remove_underscore_plain _ Hp).
    now rewrite parse_sign_sign_chars.
  - unfold Decimal_chars.
    destruct (payload_digits_spec p) as [Hd Hn].
    assert (Hp : plain (sign_chars s ++ chars "NaN" ++ payload_digits p)
                 = true).
    { rewrite !plain_app, sign_chars_plain, (digits_plain _ Hd).
      reflexivity. }
    rewrite (strip_plain _ Hp), (remove_underscore_plain _ Hp).
    rewrite parse_sign_sign_chars by reflexivity.
    cbn [chars list_ascii_of_string app]. unfold parse_number.
    cbn [span_digits]. change (is_digit "N"%char) with false. cbv iota.
    cbn [app]. unfold parse_special. cbn [map].
    rewrite (map_lower_digits _ Hd).
    change (lower "N"%char) with "n"%char.
    change (lower "a"%char) with "a"%char.
    cbn [chars list_ascii_of_string chars_eqb Ascii.eqb Bool.eqb andb orb].
    now rewrite Hd, Hn.
  - unfold Decimal_chars.
    destruct (payload_digits_spec p) as [Hd Hn].
    assert (Hp : plain (sign_chars s ++ chars "sNaN" ++ payload_digits p)
                 = true).
    { rewrite !plain_app, sign_chars_plain, (digits_plain _ Hd).
      reflexivity. }
    rewrite (strip_plain _ Hp), (remove_underscore_plain _ Hp).
    rewrite parse_sign_sign_chars by reflexivity.
    cbn [chars list_ascii_of_string app]. unfold parse_number.
    cbn [span_digits]. change (is_digit "s"%char) with false. cbv iota.
    cbn [app]. unfold parse_special. cbn [map].
    rewrite (map_lower_digits _ Hd).
    change (lower "N"%char) with "n"%char.
    change (lower "a"%char) with "a"%char.
    change (lower "s"%char) with "s"%char.
    cbn [chars list_ascii_of_string chars_eqb Ascii.eqb Bool.eqb andb orb].
    now rewrite Hd, Hn.
Qed.

Lemma Decimal_of_str_Decimal_str : forall d,
  Decimal_of_str (Decimal_str d) = Ok d.
Proof.
  intros d. unfold Decimal_of_str, Decimal_str. rewrite chars_text.
  apply Decimal_of_chars_Decimal_chars.
Qed.

(** ** The document of an invoice, read back *)

Lemma Item_from_value_to_dict : forall it,
  Item.from_value (Item.to_dict it) = Ok it.
Proof.
  intros [desc q u x]. unfold Item.from_value, Item.to_dict, get_default.
  cbn [dict_get String.eqb Ascii.eqb Bool.eqb Item.description
       Item.quantity Item.unit_price Item.tax_rate].
  unfold Decimal_of_value. cbn [py_str].
  now rewrite !Decimal_of_str_Decimal_str.
Qed.

Lemma mapM_from_value_to_dict : forall l,
  mapM Item.from_value (map Item.to_dict l) = Ok l.
Proof.
  induction l as [|it l IH]; [reflexivity|].
  cbn [map mapM]. now rewrite Item_from_value_to_dict, IH.
Qed.

Lemma isoformat_not_empty : forall d, String.eqb (isoformat d) "" = false.
Proof.
  intros d. unfold isoformat.
  destruct (zero_pad 4 (year d)) as [|a l]; reflexivity.
Qed.

Lemma from_dict_to_dict : forall today x,
  Invoice.dates_valid x = true ->
  Invoice.from_dict today (Invoice.to_dict x) = Ok x.
Proof.
  intros today [[n a g e p] [n' a' e' p'] its num dt due cur notes auth] Hv.
  unfold Invoice.dates_valid in Hv.
  cbn [Invoice.invoice_date Invoice.due_date] in Hv.
  apply andb_true_iff in Hv as [Hdt Hdue].
  unfold Invoice.from_dict, Invoice.to_dict.
  cbn [Invoice.company Invoice.customer Invoice.items
       Invoice.invoice_number Invoice.invoice_date Invoice.due_date
       Invoice.currency Invoice.notes Invoice.authorized_by].
  replace (Invoice.decode_company _)
    with (Ok (Company.Make n a g e p)) by reflexivity.
  replace (Invoice.decode_customer _)
    with (Ok (Customer.Make n' a' e' p')) by reflexivity.
  cbn [bind]. unfold Invoice.decode_items, Invoice.decode_invoice_date,
    Invoice.decode_due_date, get_default.
  cbn [dict_get String.eqb Ascii.eqb Bool.eqb iterate bind
       fromisoformat_value].
  rewrite mapM_from_value_to_dict, (fromisoformat_isoformat _ Hdt).
  cbn [bind]. destruct due as [d|]; cbn [truthy bind].
  - rewrite isoformat_not_empty. cbn [negb fromisoformat_value].
    now rewrite (fromisoformat_isoformat _ Hdue).
  - reflexivity.
Qed.

(** ** Equality of invoices *)

Lemma py_eq_text : forall v, is_text v = true -> py_eq v v = true.
Proof.
  intros [| | | s | |] H; try discriminate. cbn. apply String.eqb_refl.
Qed.

Lemma dec_equal_refl : forall d, is_nan d = false -> dec_equal d d = Ok true.
Proof.
  intros [s c e | s | s p | s p] H; try discriminate; cbn.
  - unfold dec_value_eqb. destruct (c =? 0)%N; [reflexivity|].
    now rewrite eqb_reflx, N.eqb_refl.
  - now rewrite eqb_reflx.
Qed.

Lemma Item_eq_refl : forall it,
  Item.typed it = true -> Item.no_nan it = true -> Item.eq it it = Ok true.
Proof.
  intros [desc q u x] Ht Hn. unfold Item.typed, Item.no_nan in *.
  cbn [Item.description Item.quantity Item.unit_price Item.tax_rate] in *.
  apply andb_true_iff in Hn as [Hn Hx]. apply andb_true_iff in Hn as [Hq Hu].
  apply negb_true_iff in Hq, Hu, Hx. unfold Item.eq.
  cbn [Item.description Item.quantity Item.unit_price Item.tax_rate].
  rewrite (py_eq_text _ Ht), (dec_equal_refl _ Hq), (dec_equal_refl _ Hu),
    (dec_equal_refl _ Hx). reflexivity.
Qed.

Lemma items_eq_refl : forall l,
  forallb Item.typed l = true -> forallb Item.no_nan l = true ->
  items_eq l l = Ok true.
Proof.
  intros l Ht Hn. unfold items_eq. rewrite Nat.eqb_refl.
  induction l as [|it l IH]; [reflexivity|].
  cbn [forallb] in Ht, Hn. apply andb_true_iff in Ht as [Ht Htl].
  apply andb_true_iff in Hn as [Hn Hnl].
  cbn [items_eq_aux]. rewrite (Item_eq_refl _ Ht Hn). cbn.
  now apply IH.
Qed.

Lemma date_eqb_refl : forall d, date_eqb d d = true.
Proof. intros d. unfold date_eqb. now rewrite !N.eqb_refl. Qed.

Lemma Invoice_eq_refl : forall x,
  Invoice.typed x = true -> Invoice.no_nan x = true ->
  Invoice.eq x x = Ok true.
Proof.
  intros [[n a g e p] [n' a' e' p'] its num dt due cur notes auth] Ht Hn.
  unfold Invoice.typed, Invoice.no_nan, Company.typed, Customer.typed in *.
  cbn [Invoice.company Invoice.customer Invoice.items
       Invoice.invoice_number Invoice.invoice_date Invoice.due_date
       Invoice.currency Invoice.notes Invoice.authorized_by
       Company.name Company.address Company.gst_number Company.email
       Company.phone Customer.name Customer.address Customer.email
       Customer.phone] in *.
  repeat match goal with
         | H : _ && _ = true |- _ => apply andb_true_iff in H as [? ?]
         end.
  unfold Invoice.eq, Company.eq, Customer.eq.
  cbn [Invoice.company Invoice.customer Invoice.items
       Invoice.invoice_number Invoice.invoice_date Invoice.due_date
       Invoice.currency Invoice.notes Invoice.authorized_by
       Company.name Company.address Company.gst_number Company.email
       Company.phone Customer.name Customer.address Customer.email
       Customer.phone].
  rewrite !py_eq_text by assumption.
  rewrite items_eq_refl by assumption.
  assert (Hd : due_date_eq due due = true).
  { destruct due as [d|]; [apply date_eqb_refl|reflexivity]. }
  rewrite date_eqb_refl, Hd. reflexivity.
Qed.

(** C1 (amended). For every invoice whose dates are calendar dates,
    [from_dict] on the document [to_dict] makes of it returns the invoice
    itself: every field the same, each decimal with its sign, digits and
    exponent, each date the same day. The invoice returned compares equal
    to the original with [==] when the text fields are texts and no
    decimal of an item is a NaN. *)
Theorem from_dict_to_dict_round_trip : forall today x,
  Invoice.dates_valid x = true ->
  Invoice.from_dict today (Invoice.to_dict x) = Ok x /\
  (Invoice.typed x = true -> Invoice.no_nan x = true ->
   (y <- Invoice.from_dict today (Invoice.to_dict x) ;; Invoice.eq y x)
   = Ok true).
Proof.
  intros today x Hv. split; [now apply from_dict_to_dict|].
  intros Ht Hn. rewrite (from_dict_to_dict today x Hv). cbn [bind].
  now apply Invoice_eq_refl.
Qed.

Lemma from_dict_to_dict_round_trip_witness :
  Invoice.from_dict (Date 2025 10 19) (Invoice.to_dict sample_invoice)
  = Ok sample_invoice /\
  (y <- Invoice.from_dict (Date 2025 10 19) (Invoice.to_dict sample_invoice) ;;
   Invoice.eq y sample_invoice) = Ok true.
Proof.
  destruct (from_dict_to_dict_round_trip (Date 2025 10 19) sample_invoice
              eq_refl) as [H1 H2].
  split; [exact H1|exact (H2 eq_refl eq_refl)].
Defined.

(** C1, as written, fails on an invoice with an item whose quantity is a
    NaN: the invoice read back has the same fields and does not compare
    equal to the original, a NaN being equal to nothing. *)
Lemma nan_invoice_not_equal :
  Invoice.from_dict (Date 2025 10 19) (Invoice.to_dict nan_invoice)
  = Ok nan_invoice /\
  (y <- Invoice.from_dict (Date 2025 10 19) (Invoice.to_dict nan_invoice) ;;
   Invoice.eq y nan_invoice) = Ok false.
Proof. split; reflexivity. Qed.

(** ** What [from_dict] reads of a document *)

Lemma dict_get_other : forall k k' (v : value) d1 d2,
  k <> k' -> dict_get k (d1 ++ (k', v) :: d2) = dict_get k (d1 ++ d2).
Proof.
  intros k k' v d1 d2 Hk. induction d1 as [|[k1 v1] d1 IH].
  - cbn [app dict_get]. apply String.eqb_neq in Hk. now rewrite Hk.
  - cbn [app dict_get]. now rewrite IH.
Qed.

(** X1. [from_dict] reads the nine keys of the document and nothing else:
    two documents with the same values under them read alike, to the same
    invoice or the same exception. An item is read from its four keys
    alone, so that a key it does not know is ignored, where an unknown key
    in the company or the customer is an error. *)
Theorem reads_only_its_keys :
  (forall today d d',
     (forall k, In k document_keys -> dict_get k d = dict_get k d') ->
     Invoice.from_dict today (VDict d) = Invoice.from_dict today (VDict d'))
  /\
  (forall i i',
     (forall k, In k item_keys -> dict_get k i = dict_get k i') ->
     Item.from_value (VDict i) = Item.from_value (VDict i')).
Proof.
  split.
  - intros today d d' H. unfold document_keys in H.
    unfold Invoice.from_dict, Invoice.decode_company,
      Invoice.decode_customer, Invoice.decode_items,
      Invoice.decode_invoice_date, Invoice.decode_due_date, get_default.
    rewrite !(H "company"), !(H "customer"), !(H "items"),
      !(H "invoice_number"), !(H "invoice_date"), !(H "due_date"),
      !(H "currency"), !(H "notes"), !(H "authorized_by")
      by (cbn [In]; tauto).
    reflexivity.
  - intros i i' H. unfold item_keys in H.
    unfold Item.from_value, get_default.
    rewrite !(H "description"), !(H "quantity"), !(H "unit_price"),
      !(H "tax_rate") by (cbn [In]; tauto).
    reflexivity.
Qed.

Lemma reads_only_its_keys_witness :
  Invoice.from_dict (Date 2025 10 19)
    (VDict [("currency", VStr "USD"); ("comment", VStr "draft")])
  = Invoice.from_dict (Date 2025 10 19) (VDict [("currency", VStr "USD")])
  /\
  Item.from_value (VDict [("quantity", VStr "2"); ("discount", VInt 5)])
  = Item.from_value (VDict [("quantity", VStr "2")]).
Proof.
  split.
  - apply (proj1 reads_only_its_keys (Date 2025 10 19)
             ([("currency", VStr "USD")] ++ ("comment", VStr "draft") :: [])
             ([("currency", VStr "USD")] ++ [])).
    intros k Hk. apply dict_get_other. intros ->.
    cbn [document_keys In] in Hk.
    repeat (destruct Hk as [Hk | Hk]; [discriminate|]). exact Hk.
  - apply (proj2 reads_only_its_keys
             ([("quantity", VStr "2")] ++ ("discount", VInt 5) :: [])
             ([("quantity", VStr "2")] ++ [])).
    intros k Hk. apply dict_get_other. intros ->.
    cbn [item_keys In] in Hk.
    repeat (destruct Hk as [Hk | Hk]; [discriminate|]). exact Hk.
Defined.

(** ** The decimals of an item in a document *)

Lemma Decimal_of_value_int : forall z,
  Decimal_of_value (VInt z) = Ok (Decimal_of_Z z).
Proof.
  intros z. unfold Decimal_of_value, py_str, Decimal_of_str, Decimal_of_Z.
  rewrite chars_text. unfold Decimal_of_chars.
  pose proof (digits_of_N_digits (Z.abs_N z)) as Hd.
  assert (Hp : plain (sign_chars (z <? 0) ++ digits_of_N (Z.abs_N z)) = true).
  { now rewrite plain_app, sign_chars_plain, digits_plain. }
  rewrite (strip_plain _ Hp), (remove_underscore_plain _ Hp).
  rewrite parse_sign_sign_chars.
  - replace (digits_of_N (Z.abs_N z))
      with (digits_of_N (Z.abs_N z) ++ frac_chars None ++ exp_chars None)
      by (cbn; apply app_nil_r).
    rewrite parse_number_layout;
      [|assumption|reflexivity|apply digits_of_N_nonempty].
    cbn [frac_digits exp_value List.length]. rewrite app_nil_r.
    now rewrite N_of_digits_of_N.
  - destruct (digits_of_N (Z.abs_N z)) as [|a l]; [reflexivity|].
    cbn [forallb] in Hd. apply andb_true_iff in Hd as [Ha _].
    destruct (Ascii.eqb_spec a "-"%char) as [-> | _]; [discriminate|].
    destruct (Ascii.eqb_spec a "+"%char) as [-> | _]; [discriminate|].
    reflexivity.
Qed.

Lemma Decimal_of_value_raise : forall v e,
  Decimal_of_value v = Raise e -> e = InvalidOperation.
Proof.
  intros v e H. unfold Decimal_of_value in H.
  destruct (py_str v) as [s|]; [|congruence].
  now apply Decimal_of_chars_raise in H.
Qed.

Lemma Item_from_value_fields : forall i it k,
  Item.from_value (VDict i) = Ok it ->
  In k ["quantity"; "unit_price"; "tax_rate"] ->
  Decimal_of_value (get_default k (VStr "0") i) = Ok (decimal_field k it).
Proof.
  intros i it k H Hk. unfold Item.from_value in H.
  inv_bind H. inv_bind H. inv_bind H. injection H as <-.
  cbn [In] in Hk. destruct Hk as [<- | [<- | [<- | []]]]; assumption.
Qed.

Lemma Item_from_value_raises : forall i k e,
  In k ["quantity"; "unit_price"; "tax_rate"] ->
  Decimal_of_value (get_default k (VStr "0") i) = Raise e ->
  Item.from_value (VDict i) = Raise InvalidOperation.
Proof.
  intros i k e Hk H. unfold Item.from_value.
  destruct (Decimal_of_value (get_default "quantity" (VStr "0") i))
    as [q | e1] eqn:Eq;
    [|now rewrite (Decimal_of_value_raise _ _ Eq)].
  destruct (Decimal_of_value (get_default "unit_price" (VStr "0") i))
    as [u | e2] eqn:Eu;
    [|now rewrite (Decimal_of_value_raise _ _ Eu)].
  destruct (Decimal_of_value (get_default "tax_rate" (VStr "0") i))
    as [x | e3] eqn:Ex;
    [|now rewrite (Decimal_of_value_raise _ _ Ex)].
  cbn [In] in Hk. destruct Hk as [<- | [<- | [<- | []]]]; congruence.
Qed.

(** X2. For each of the keys [quantity], [unit_price] and [tax_rate] of an
    item of a document: when the key is missing the item read has zero in
    the field; when its value is a JSON integer the field is that integer,
    exactly; when it is a text the field is the decimal the text denotes;
    when it is null, true or false the item is not read and
    InvalidOperation is raised. *)
Theorem item_decimal_of_document : forall i k,
  In k ["quantity"; "unit_price"; "tax_rate"] ->
  (forall it,
     Item.from_value (VDict i) = Ok it ->
     (dict_get k i = None -> decimal_field k it = Finite false 0 0) /\
     (forall z, dict_get k i = Some (VInt z) ->
                decimal_field k it = Decimal_of_Z z) /\
     (forall s, dict_get k i = Some (VStr s) ->
                Decimal_of_str s = Ok (decimal_field k it))) /\
  (forall v,
     dict_get k i = Some v ->
     v = VNone \/ v = VBool true \/ v = VBool false ->
     Item.from_value (VDict i) = Raise InvalidOperation).
Proof.
  intros i k Hk. split.
  - intros it H. pose proof (Item_from_value_fields i it k H Hk) as Hf.
    unfold get_default in Hf. repeat split.
    + intros Hg. rewrite Hg in Hf.
      change (Decimal_of_value (VStr "0")) with (Ok (Finite false 0 0)) in Hf.
      congruence.
    + intros z Hg. rewrite Hg, Decimal_of_value_int in Hf. congruence.
    + intros s Hg. now rewrite Hg in Hf.
  - intros v Hg Hv. apply (Item_from_value_raises i k InvalidOperation Hk).
    unfold get_default. rewrite Hg.
    destruct Hv as [-> | [-> | ->]]; reflexivity.
Qed.

Lemma item_decimal_of_document_witness :
  (forall it,
     Item.from_value (VDict [("quantity", VInt (-3))]) = Ok it ->
     decimal_field "quantity" it = Decimal_of_Z (-3)) /\
  Item.from_value (VDict [("quantity", VNone)]) = Raise InvalidOperation.
Proof.
  split.
  - intros it H.
    apply (proj1 (item_decimal_of_document [("quantity", VInt (-3))]
                    "quantity" (or_introl eq_refl)) it H).
    reflexivity.
  - apply (proj2 (item_decimal_of_document [("quantity", VNone)]
                    "quantity" (or_introl eq_refl)) VNone).
    + reflexivity.
    + now left.
Defined.

(** ** Items that are no items *)

Lemma mapM_app_raise : forall (A B : Type) (f : A -> result B) l1 a l2 bs e,
  mapM f l1 = Ok bs -> f a = Raise e -> mapM f (l1 ++ a :: l2) = Raise e.
Proof.
  intros A B f l1 a l2 bs e. revert bs.
  induction l1 as [|b l1 IH]; intros bs H Ha.
  - cbn [app mapM]. now rewrite Ha.
  - cbn [app mapM] in *. destruct (f b) as [y | e1]; [|discriminate].
    cbn [bind] in *. destruct (mapM f l1) as [ys | e2]; [|discriminate].
    now rewrite (IH ys eq_refl Ha).
Qed.

(** X3. In a document whose company and customer are read, an [items]
    that is null, a boolean or a number makes [from_dict] raise TypeError,
    and an [items] list with an element that is no dict, the elements
    before it being read, makes it raise AttributeError. *)
Theorem items_must_be_dicts : forall today d co cu,
  Invoice.decode_company d = Ok co ->
  Invoice.decode_customer d = Ok cu ->
  (forall v,
     dict_get "items" d = Some v ->
     v = VNone \/ (exists b, v = VBool b) \/ (exists z, v = VInt z) ->
     Invoice.from_dict today (VDict d) = Raise TypeError) /\
  (forall l1 v l2 its,
     dict_get "items" d = Some (VList (l1 ++ v :: l2)) ->
     mapM Item.from_value l1 = Ok its ->
     is_dict v = false ->
     Invoice.from_dict today (VDict d) = Raise AttributeError).
Proof.
  intros today d co cu Hco Hcu. unfold Invoice.from_dict.
  rewrite Hco, Hcu. cbn [bind]. unfold Invoice.decode_items, get_default.
  split.
  - intros v Hg Hv. rewrite Hg.
    destruct Hv as [-> | [(b & ->) | (z & ->)]]; reflexivity.
  - intros l1 v l2 its Hg H1 Hv. rewrite Hg. cbn [iterate bind].
    rewrite (mapM_app_raise _ _ _ _ _ _ _ AttributeError H1);
      [reflexivity|].
    destruct v; try reflexivity. discriminate.
Qed.

Lemma items_must_be_dicts_witness :
  Invoice.from_dict (Date 2025 10 19) (VDict [("items", VNone)])
  = Raise TypeError /\
  Invoice.from_dict (Date 2025 10 19)
    (VDict [("items", VList [VDict []; VStr "2 x 10"])])
  = Raise AttributeError.
Proof.
  split.
  - apply (proj1 (items_must_be_dicts (Date 2025 10 19)
                    [("items", VNone)] default_company default_customer
                    eq_refl eq_refl) VNone); [reflexivity|now left].
  - apply (proj2 (items_must_be_dicts (Date 2025 10 19)
                    [("items", VList [VDict []; VStr "2 x 10"])]
                    default_company default_customer eq_refl eq_refl)
             [VDict []] (VStr "2 x 10") []
             [Item.Make (VStr "") zero zero zero]); reflexivity.
Defined.

(** ** Invoices that were read *)

Lemma fromisoformat_valid : forall s d,
  fromisoformat s = Ok d -> date_valid d = true.
Proof.
  intros s d H. unfold fromisoformat in H.
  destruct (chars s) as [|y1 [|y2 [|y3 [|y4 [|s1 [|m1 [|m2 [|s2 [|d1 [|d2
    [|x l]]]]]]]]]]]; try discriminate.
  destruct (_ && _ && _); [|discriminate].
  destruct (date_valid _) eqn:E; [|discriminate]. now injection H as <-.
Qed.

Lemma fromisoformat_value_valid : forall v d,
  fromisoformat_value v = Ok d -> date_valid d = true.
Proof.
  intros v d H. destruct v; try discriminate.
  now apply fromisoformat_valid in H.
Qed.

(** X4. An invoice that [from_dict] has read from any document is
    written by [to_dict] to a document that reads back to it, on any
    day. *)
Theorem read_invoice_round_trips : forall today today' data inv,
  Invoice.from_dict today data = Ok inv ->
  Invoice.from_dict today' (Invoice.to_dict inv) = Ok inv.
Proof.
  intros today today' data inv H. apply from_dict_to_dict.
  destruct data as [| | | | |d]; try discriminate.
  unfold Invoice.from_dict in H.
  inv_bind H. inv_bind H. inv_bind H. inv_bind H. inv_bind H.
  injection H as <-. unfold Invoice.dates_valid.
  cbn [Invoice.invoice_date Invoice.due_date].
  apply andb_true_iff. split.
  - unfold Invoice.decode_invoice_date in E2.
    now apply fromisoformat_value_valid in E2.
  - unfold Invoice.decode_due_date in E3.
    destruct (truthy _); [|now injection E3 as <-].
    destruct (dict_get "due_date" d) as [v|]; [|discriminate].
    inv_bind E3. injection E3 as <-.
    now apply fromisoformat_value_valid in E4.
Qed.

Lemma read_invoice_round_trips_witness :
  exists inv,
    Invoice.from_dict (Date 2025 10 19)
      (VDict [("due_date", VStr "2025-11-02")]) = Ok inv
    /\ Invoice.from_dict (Date 2026 1 1) (Invoice.to_dict inv) = Ok inv.
Proof.
  eexists. split; [reflexivity|].
  apply (read_invoice_round_trips (Date 2025 10 19) (Date 2026 1 1)
           (VDict [("due_date", VStr "2025-11-02")])).
  reflexivity.
Defined.

(** X5. Reading the dates. A document without [invoice_date] is dated
    today; one whose [invoice_date] is no text, null included, is not
    read: the date conversion raises TypeError. A [due_date] that is
    null, empty or otherwise false gives an invoice without due date,
    and a [due_date] text that is not empty gives the date it denotes. *)
Theorem dates_of_document : forall today d,
  date_valid today = true ->
  (forall inv,
     Invoice.from_dict today (VDict d) = Ok inv ->
     (dict_get "invoice_date" d = None ->
      Invoice.invoice_date inv = today) /\
     (forall s, dict_get "invoice_date" d = Some (VStr s) ->
                fromisoformat s = Ok (Invoice.invoice_date inv)) /\
     (truthy (get_default "due_date" VNone d) = false ->
      Invoice.due_date inv = None) /\
     (forall s, dict_get "due_date" d = Some (VStr s) -> s <> "" ->
                exists dd, fromisoformat s = Ok dd
                           /\ Invoice.due_date inv = Some dd)) /\
  (forall v,
     dict_get "invoice_date" d = Some v -> is_text v = false ->
     Invoice.decode_invoice_date today d = Raise TypeError
     /\ exists e, Invoice.from_dict today (VDict d) = Raise e).
Proof.
  intros today d Hv. split.
  - intros inv H. unfold Invoice.from_dict in H.
    inv_bind H. inv_bind H. inv_bind H. inv_bind H. inv_bind H.
    injection H as <-. cbn [Invoice.invoice_date Invoice.due_date].
    unfold Invoice.decode_invoice_date, get_default in E2.
    unfold Invoice.decode_due_date, get_default in E3. repeat split.
    + intros Hg. rewrite Hg in E2. cbn [fromisoformat_value] in E2.
      rewrite (fromisoformat_isoformat _ Hv) in E2. congruence.
    + intros s Hg. now rewrite Hg in E2.
    + intros Ht. unfold get_default in Ht. rewrite Ht in E3. congruence.
    + intros s Hg Hs. rewrite Hg in E3. cbn [truthy] in E3.
      apply String.eqb_neq in Hs. rewrite Hs in E3. cbn [negb] in E3.
      inv_bind E3. injection E3 as <-. now exists a4.
  - intros v Hg Ht.
    assert (E : Invoice.decode_invoice_date today d = Raise TypeError).
    { unfold Invoice.decode_invoice_date, get_default. rewrite Hg.
      destruct v; try reflexivity. discriminate. }
    split; [exact E|]. apply decode_failure. right. left. eauto.
Qed.

Lemma dates_of_document_witness :
  Invoice.decode_invoice_date (Date 2025 10 19) [("invoice_date", VNone)]
  = Raise TypeError
  /\ exists e,
       Invoice.from_dict (Date 2025 10 19)
         (VDict [("invoice_date", VNone)]) = Raise e.
Proof.
  apply (proj2 (dates_of_document (Date 2025 10 19)
                  [("invoice_date", VNone)] eq_refl) VNone); reflexivity.
Defined.

(** ** Blank text *)

Lemma lstrip_nil : forall l, lstrip l = [] <-> forallb is_space l = true.
Proof.
  induction l as [|a l IH]; [easy|]. cbn [lstrip forallb].
  destruct (is_space a); [exact IH|]. split; discriminate.
Qed.

Lemma lstrip_head : forall l a l',
  lstrip l = a :: l' -> is_space a = false.
Proof.
  induction l as [|b l IH]; intros a l' H; [discriminate|].
  cbn [lstrip] in H. destruct (is_space b) eqn:E; [now apply IH in H|].
  now injection H as <- _.
Qed.

Lemma forallb_rev : forall (A : Type) (f : A -> bool) l,
  forallb f (rev l) = forallb f l.
Proof.
  intros A f l. induction l as [|a l IH]; [reflexivity|].
  cbn [rev forallb]. rewrite forallb_app, IH. cbn [forallb].
  rewrite andb_true_r. apply andb_comm.
Qed.

(** [strip] leaves nothing exactly of the texts that are all whitespace. *)
Lemma strip_nil : forall l, strip l = [] <-> forallb is_space l = true.
Proof.
  intros l. unfold strip. split.
  - intros H. apply (f_equal (@rev ascii)) in H.
    rewrite rev_involutive in H. cbn [rev] in H.
    apply lstrip_nil in H. rewrite forallb_rev in H.
    destruct (lstrip l) as [|a l'] eqn:E; [now apply lstrip_nil|].
    apply lstrip_head in E. cbn [forallb] in H. now rewrite E in H.
  - intros H. apply lstrip_nil in H. now rewrite H.
Qed.

Lemma existsb_not_forallb : forall (A : Type) (f : A -> bool) l,
  existsb (fun a => negb (f a)) l = negb (forallb f l).
Proof.
  intros A f l. induction l as [|a l IH]; [reflexivity|].
  cbn [existsb forallb]. rewrite IH. now destruct (f a).
Qed.

Lemma text_empty : forall l, String.eqb (text l) "" = true <-> l = [].
Proof. intros [|a l]; [easy|]. cbn. split; discriminate. Qed.

(** X6. [non_empty] of a text is True exactly when the text has a
    character that is not whitespace; of None it is False; on neither
    does it raise. *)
Theorem non_empty_spec :
  (forall s,
     non_empty (VStr s)
     = Ok (existsb (fun a => negb (is_space a)) (chars s))) /\
  non_empty VNone = Ok false.
Proof.
  split; [|reflexivity]. intros s. unfold non_empty. cbn [truthy].
  rewrite existsb_not_forallb.
  destruct (String.eqb s "") eqn:Es.
  - apply String.eqb_eq in Es. now subst s.
  - cbn [negb]. do 2 f_equal.
    destruct (forallb is_space (chars s)) eqn:Ef.
    + apply strip_nil in Ef. now rewrite Ef.
    + destruct (String.eqb (text (strip (chars s))) "") eqn:E; [|reflexivity].
      apply text_empty, strip_nil in E. congruence.
Qed.

(** ** Numerals written by the program *)

Lemma no_comma_app : forall l1 l2,
  no_comma (l1 ++ l2) = no_comma l1 && no_comma l2.
Proof. intros l1 l2. apply forallb_app. Qed.

Lemma digits_no_comma : forall l,
  forallb is_digit l = true -> no_comma l = true.
Proof.
  intros l H. unfold no_comma. rewrite forallb_forall in *.
  intros a Ha. specialize (H a Ha).
  destruct (Ascii.eqb_spec a ","%char) as [-> | _]; [discriminate|].
  reflexivity.
Qed.

Lemma replace_no_comma : forall l,
  no_comma l = true -> replace_char ","%char "."%char l = l.
Proof.
  induction l as [|a l IH]; intros H; [reflexivity|].
  cbn [no_comma forallb] in H. apply andb_true_iff in H as [Ha Hl].
  cbn [replace_char map]. fold (replace_char ","%char "."%char l).
  rewrite (IH Hl). now destruct (Ascii.eqb a ","%char).
Qed.

Lemma signed_digits_no_comma : forall x, no_comma (signed_digits x) = true.
Proof.
  intros x. unfold signed_digits. cbn [no_comma forallb].
  fold (no_comma (digits_of_N (Z.abs_N x))).
  rewrite digits_no_comma by apply digits_of_N_digits. now destruct (x <? 0).
Qed.

Lemma frac_chars_clean : forall frac,
  forallb is_digit (frac_digits frac) = true ->
  plain (frac_chars frac) = true /\ no_comma (frac_chars frac) = true.
Proof.
  intros [fp|] H; [|now split]. cbn [frac_chars frac_digits] in *.
  cbn [plain no_comma forallb]. fold (plain fp). fold (no_comma fp).
  now rewrite (digits_plain _ H), (digits_no_comma _ H).
Qed.

Lemma exp_chars_clean : forall ox,
  plain (exp_chars ox) = true /\ no_comma (exp_chars ox) = true.
Proof.
  intros [x|]; [|now split]. cbn [exp_chars plain no_comma forallb].
  fold (plain (signed_digits x)). fold (no_comma (signed_digits x)).
  now rewrite signed_digits_plain, signed_digits_no_comma.
Qed.

(** What [str] writes of a decimal has no whitespace, underscore or
    comma in it. *)
Lemma Decimal_chars_clean : forall d,
  plain (Decimal_chars d) = true /\ no_comma (Decimal_chars d) = true.
Proof.
  intros [s c e | s | s p | s p].
  - destruct (Decimal_chars_layout s c e)
      as (ip & frac & ox & E & Hi & Hf & _). rewrite E.
    destruct (frac_chars_clean frac Hf) as [Hf1 Hf2].
    destruct (exp_chars_clean ox) as [Hx1 Hx2].
    assert (Hs : no_comma (sign_chars s) = true) by (now destruct s).
    rewrite !plain_app, !no_comma_app, sign_chars_plain, Hs,
      (digits_plain ip Hi), (digits_no_comma ip Hi), Hf1, Hf2, Hx1, Hx2.
    now split.
  - now destruct s.
  - unfold Decimal_chars. destruct (payload_digits_spec p) as [Hd _].
    rewrite !plain_app, !no_comma_app, sign_chars_plain,
      (digits_plain _ Hd), (digits_no_comma _ Hd). now destruct s.
  - unfold Decimal_chars. destruct (payload_digits_spec p) as [Hd _].
    rewrite !plain_app, !no_comma_app, sign_chars_plain,
      (digits_plain _ Hd), (digits_no_comma _ Hd). now destruct s.
Qed.

Lemma entry_get_Decimal_str : forall d,
  entry_get (Decimal_str d) = Decimal_str d.
Proof.
  intros d. unfold entry_get, Decimal_str. rewrite chars_text.
  now rewrite strip_plain by apply Decimal_chars_clean.
Qed.

Lemma parse_decimal_Decimal_str : forall d default,
  parse_decimal (VStr (Decimal_str d)) default = Ok d.
Proof.
  intros d default. unfold parse_decimal, Decimal_str. rewrite chars_text.
  destruct (Decimal_chars_clean d) as [Hp Hc].
  rewrite (strip_plain _ Hp), (replace_no_comma _ Hc).
  now rewrite Decimal_of_chars_Decimal_chars.
Qed.

(** X7. [parse_decimal] reads back the text [str] writes of a decimal,
    whatever the decimal and the default. So the item dialog, opened on an
    item and confirmed with its entries untouched, returns the item with
    the same three decimals, and with its description stripped. *)
Theorem dialog_keeps_the_item :
  (forall d default, parse_decimal (VStr (Decimal_str d)) default = Ok d) /\
  (forall desc q u x,
     on_ok desc (Decimal_str q) (Decimal_str u) (Decimal_str x)
     = Ok (Item.Make (VStr (entry_get desc)) q u x)).
Proof.
  split; [exact parse_decimal_Decimal_str|].
  intros desc q u x. unfold on_ok.
  now rewrite !entry_get_Decimal_str, !parse_decimal_Decimal_str.
Qed.

Lemma parse_decimal_zero_default : forall v,
  exists d, parse_decimal v "0" = Ok d.
Proof.
  intros v. unfold parse_decimal. destruct v; try (now eexists).
  destruct (Decimal_of_chars _) as [d | e] eqn:E; [now exists d|].
  apply Decimal_of_chars_raise in E. subst e. now eexists.
Qed.

(** X8. The item dialog makes an item of whatever its four entries hold
    and raises nothing: the description is the stripped text of its entry,
    empty or not, and each decimal is what [parse_decimal] makes of its
    entry with default 0, so that an entry that is no numeral counts as
    zero. *)
Theorem on_ok_accepts_everything : forall desc qty uprice tax,
  exists it,
    on_ok desc qty uprice tax = Ok it
    /\ Item.description it = VStr (entry_get desc)
    /\ parse_decimal (VStr (entry_get qty)) "0" = Ok (Item.quantity it)
    /\ parse_decimal (VStr (entry_get uprice)) "0" = Ok (Item.unit_price it)
    /\ parse_decimal (VStr (entry_get tax)) "0" = Ok (Item.tax_rate it)
    /\ (Decimal_of_chars
          (replace_char ","%char "."%char (strip (chars (entry_get qty))))
        = Raise InvalidOperation ->
        Item.quantity it = Finite false 0 0).
Proof.
  intros desc qty uprice tax. unfold on_ok.
  destruct (parse_decimal_zero_default (VStr (entry_get qty))) as (q & Hq).
  destruct (parse_decimal_zero_default (VStr (entry_get uprice))) as (u & Hu).
  destruct (parse_decimal_zero_default (VStr (entry_get tax))) as (x & Hx).
  rewrite Hq, Hu, Hx. cbn [bind]. eexists. split; [reflexivity|].
  cbn [Item.description Item.quantity Item.unit_price Item.tax_rate].
  repeat split. intros E. unfold parse_decimal in Hq. rewrite E in Hq.
  cbv in Hq. congruence.
Qed.

Lemma on_ok_accepts_everything_witness :
  exists it,
    on_ok "" "two" "9,99" "" = Ok it
    /\ Item.quantity it = Finite false 0 0
    /\ Item.unit_price it = Finite false 999 (-2).
Proof.
  destruct (on_ok_accepts_everything "" "two" "9,99" "")
    as (it & H & _ & _ & Hu & _ & Hz).
  exists it. split; [exact H|]. split; [apply Hz; reflexivity|].
  change (parse_decimal (VStr (entry_get "9,99")) "0")
    with (Ok (Finite false 999 (-2))) in Hu.
  congruence.
Defined.

(** ** Sums of money *)

Lemma is_money_inv : forall d,
  is_money d = true ->
  exists s c, d = Finite s c (-2) /\ (c < pow10 prec)%N.
Proof.
  intros [s c e | | |] H; try discriminate. cbn [is_money] in H.
  apply andb_true_iff in H as [He Hc]. apply Z.eqb_eq in He.
  apply N.ltb_lt in Hc. subst e. now exists s, c.
Qed.

Lemma is_money_intro : forall s c,
  (c < pow10 prec)%N -> is_money (Finite s c (-2)) = true.
Proof.
  intros s c H. cbn [is_money]. apply N.ltb_lt in H. now rewrite H.
Qed.

Lemma fix_finite_money : forall s c,
  (c < pow10 prec)%N -> fix_finite s c (-2) = Ok (Finite s c (-2)).
Proof.
  intros s c H.
  apply fix_finite_exact; [assumption|unfold Etiny, Emin, prec; lia|].
  destruct (N.eq_dec c 0) as [-> | Hc];
    [change (ndigits 0) with 1; unfold Emax; lia|].
  assert (ndigits c <= prec)
    by (apply ndigits_le_iff; [assumption|unfold prec; lia|assumption]).
  unfold prec, Emax in *. lia.
Qed.

Lemma pow10_29 : pow10 29 = (10 * pow10 28)%N.
Proof. exact (pow10_succ 28 ltac:(lia)). Qed.

Lemma pow10_28 : pow10 28 = (10 * pow10 27)%N.
Proof. exact (pow10_succ 27 ltac:(lia)). Qed.

Lemma ndigits_29 : forall c,
  (pow10 28 <= c < 2 * pow10 28)%N -> ndigits c = 29.
Proof.
  intros c [Hl Hu].
  assert (Hc : c <> 0%N).
  { pose proof (pow10_pos 28). lia. }
  assert (H1 : ndigits c <= 29).
  { apply ndigits_le_iff; [assumption|lia|].
    rewrite pow10_29. lia. }
  assert (H2 : ~ ndigits c <= 28).
  { intros H. apply ndigits_le_iff in H; [lia|assumption|lia]. }
  lia.
Qed.

Lemma ndigits_28 : forall c,
  (pow10 27 <= c < pow10 28)%N -> ndigits c = 28.
Proof.
  intros c [Hl Hu].
  assert (Hc : c <> 0%N).
  { pose proof (pow10_pos 27). lia. }
  assert (H1 : ndigits c <= 28).
  { apply ndigits_le_iff; [assumption|lia|assumption]. }
  assert (H2 : ~ ndigits c <= 27).
  { intros H. apply ndigits_le_iff in H; [lia|assumption|lia]. }
  lia.
Qed.

Lemma round_digits_1_bounds : forall r c,
  (c / 10 <= round_digits r c 1 <= c / 10 + 1)%N.
Proof.
  intros r c. unfold round_digits. change (pow10 1) with 10%N.
  destruct r; match goal with
              | |- context [if ?b then _ else _] => destruct b
              end; lia.
Qed.

(** A sum of 29 digits at two places is rounded to one place by the
    context, and [as_money] then refuses it. *)
Lemma fix_finite_too_long : forall s c,
  (pow10 28 <= c < 2 * pow10 28)%N ->
  exists c', fix_finite s c (-2) = Ok (Finite s c' (-1))
             /\ as_money (Finite s c' (-1)) = Raise InvalidOperation.
Proof.
  intros s c Hc. pose proof (ndigits_29 c Hc) as Hn.
  pose proof (round_digits_1_bounds context_rounding c) as Hr.
  assert (Hq : (pow10 27 <= c / 10 /\ c / 10 < 2 * pow10 27)%N).
  { rewrite pow10_28 in Hc. split.
    - apply N.div_le_lower_bound; lia.
    - apply N.Div0.div_lt_upper_bound. lia. }
  assert (Hb : (pow10 27 <= round_digits context_rounding c 1 < pow10 28)%N).
  { rewrite pow10_28. pose proof (pow10_pos 27). lia. }
  exists (round_digits context_rounding c 1). split.
  - unfold fix_finite.
    assert (Hz : (c =? 0)%N = false).
    { apply N.eqb_neq. pose proof (pow10_pos 28). lia. }
    rewrite Hz, Hn. cbn -[round_digits ndigits].
    change (-1 - -2) with 1. rewrite (ndigits_28 _ Hb). reflexivity.
  - rewrite as_money_finite. unfold half_up_cents.
    change (-2 <=? -1) with true. cbv iota.
    change (pow10 (-1 + 2)) with 10%N.
    destruct (N.ltb_spec (round_digits context_rounding c 1 * 10)
                (pow10 prec)) as [H | H]; [|reflexivity].
    unfold prec in H. rewrite pow10_28 in H. lia.
Qed.

(** The sum of two money values: exact when it has at most 28 digits,
    rounded to a value [as_money] refuses when it has more. *)
Lemma dec_add_money : forall a b,
  is_money a = true -> is_money b = true ->
  exists r,
    dec_add a b = Ok r /\
    if Z.abs (cents a + cents b) <? Z.of_N (pow10 prec)
    then is_money r = true /\ cents r = cents a + cents b
         /\ (negative_zero a = false -> negative_zero r = false)
    else as_money r = Raise InvalidOperation.
Proof.
  intros a b Ha Hb.
  destruct (is_money_inv a Ha) as (sa & ca & -> & Hca).
  destruct (is_money_inv b Hb) as (sb & cb & -> & Hcb).
  unfold dec_add, check_nans. cbv zeta.
  change (Z.min (-2) (-2)) with (-2).
  change (Z.max (-2) (-2 - prec - 1)) with (-2).
  unfold rescale. change (-2 <=? -2) with true.
  change (pow10 (-2 - -2)) with 1%N. cbn [cents].
  destruct (N.eqb_spec ca 0) as [-> | Hza];
    destruct (N.eqb_spec cb 0) as [-> | Hzb]; cbn [andb dec_fix].
  - eexists. split; [reflexivity|]. now destruct sa, sb.
  - rewrite N.mul_1_r, (fix_finite_money sb cb Hcb). eexists.
    split; [reflexivity|].
    replace (Z.abs _ <? _) with true.
    + split; [now apply is_money_intro|]. cbn [cents].
      split; [now destruct sa|]. intros _. cbn [negative_zero].
      destruct sb; [|reflexivity]. now destruct cb.
    + symmetry. apply Z.ltb_lt. destruct sa, sb; lia.
  - rewrite N.mul_1_r, (fix_finite_money sa ca Hca). eexists.
    split; [reflexivity|].
    replace (Z.abs _ <? _) with true.
    + split; [now apply is_money_intro|]. cbn [cents].
      split; [destruct sb; lia|]. intros _. cbn [negative_zero].
      destruct sa; [|reflexivity]. now destruct ca.
    + symmetry. apply Z.ltb_lt. destruct sa, sb; lia.
  - unfold signed. rewrite !N.mul_1_r.
    set (z := (if sa then - Z.of_N ca else Z.of_N ca)
              + (if sb then - Z.of_N cb else Z.of_N cb)).
    destruct (Z.ltb_spec (Z.abs z) (Z.of_N (pow10 prec))) as [Hlt | Hge].
    + rewrite fix_finite_money by lia. eexists. split; [reflexivity|].
      split; [apply is_money_intro; lia|]. cbn [cents].
      split; [destruct (Z.ltb_spec z 0); lia|]. intros _.
      cbn [negative_zero]. destruct (Z.ltb_spec z 0); [|reflexivity].
      destruct (Z.abs_N z) eqn:E; [lia|reflexivity].
    + destruct (fix_finite_too_long (z <? 0) (Z.abs_N z)) as (c' & E & H).
      * unfold prec in *. subst z. destruct sa, sb; lia.
      * rewrite E. now exists (Finite (z <? 0) c' (-1)).
Qed.

(** The sum from [Decimal("0")]: the first term at two places. *)
Lemma dec_add_zero_money : forall b,
  is_money b = true ->
  exists r, dec_add zero b = Ok r /\ is_money r = true /\ cents r = cents b
            /\ negative_zero r = false.
Proof.
  intros b Hb. destruct (is_money_inv b Hb) as (sb & cb & -> & Hcb).
  unfold dec_add, zero, check_nans. cbv zeta.
  change (Z.min 0 (-2)) with (-2).
  change (Z.max (-2) (-2 - prec - 1)) with (-2). unfold rescale.
  change (-2 <=? -2) with true. change (pow10 (-2 - -2)) with 1%N.
  cbn [N.eqb andb].
  destruct (N.eqb_spec cb 0) as [-> | Hzb]; cbn [dec_fix].
  - eexists. split; [reflexivity|]. now destruct sb.
  - rewrite N.mul_1_r, (fix_finite_money sb cb Hcb). eexists.
    split; [reflexivity|]. split; [now apply is_money_intro|].
    split; [reflexivity|]. cbn [negative_zero].
    destruct sb; [|reflexivity]. now destruct cb.
Qed.

Lemma money_of_cents_spec : forall r,
  is_money r = true -> negative_zero r = false ->
  r = money_of_cents (cents r).
Proof.
  intros r Hm Hz. destruct (is_money_inv r Hm) as (s & c & -> & Hc).
  unfold money_of_cents. cbn [cents negative_zero] in *.
  destruct s.
  - destruct c as [|p]; [discriminate|].
    replace (- Z.of_N (N.pos p) <? 0) with true
      by (symmetry; apply Z.ltb_lt; lia).
    f_equal; lia.
  - replace (Z.of_N c <? 0) with false by (symmetry; apply Z.ltb_ge; lia).
    f_equal; lia.
Qed.

Lemma money_of_cents_money : forall z,
  Z.abs z < Z.of_N (pow10 prec) ->
  is_money (money_of_cents z) = true
  /\ cents (money_of_cents z) = z
  /\ negative_zero (money_of_cents z) = false.
Proof.
  intros z H. unfold money_of_cents. repeat split.
  - apply is_money_intro. lia.
  - cbn [cents]. destruct (Z.ltb_spec z 0); lia.
  - cbn [negative_zero]. destruct (Z.ltb_spec z 0); [|reflexivity].
    destruct (Z.abs_N z) eqn:E; [lia|reflexivity].
Qed.

(** Money added to a sum that is no negative zero, exactly. *)
Lemma dec_add_cents : forall z b,
  is_money b = true ->
  Z.abs z < Z.of_N (pow10 prec) ->
  Z.abs (z + cents b) < Z.of_N (pow10 prec) ->
  dec_add (money_of_cents z) b = Ok (money_of_cents (z + cents b)).
Proof.
  intros z b Hb Hz Hs.
  destruct (money_of_cents_money z Hz) as (Hm & Hc & Hn).
  destruct (dec_add_money (money_of_cents z) b Hm Hb) as (r & Hr & H).
  rewrite Hc in H. apply Z.ltb_lt in Hs. rewrite Hs in H.
  destruct H as (Hrm & Hrc & Hrn). rewrite Hr. f_equal.
  rewrite <- Hrc. apply money_of_cents_spec; [assumption|now apply Hrn].
Qed.

Lemma Item_total_exact : forall it s x,
  Item.finite it = true ->
  Item.subtotal it = Ok s -> Item.tax_amount it = Ok x ->
  if Z.abs (cents s + cents x) <? Z.of_N (pow10 prec)
  then exists t, Item.total it = Ok t /\ is_money t = true
                 /\ cents t = cents s + cents x
  else Item.total it = Raise InvalidOperation.
Proof.
  intros it s x Hf Hs Hx. unfold Item.total. rewrite Hs, Hx. cbn [bind].
  destruct (dec_add_money s x) as (r & Hr & H).
  - eapply Item_subtotal_money; eassumption.
  - eapply Item_tax_amount_money; eassumption.
  - rewrite Hr. cbn [bind].
    destruct (Z.abs (cents s + cents x) <? Z.of_N (pow10 prec)).
    + destruct H as (Hm & Hc & _). exists r.
      now rewrite (as_money_idem r Hm).
    + exact H.
Qed.

(** X9. For an item of finite decimals whose subtotal and tax amount are
    returned, [total] returns their exact sum, at two places, when the sum
    has at most 28 digits, and raises InvalidOperation when it has more:
    the rounding in [total] never changes the sum. *)
Theorem Item_total_is_the_sum : forall it s x,
  Item.finite it = true ->
  Item.subtotal it = Ok s -> Item.tax_amount it = Ok x ->
  if Z.abs (cents s + cents x) <? Z.of_N (pow10 prec)
  then exists t, Item.total it = Ok t /\ is_money t = true
                 /\ cents t = cents s + cents x
  else Item.total it = Raise InvalidOperation.
Proof. exact Item_total_exact. Qed.

Lemma Item_total_is_the_sum_witness :
  exists t, Item.total sample_item = Ok t /\ is_money t = true
            /\ cents t = 2000 + 200.
Proof.
  exact (Item_total_is_the_sum sample_item (Finite false 2000 (-2))
           (Finite false 200 (-2)) eq_refl eq_refl eq_refl).
Defined.

(** ** Sums over the items *)

Lemma sum_abs_cents_nonneg : forall ms, 0 <= sum_abs_cents ms.
Proof.
  induction ms as [|d l IH]; cbn; [lia|]. fold (sum_abs_cents l). lia.
Qed.

Lemma sum_cents_bound : forall ms, Z.abs (sum_cents ms) <= sum_abs_cents ms.
Proof.
  induction ms as [|d l IH]; cbn; [lia|].
  fold (sum_abs_cents l). fold (sum_cents l). lia.
Qed.

Lemma dec_sum_from : forall ms z,
  forallb is_money ms = true ->
  Z.abs z + sum_abs_cents ms < Z.of_N (pow10 prec) ->
  foldM dec_add ms (money_of_cents z)
  = Ok (money_of_cents (z + sum_cents ms)).
Proof.
  induction ms as [|m ms IH]; intros z Hms Hb.
  - cbn. now rewrite Z.add_0_r.
  - cbn [forallb] in Hms. apply andb_true_iff in Hms as [Hm Hms].
    cbn [sum_abs_cents sum_cents fold_right] in *.
    fold (sum_abs_cents ms) in Hb. fold (sum_cents ms).
    pose proof (sum_abs_cents_nonneg ms).
    cbn [foldM]. rewrite dec_add_cents by (assumption || lia).
    cbn [bind]. rewrite IH by (assumption || lia). f_equal. f_equal. lia.
Qed.

(** The rounded sum of money values that fit is their exact sum. *)
Lemma money_sum_exact : forall ms,
  forallb is_money ms = true ->
  sum_abs_cents ms < Z.of_N (pow10 prec) ->
  (s <- dec_sum ms ;; as_money s) = Ok (money_of_cents (sum_cents ms)).
Proof.
  intros [|m ms] Hms Hb; [reflexivity|].
  cbn [forallb] in Hms. apply andb_true_iff in Hms as [Hm Hms].
  cbn [sum_abs_cents sum_cents fold_right] in *.
  fold (sum_abs_cents ms) in Hb. fold (sum_cents ms).
  pose proof (sum_abs_cents_nonneg ms).
  pose proof (sum_cents_bound ms).
  destruct (dec_add_zero_money m Hm) as (r & Hr & Hrm & Hrc & Hrn).
  rewrite (money_of_cents_spec r Hrm Hrn), Hrc in Hr.
  unfold dec_sum. cbn [foldM]. rewrite Hr. cbn [bind].
  rewrite dec_sum_from by (assumption || lia). cbn [bind].
  apply as_money_idem, money_of_cents_money. lia.
Qed.

Lemma mapM_money : forall (f : Item.t -> result Decimal) l ms,
  (forall i r, In i l -> f i = Ok r -> is_money r = true) ->
  mapM f l = Ok ms -> forallb is_money ms = true.
Proof.
  intros f l. induction l as [|i l IH]; intros ms Hf H.
  - now injection H as <-.
  - cbn [mapM] in H. inv_bind H. inv_bind H. injection H as <-.
    cbn [forallb]. apply andb_true_iff. split.
    + apply (Hf i a); [now left|assumption].
    + apply IH; [|assumption]. intros i' r Hi. apply Hf. now right.
Qed.

Lemma Invoice_sum_exact : forall (f : Item.t -> result Decimal) l ms,
  (forall i r, In i l -> f i = Ok r -> is_money r = true) ->
  mapM f l = Ok ms ->
  sum_abs_cents ms < Z.of_N (pow10 prec) ->
  (s <- Invoice.sum_of f l ;; as_money s)
  = Ok (money_of_cents (sum_cents ms)).
Proof.
  intros f l ms Hf Hms Hb.
  pose proof (money_sum_exact ms (mapM_money f l ms Hf Hms) Hb) as Hr.
  inv_bind Hr. apply Invoice_sum_ok. now exists ms, a.
Qed.

Lemma Invoice_subtotal_exact : forall inv ms,
  forallb Item.finite (Invoice.items inv) = true ->
  mapM Item.subtotal (Invoice.items inv) = Ok ms ->
  sum_abs_cents ms < Z.of_N (pow10 prec) ->
  Invoice.subtotal inv = Ok (money_of_cents (sum_cents ms)).
Proof.
  intros inv ms Hf Hms Hb. rewrite forallb_forall in Hf.
  apply Invoice_sum_exact; try assumption.
  intros i r Hi. apply Item_subtotal_money. now apply Hf.
Qed.

Lemma Invoice_tax_total_exact : forall inv xs,
  forallb Item.finite (Invoice.items inv) = true ->
  mapM Item.tax_amount (Invoice.items inv) = Ok xs ->
  sum_abs_cents xs < Z.of_N (pow10 prec) ->
  Invoice.tax_total inv = Ok (money_of_cents (sum_cents xs)).
Proof.
  intros inv xs Hf Hxs Hb. rewrite forallb_forall in Hf.
  apply Invoice_sum_exact; try assumption.
  intros i r Hi. apply Item_tax_amount_money. now apply Hf.
Qed.

(** X10. For an invoice whose items have finite decimals and subtotals
    [ms], the magnitudes of which add up to less than 10^28 cents,
    [subtotal] returns the exact sum of [ms] at two places; likewise
    [tax_total] on the tax amounts. No rounding takes place in either. *)
Theorem Invoice_totals_are_exact_sums : forall inv,
  forallb Item.finite (Invoice.items inv) = true ->
  (forall ms,
     mapM Item.subtotal (Invoice.items inv) = Ok ms ->
     sum_abs_cents ms < Z.of_N (pow10 prec) ->
     Invoice.subtotal inv = Ok (money_of_cents (sum_cents ms))) /\
  (forall xs,
     mapM Item.tax_amount (Invoice.items inv) = Ok xs ->
     sum_abs_cents xs < Z.of_N (pow10 prec) ->
     Invoice.tax_total inv = Ok (money_of_cents (sum_cents xs))).
Proof.
  intros inv Hf. split.
  - intros ms. now apply Invoice_subtotal_exact.
  - intros xs. now apply Invoice_tax_total_exact.
Qed.

Lemma Invoice_totals_are_exact_sums_witness :
  Invoice.subtotal sample_invoice
  = Ok (money_of_cents
          (sum_cents [Finite false 10000 (-2); Finite false 10000 (-2)])).
Proof.
  apply (proj1 (Invoice_totals_are_exact_sums sample_invoice eq_refl)
           [Finite false 10000 (-2); Finite false 10000 (-2)]);
    reflexivity.
Defined.

Lemma mapM_total_exact : forall l ms xs,
  forallb Item.finite l = true ->
  mapM Item.subtotal l = Ok ms -> mapM Item.tax_amount l = Ok xs ->
  sum_abs_cents ms + sum_abs_cents xs < Z.of_N (pow10 prec) ->
  exists ts, mapM Item.total l = Ok ts
             /\ sum_cents ts = sum_cents ms + sum_cents xs.
Proof.
  induction l as [|i l IH]; intros ms xs Hf Hms Hxs Hb.
  - injection Hms as <-. injection Hxs as <-. now exists [].
  - cbn [forallb] in Hf. apply andb_true_iff in Hf as [Hi Hf].
    cbn [mapM] in Hms, Hxs. inv_bind Hms. inv_bind Hms. injection Hms as <-.
    inv_bind Hxs. inv_bind Hxs. injection Hxs as <-.
    cbn [sum_abs_cents sum_cents fold_right] in *.
    fold (sum_abs_cents a0) in Hb. fold (sum_abs_cents a2) in Hb.
    fold (sum_cents a0). fold (sum_cents a2).
    pose proof (sum_abs_cents_nonneg a0). pose proof (sum_abs_cents_nonneg a2).
    destruct (IH a0 a2 Hf E0 E2) as (ts & Hts & Hsum); [lia|].
    pose proof (Item_total_exact i a a1 Hi E E1) as Ht.
    replace (Z.abs (cents a + cents a1) <? Z.of_N (pow10 prec)) with true
      in Ht by (symmetry; apply Z.ltb_lt; lia).
    destruct Ht as (t & Ht & _ & Hc). exists (t :: ts).
    cbn [mapM]. rewrite Ht, Hts. cbn [bind sum_cents fold_right].
    fold (sum_cents ts). split; [reflexivity|lia].
Qed.

(** X11. For an invoice whose items have finite decimals, subtotals [ms]
    and tax amounts [xs], the magnitudes of which add up to less than
    10^28 cents: every line total is returned, and [grand_total] returns
    the exact sum of the line totals, which is the sum of [ms] and [xs].
    The column of line totals adds up to the total. *)
Theorem grand_total_adds_up : forall inv ms xs,
  forallb Item.finite (Invoice.items inv) = true ->
  mapM Item.subtotal (Invoice.items inv) = Ok ms ->
  mapM Item.tax_amount (Invoice.items inv) = Ok xs ->
  sum_abs_cents ms + sum_abs_cents xs < Z.of_N (pow10 prec) ->
  exists ts,
    mapM Item.total (Invoice.items inv) = Ok ts
    /\ Invoice.grand_total inv = Ok (money_of_cents (sum_cents ts))
    /\ sum_cents ts = sum_cents ms + sum_cents xs.
Proof.
  intros inv ms xs Hf Hms Hxs Hb.
  pose proof (sum_abs_cents_nonneg ms). pose proof (sum_abs_cents_nonneg xs).
  pose proof (sum_cents_bound ms). pose proof (sum_cents_bound xs).
  destruct (mapM_total_exact _ ms xs Hf Hms Hxs Hb) as (ts & Hts & Hsum).
  exists ts. split; [assumption|]. split; [|assumption].
  unfold Invoice.grand_total.
  rewrite (Invoice_subtotal_exact inv ms Hf Hms) by lia.
  rewrite (Invoice_tax_total_exact inv xs Hf Hxs) by lia. cbn [bind].
  destruct (money_of_cents_money (sum_cents xs)) as (Hxm & Hxc & _); [lia|].
  rewrite dec_add_cents by (rewrite ?Hxc; assumption || lia).
  cbn [bind]. rewrite Hxc, Hsum.
  apply as_money_idem, money_of_cents_money. lia.
Qed.

Lemma grand_total_adds_up_witness :
  exists ts,
    mapM Item.total (Invoice.items sample_invoice) = Ok ts
    /\ Invoice.grand_total sample_invoice
       = Ok (money_of_cents (sum_cents ts))
    /\ sum_cents ts = 20000 + 1000.
Proof.
  apply (grand_total_adds_up sample_invoice
           [Finite false 10000 (-2); Finite false 10000 (-2)]
           [Finite false 0 (-2); Finite false 1000 (-2)]); reflexivity.
Defined.

(** ** The order of the items *)

Lemma mapM_Permutation : forall (A B : Type) (f : A -> result B) l l',
  Permutation l l' ->
  forall bs, mapM f l = Ok bs ->
  exists bs', mapM f l' = Ok bs' /\ Permutation bs bs'.
Proof.
  intros A B f l l' HP. induction HP as [|x l l' HP IH|x y l|l l' l'' H1 IH1 H2 IH2];
    intros bs H.
  - exists bs. now split.
  - cbn [mapM] in *. inv_bind H. inv_bind H. injection H as <-.
    destruct (IH a0 E0) as (bs' & E' & HP'). exists (a :: bs').
    rewrite E, E'. split; [reflexivity|now constructor].
  - cbn [mapM] in *. inv_bind H. inv_bind H. inv_bind E0. inv_bind E0.
    injection E0 as <-. injection H as <-. exists (a1 :: a :: a2).
    rewrite E1, E, E2. split; [reflexivity|constructor].
  - destruct (IH1 bs H) as (bs' & E' & HP').
    destruct (IH2 bs' E') as (bs'' & E'' & HP'').
    exists bs''. split; [assumption|]. now apply perm_trans with bs'.
Qed.

Lemma sum_cents_Permutation : forall l l',
  Permutation l l' ->
  sum_cents l = sum_cents l' /\ sum_abs_cents l = sum_abs_cents l'.
Proof.
  intros l l' HP. induction HP as [|x l l' HP [IH1 IH2]|x y l|l l' l'' H1 [IH1 IH1'] H2 [IH2 IH2']];
    cbn [sum_cents sum_abs_cents fold_right] in *.
  - now split.
  - fold (sum_cents l) (sum_cents l') (sum_abs_cents l) (sum_abs_cents l').
    split; lia.
  - split; lia.
  - split; congruence.
Qed.

(** X12. For an invoice whose items have finite decimals and subtotals
    whose magnitudes add up to less than 10^28 cents, the items taken in
    any other order give the same [subtotal]; likewise for [tax_total]. *)
Theorem totals_ignore_the_order : forall inv l',
  Permutation (Invoice.items inv) l' ->
  forallb Item.finite (Invoice.items inv) = true ->
  (forall ms,
     mapM Item.subtotal (Invoice.items inv) = Ok ms ->
     sum_abs_cents ms < Z.of_N (pow10 prec) ->
     Invoice.subtotal (with_items inv l') = Invoice.subtotal inv) /\
  (forall xs,
     mapM Item.tax_amount (Invoice.items inv) = Ok xs ->
     sum_abs_cents xs < Z.of_N (pow10 prec) ->
     Invoice.tax_total (with_items inv l') = Invoice.tax_total inv).
Proof.
  intros inv l' HP Hf.
  assert (Hf' : forallb Item.finite (Invoice.items (with_items inv l')) = true).
  { cbn [with_items Invoice.items]. rewrite forallb_forall in *.
    intros i Hi. apply Hf. eapply Permutation_in; [|exact Hi].
    now apply Permutation_sym. }
  split.
  - intros ms Hms Hb.
    destruct (mapM_Permutation _ _ _ _ _ HP ms Hms) as (ms' & Hms' & HP').
    destruct (sum_cents_Permutation _ _ HP') as [H1 H2].
    rewrite (Invoice_subtotal_exact inv ms Hf Hms Hb).
    rewrite (Invoice_subtotal_exact (with_items inv l') ms' Hf' Hms')
      by lia.
    now rewrite H1.
  - intros xs Hxs Hb.
    destruct (mapM_Permutation _ _ _ _ _ HP xs Hxs) as (xs' & Hxs' & HP').
    destruct (sum_cents_Permutation _ _ HP') as [H1 H2].
    rewrite (Invoice_tax_total_exact inv xs Hf Hxs Hb).
    rewrite (Invoice_tax_total_exact (with_items inv l') xs' Hf' Hxs')
      by lia.
    now rewrite H1.
Qed.

Lemma totals_ignore_the_order_witness :
  Invoice.subtotal (with_items sample_invoice (rev sample_items))
  = Invoice.subtotal sample_invoice.
Proof.
  apply (proj1 (totals_ignore_the_order sample_invoice (rev sample_items)
                  (Permutation_rev sample_items) eq_refl)
           [Finite false 10000 (-2); Finite false 10000 (-2)]);
    reflexivity.
Defined.

(** X13. Rounding twice is rounding once: what [as_money] returns,
    [as_money] returns unchanged. *)
Theorem as_money_idempotent : forall m r,
  as_money m = Ok r -> as_money r = Ok r.
Proof.
  intros m r H. destruct m as [s c e | s | s p | s p]; try discriminate.
  - apply as_money_idem. now apply (as_money_money (Finite s c e)).
  - injection H as <-. unfold as_money, as_money_n, quantize, fix_nan.
    now rewrite N.Div0.mod_mod.
Qed.

Lemma as_money_idempotent_witness :
  as_money (Finite true 12345 (-3)) = Ok (Finite true 1235 (-2))
  /\ as_money (Finite true 1235 (-2)) = Ok (Finite true 1235 (-2)).
Proof.
  split; [reflexivity|].
  apply (as_money_idempotent (Finite true 12345 (-3))). reflexivity.
Defined.

(** ** Items without tax *)

Lemma fix_finite_zero_coeff : forall s e,
  exists e', fix_finite s 0 e = Ok (Finite s 0 e').
Proof. intros s e. unfold fix_finite. cbn [N.eqb]. eauto. Qed.

Lemma as_money_zero_coeff : forall s e,
  as_money (Finite s 0 e) = Ok (Finite s 0 (-2)).
Proof.
  intros s e. rewrite as_money_finite, half_up_cents_zero. reflexivity.
Qed.

(** X14. An item of finite decimals with tax rate zero, whose subtotal
    is returned: its tax amount is zero at two places, and its total is
    returned and is the subtotal, to the cent. *)
Theorem no_tax_total_is_subtotal : forall it s,
  Item.finite it = true ->
  is_zero (Item.tax_rate it) = true ->
  Item.subtotal it = Ok s ->
  exists x t,
    Item.tax_amount it = Ok x /\ is_money x = true /\ cents x = 0
    /\ Item.total it = Ok t /\ is_money t = true /\ cents t = cents s.
Proof.
  intros it s Hf Hz Hs.
  pose proof (Item_subtotal_money it s Hf Hs) as Hm.
  destruct (is_money_inv s Hm) as (ss & cs & -> & Hcs).
  assert (Hx : exists sx, Item.tax_amount it = Ok (Finite sx 0 (-2))).
  { unfold Item.tax_amount. rewrite Hs. cbn [bind].
    destruct (Item.tax_rate it) as [sr cr er | | |]; try discriminate.
    cbn [is_zero] in Hz. apply N.eqb_eq in Hz. subst cr.
    unfold dec_div, hundred, check_nans. cbv zeta. cbn [N.eqb].
    destruct (fix_finite_zero_coeff (xorb sr false) (er - 0)) as (e1 & ->).
    cbn [bind]. unfold dec_mul, check_nans. rewrite N.mul_0_r.
    destruct (fix_finite_zero_coeff (xorb ss (xorb sr false)) (-2 + e1))
      as (e2 & ->).
    cbn [bind]. rewrite as_money_zero_coeff. eauto. }
  destruct Hx as (sx & Hx).
  pose proof (Item_total_exact it _ _ Hf Hs Hx) as Ht.
  assert (Hc0 : cents (Finite sx 0 (-2)) = 0) by (now destruct sx).
  rewrite Hc0, Z.add_0_r in Ht.
  replace (Z.abs (cents (Finite ss cs (-2))) <? Z.of_N (pow10 prec))
    with true in Ht.
  - destruct Ht as (t & Ht & Htm & Htc).
    exists (Finite sx 0 (-2)), t. repeat split; assumption.
  - symmetry. apply Z.ltb_lt. cbn [cents]. destruct ss; lia.
Qed.

Lemma no_tax_total_is_subtotal_witness :
  exists x t,
    Item.tax_amount (Item.Make (VStr "a") (Finite false 1 0)
                       (Finite false 100 0) (Finite false 0 0)) = Ok x
    /\ is_money x = true /\ cents x = 0
    /\ Item.total (Item.Make (VStr "a") (Finite false 1 0)
                     (Finite false 100 0) (Finite false 0 0)) = Ok t
    /\ is_money t = true /\ cents t = cents (Finite false 10000 (-2)).
Proof.
  apply (no_tax_total_is_subtotal
           (Item.Make (VStr "a") (Finite false 1 0) (Finite false 100 0)
              (Finite false 0 0))
           (Finite false 10000 (-2))); reflexivity.
Defined.

(** ** The window and the invoice *)

Lemma fromisoformat_raise : forall s e,
  fromisoformat s = Raise e -> e = ValueError.
Proof.
  intros s e H. unfold fromisoformat in H.
  destruct (chars s) as [|y1 [|y2 [|y3 [|y4 [|s1 [|m1 [|m2 [|s2 [|d1 [|d2
    [|x l]]]]]]]]]]]; try congruence.
  destruct (_ && _ && _); [|congruence].
  destruct (date_valid _); congruence.
Qed.

(** X15. What [build_invoice] makes of the window, the items being read:
    an invoice dated today when the date entry is blank, without due date
    when the due date entry is blank, in EUR when the currency entry is
    blank; and ValueError when the date entry, or the due date entry, is
    neither blank nor a date in ISO form. *)
Theorem build_invoice_blank_entries : forall today f its,
  date_valid today = true ->
  (forall inv,
     App.build_invoice today f (Ok its) = Ok inv ->
     Invoice.items inv = its /\
     (entry_get (App.inv_date f) = "" -> Invoice.invoice_date inv = today) /\
     (entry_get (App.due_date f) = "" -> Invoice.due_date inv = None) /\
     (entry_get (App.currency f) = "" ->
      Invoice.currency inv = VStr "EUR")) /\
  (forall e,
     entry_get (App.inv_date f) <> "" ->
     fromisoformat (entry_get (App.inv_date f)) = Raise e ->
     App.build_invoice today f (Ok its) = Raise ValueError) /\
  (forall dt e,
     fromisoformat
       (App.or_text (entry_get (App.inv_date f)) (isoformat today)) = Ok dt ->
     entry_get (App.due_date f) <> "" ->
     fromisoformat (entry_get (App.due_date f)) = Raise e ->
     App.build_invoice today f (Ok its) = Raise ValueError).
Proof.
  intros today f its Hv. repeat split.
  - unfold App.build_invoice in H. cbn [bind] in H.
    inv_bind H. inv_bind H. now injection H as <-.
  - intros Hb. unfold App.build_invoice in H. cbn [bind] in H.
    inv_bind H. inv_bind H. injection H as <-. cbn [Invoice.invoice_date].
    rewrite Hb in E. cbn [App.or_text String.eqb] in E.
    rewrite (fromisoformat_isoformat _ Hv) in E. congruence.
  - intros Hb. unfold App.build_invoice in H. cbn [bind] in H.
    inv_bind H. inv_bind H. injection H as <-. cbn [Invoice.due_date].
    rewrite Hb in E0. cbn [String.eqb] in E0. congruence.
  - intros Hb. unfold App.build_invoice in H. cbn [bind] in H.
    inv_bind H. inv_bind H. injection H as <-. cbn [Invoice.currency].
    now rewrite Hb.
  - intros e Hb He. unfold App.build_invoice. cbn [bind].
    apply String.eqb_neq in Hb. unfold App.or_text. rewrite Hb, He.
    now rewrite (fromisoformat_raise _ _ He).
  - intros dt e Hdt Hb He. unfold App.build_invoice. cbn [bind].
    rewrite Hdt. cbn [bind]. apply String.eqb_neq in Hb. rewrite Hb, He.
    now rewrite (fromisoformat_raise _ _ He).
Qed.

Lemma build_invoice_blank_entries_witness :
  App.build_invoice (Date 2025 10 19)
    (App.Form "Acme" "" "" "" "" "" "" "" "" "" "19.10.2025" "" "" "" "")
    (Ok [])
  = Raise ValueError.
Proof.
  apply (proj1 (proj2 (build_invoice_blank_entries (Date 2025 10 19)
                         (App.Form "Acme" "" "" "" "" "" "" "" "" ""
                            "19.10.2025" "" "" "" "")
                         [] eq_refl)) ValueError).
  - discriminate.
  - reflexivity.
Defined.

Lemma isoformat_plain : forall d, plain (chars (isoformat d)) = true.
Proof.
  intros d. unfold isoformat. rewrite chars_text.
  assert (Hz : forall w n, plain (zero_pad w n) = true).
  { intros w n. unfold zero_pad. rewrite plain_app.
    rewrite (digits_plain (digits_of_N n)) by apply digits_of_N_digits.
    rewrite andb_true_r. apply digits_plain. now apply forallb_repeat. }
  rewrite plain_app. cbn [plain forallb]. fold (plain (zero_pad 2 (month d)
    ++ "-"%char :: zero_pad 2 (day d))).
  rewrite plain_app. cbn [plain forallb]. fold (plain (zero_pad 2 (day d))).
  now rewrite !Hz.
Qed.

Lemma entry_get_isoformat : forall d, entry_get (isoformat d) = isoformat d.
Proof.
  intros d. unfold entry_get.
  rewrite strip_plain by apply isoformat_plain. apply text_chars.
Qed.

Lemma stripped_text : forall v,
  App.is_stripped v = true -> VStr (entry_get (App.text_of v)) = v.
Proof.
  intros [| | | s | |] H; try discriminate. cbn [App.is_stripped] in H.
  apply String.eqb_eq in H. cbn [App.text_of]. now rewrite H.
Qed.

(** X16. An invoice shown in the window and built again from it is the
    same invoice, provided its dates are calendar dates, its text fields
    are texts without whitespace at either end, its currency is not empty
    and the items read from the table are its items. *)
Theorem window_round_trip : forall today inv,
  Invoice.dates_valid inv = true ->
  forallb App.is_stripped (App.text_fields inv) = true ->
  Invoice.currency inv <> VStr "" ->
  App.build_invoice today (App.load_into_form inv) (Ok (Invoice.items inv))
  = Ok inv.
Proof.
  intros today [[n a g e p] [n' a' e' p'] its num dt due cur notes auth]
    Hv Hs Hc.
  unfold Invoice.dates_valid in Hv.
  cbn [Invoice.invoice_date Invoice.due_date] in Hv.
  apply andb_true_iff in Hv as [Hdt Hdue].
  cbn [App.text_fields forallb Invoice.company Invoice.customer
       Invoice.invoice_number Invoice.currency Invoice.notes
       Invoice.authorized_by Company.name Company.address
       Company.gst_number Company.email Company.phone Customer.name
       Customer.address Customer.email Customer.phone] in Hs, Hc.
  repeat match goal with
         | H : _ && _ = true |- _ => apply andb_true_iff in H as [? ?]
         end.
  unfold App.build_invoice, App.load_into_form.
  cbn [App.c_name App.c_addr App.c_gst App.c_email App.c_phone App.u_name
       App.u_addr App.u_email App.u_phone App.inv_no App.inv_date
       App.due_date App.currency App.notes App.auth
       Invoice.company Invoice.customer Invoice.items
       Invoice.invoice_number Invoice.invoice_date Invoice.due_date
       Invoice.currency Invoice.notes Invoice.authorized_by Company.name
       Company.address Company.gst_number Company.email Company.phone
       Customer.name Customer.address Customer.email Customer.phone bind].
  rewrite !stripped_text by assumption.
  rewrite entry_get_isoformat. unfold App.or_text at 1.
  rewrite isoformat_not_empty, (fromisoformat_isoformat _ Hdt). cbn [bind].
  assert (Hcur : VStr (App.or_text (entry_get (App.text_of cur)) "EUR")
                 = cur).
  { destruct cur as [| | | s | |]; try discriminate.
    cbn [App.is_stripped] in *.
    match goal with
    | H : String.eqb (entry_get s) s = true |- _ =>
        apply String.eqb_eq in H; cbn [App.text_of]; rewrite H
    end.
    unfold App.or_text. destruct (String.eqb_spec s ""); [|reflexivity].
    subst s. now elim Hc. }
  rewrite Hcur. destruct due as [d|].
  - rewrite entry_get_isoformat, isoformat_not_empty,
      (fromisoformat_isoformat _ Hdue). reflexivity.
  - reflexivity.
Qed.

Lemma window_round_trip_witness :
  App.build_invoice (Date 2026 1 1) (App.load_into_form sample_invoice)
    (Ok (Invoice.items sample_invoice))
  = Ok sample_invoice.
Proof.
  apply (window_round_trip (Date 2026 1 1) sample_invoice).
  - reflexivity.
  - reflexivity.
  - discriminate.
Defined.

(** ** The exceptions that can be raised *)

Lemma bind_raise_inv {A B : Type} (m : result A) (k : A -> result B) e :
  bind m k = Raise e ->
  m = Raise e \/ exists a, m = Ok a /\ k a = Raise e.
Proof. destruct m as [a | e']; cbn; [eauto|]. intros [= ->]. now left. Qed.

Lemma fix_finite_error : forall s c e x,
  fix_finite s c e = Raise x -> arithmetic_error x = true.
Proof.
  intros s c e x H.
  destruct (fix_finite_cases s c e) as [E | (c' & e' & E)];
    rewrite E in H; [now injection H as <-|discriminate].
Qed.

Lemma dec_mul_error : forall a b x,
  dec_mul a b = Raise x -> arithmetic_error x = true.
Proof.
  intros [sa ca ea | sa | sa pa | sa pa] [sb cb eb | sb | sb pb | sb pb] x H;
    unfold dec_mul, check_nans in H; try discriminate;
    try (now injection H as <-);
    try (now apply fix_finite_error in H);
    match type of H with
    | context [if ?b then _ else _] =>
        destruct b; [now injection H as <-|discriminate]
    end.
Qed.

Lemma dec_add_error : forall a b x,
  dec_add a b = Raise x -> arithmetic_error x = true.
Proof.
  intros [sa ca ea | sa | sa pa | sa pa] [sb cb eb | sb | sb pb | sb pb] x H;
    unfold dec_add, check_nans in H; try discriminate;
    try (now injection H as <-).
  - cbv zeta in H.
    destruct (ca =? 0)%N; destruct (cb =? 0)%N; cbn [andb] in H;
      try (now apply fix_finite_error in H).
    + destruct (rescale_finite context_rounding sb cb eb
                  (Z.max (Z.min ea eb) (eb - prec - 1))) as (c' & E).
      rewrite E in H. now apply fix_finite_error in H.
    + destruct (rescale_finite context_rounding sa ca ea
                  (Z.max (Z.min ea eb) (ea - prec - 1))) as (c' & E).
      rewrite E in H. now apply fix_finite_error in H.
  - destruct (eqb sa sb); [discriminate|now injection H as <-].
Qed.

Lemma dec_div_hundred_error : forall a x,
  dec_div a hundred = Raise x -> arithmetic_error x = true.
Proof.
  intros [sa ca ea | sa | sa pa | sa pa] x H;
    unfold dec_div, hundred, check_nans in H; try discriminate;
    try (now injection H as <-).
  cbv zeta in H. cbn [N.eqb] in H.
  destruct (ca =? 0)%N; [now apply fix_finite_error in H|].
  destruct (if 0 <=? _ then _ else _) as [coeff remainder].
  destruct (remainder =? 0)%N.
  - destruct (strip_zeros _ _ _ _) as [coeff' e'].
    now apply fix_finite_error in H.
  - now apply fix_finite_error in H.
Qed.

Lemma as_money_error : forall a x,
  as_money a = Raise x -> x = InvalidOperation.
Proof.
  intros [s c e | s | s p | s p] x H; try (cbn in H; congruence).
  rewrite as_money_finite in H.
  destruct (_ <? _)%N; congruence.
Qed.

Ltac arith_error H :=
  repeat match type of H with
         | bind _ _ = Raise _ =>
             apply bind_raise_inv in H as [H | (? & ? & H)]
         end;
  first [ now apply dec_mul_error in H
        | now apply dec_add_error in H
        | now apply dec_div_hundred_error in H
        | (apply as_money_error in H; now subst) ].

Lemma Item_subtotal_error : forall it x,
  Item.subtotal it = Raise x -> arithmetic_error x = true.
Proof. intros it x H. unfold Item.subtotal in H. arith_error H. Qed.

Lemma Item_tax_amount_error : forall it x,
  Item.tax_amount it = Raise x -> arithmetic_error x = true.
Proof.
  intros it x H. unfold Item.tax_amount in H.
  apply bind_raise_inv in H as [H | (s & Hs & H)];
    [now apply Item_subtotal_error in H|].
  arith_error H.
Qed.

Lemma Item_total_error : forall it x,
  Item.total it = Raise x -> arithmetic_error x = true.
Proof.
  intros it x H. unfold Item.total in H.
  apply bind_raise_inv in H as [H | (s & Hs & H)];
    [now apply Item_subtotal_error in H|].
  apply bind_raise_inv in H as [H | (t & Ht & H)];
    [now apply Item_tax_amount_error in H|].
  arith_error H.
Qed.

Lemma sum_of_error : forall (f : Item.t -> result Decimal) l a x,
  (forall i y, f i = Raise y -> arithmetic_error y = true) ->
  foldM (fun acc i => v <- f i ;; dec_add acc v) l a = Raise x ->
  arithmetic_error x = true.
Proof.
  intros f l. induction l as [|i l IH]; intros a x Hf H; [discriminate|].
  cbn [foldM] in H. apply bind_raise_inv in H as [H | (a' & Ha & H)].
  - apply bind_raise_inv in H as [H | (v & Hv & H)];
      [now apply Hf in H|now apply dec_add_error in H].
  - now apply IH in H.
Qed.

(** X17. The only exceptions a monetary accessor raises, on any item or
    invoice, are InvalidOperation and Overflow of [decimal]: in
    particular the division by one hundred never raises
    DivisionByZero. *)
Theorem accessors_raise_arithmetic_errors : forall x,
  (forall it,
     Item.subtotal it = Raise x \/ Item.tax_amount it = Raise x
     \/ Item.total it = Raise x ->
     arithmetic_error x = true) /\
  (forall inv,
     Invoice.subtotal inv = Raise x \/ Invoice.tax_total inv = Raise x
     \/ Invoice.grand_total inv = Raise x ->
     arithmetic_error x = true).
Proof.
  intros x.
  assert (Hs : forall inv y,
             Invoice.subtotal inv = Raise y -> arithmetic_error y = true).
  { intros inv y H. unfold Invoice.subtotal, Invoice.sum_of in H.
    apply bind_raise_inv in H as [H | (s & _ & H)].
    - apply sum_of_error in H; [assumption|]. exact Item_subtotal_error.
    - apply as_money_error in H. now subst. }
  assert (Ht : forall inv y,
             Invoice.tax_total inv = Raise y -> arithmetic_error y = true).
  { intros inv y H. unfold Invoice.tax_total, Invoice.sum_of in H.
    apply bind_raise_inv in H as [H | (s & _ & H)].
    - apply sum_of_error in H; [assumption|]. exact Item_tax_amount_error.
    - apply as_money_error in H. now subst. }
  split.
  - intros it [H | [H | H]].
    + now apply Item_subtotal_error in H.
    + now apply Item_tax_amount_error in H.
    + now apply Item_total_error in H.
  - intros inv [H | [H | H]]; [now apply Hs in H|now apply Ht in H|].
    unfold Invoice.grand_total in H.
    apply bind_raise_inv in H as [H | (s & _ & H)]; [now apply Hs in H|].
    apply bind_raise_inv in H as [H | (t & _ & H)]; [now apply Ht in H|].
    arith_error H.
Qed.

Lemma accessors_raise_arithmetic_errors_witness :
  arithmetic_error InvalidOperation = true.
Proof.
  apply (proj1 (accessors_raise_arithmetic_errors InvalidOperation)
           (Item.Make (VStr "x") (Finite false 1 26) (Finite false 1 0) zero)).
  left. reflexivity.
Defined.

Lemma of_kwargs_errors :
  (forall kw e, Company.of_kwargs kw = Raise e -> e = TypeError) /\
  (forall kw e, Customer.of_kwargs kw = Raise e -> e = TypeError).
Proof.
  split; intros kw e H;
    [unfold Company.of_kwargs in H|unfold Customer.of_kwargs in H];
    destruct (forallb _ kw); try congruence;
    destruct (dict_get "name" kw), (dict_get "address" kw); congruence.
Qed.

Lemma value_get_error : forall v k default e,
  value_get v k default = Raise e -> e = AttributeError.
Proof. intros v k default e H. destruct v; cbn in H; congruence. Qed.

Lemma Item_from_value_error : forall v e,
  Item.from_value v = Raise e -> load_error e = true.
Proof.
  intros v e H. destruct v as [| | | | |i]; try (now injection H as <-).
  unfold Item.from_value in H.
  repeat match type of H with
         | bind _ _ = Raise _ =>
             apply bind_raise_inv in H as [H | (? & _ & H)]
         end;
    try discriminate; apply Decimal_of_value_raise in H; now subst.
Qed.

Lemma mapM_error : forall (A B : Type) (f : A -> result B) (P : exn -> Prop),
  (forall a e, f a = Raise e -> P e) ->
  forall l e, mapM f l = Raise e -> P e.
Proof.
  intros A B f P Hf l. induction l as [|a l IH]; intros e H; [discriminate|].
  cbn [mapM] in H. apply bind_raise_inv in H as [H | (b & _ & H)];
    [now apply Hf in H|].
  apply bind_raise_inv in H as [H | (bs & _ & H)];
    [now apply IH|discriminate].
Qed.

Lemma fromisoformat_value_error : forall v e,
  fromisoformat_value v = Raise e -> load_error e = true.
Proof.
  intros v e H. destruct v; try (now injection H as <-).
  apply fromisoformat_raise in H. now subst.
Qed.

(** X18. The only exceptions [from_dict] raises, on any value, are
    TypeError, AttributeError, ValueError and InvalidOperation of
    [decimal]. It never raises KeyError: the due date is looked up only
    once it is known to be there. *)
Theorem from_dict_raises_load_errors : forall today data e,
  Invoice.from_dict today data = Raise e -> load_error e = true.
Proof.
  intros today data e H.
  destruct data as [| | | | |d]; try (now injection H as <-).
  unfold Invoice.from_dict in H.
  apply bind_raise_inv in H as [H | (co & _ & H)].
  { unfold Invoice.decode_company in H.
    destruct (dict_get "company" d) as [[| | | | |kw]|];
      try (apply (proj1 of_kwargs_errors) in H; now subst);
      repeat match type of H with
             | bind _ _ = Raise _ =>
                 apply bind_raise_inv in H as [H | (? & _ & H)]
             end;
      try discriminate; apply value_get_error in H; now subst. }
  apply bind_raise_inv in H as [H | (cu & _ & H)].
  { unfold Invoice.decode_customer in H.
    destruct (dict_get "customer" d) as [[| | | | |kw]|];
      try (apply (proj2 of_kwargs_errors) in H; now subst);
      repeat match type of H with
             | bind _ _ = Raise _ =>
                 apply bind_raise_inv in H as [H | (? & _ & H)]
             end;
      try discriminate; apply value_get_error in H; now subst. }
  apply bind_raise_inv in H as [H | (its & _ & H)].
  { unfold Invoice.decode_items in H.
    apply bind_raise_inv in H as [H | (l & _ & H)].
    - destruct (get_default "items" (VList []) d);
        cbn in H; try discriminate; now injection H as <-.
    - exact (mapM_error _ _ Item.from_value
               (fun e => load_error e = true) Item_from_value_error l e H). }
  apply bind_raise_inv in H as [H | (dt & _ & H)].
  { now apply fromisoformat_value_error in H. }
  apply bind_raise_inv in H as [H | (due & _ & H)]; [|discriminate].
  unfold Invoice.decode_due_date, get_default in H.
  destruct (dict_get "due_date" d) as [v|]; [|discriminate].
  destruct (truthy v); [|discriminate].
  apply bind_raise_inv in H as [H | (dd & _ & H)]; [|discriminate].
  now apply fromisoformat_value_error in H.
Qed.

Lemma from_dict_raises_load_errors_witness :
  load_error AttributeError = true.
Proof.
  apply (from_dict_raises_load_errors (Date 2025 10 19) (VStr "invoice")).
  reflexivity.
Defined.

(** ** Reading a displayed amount *)

Lemma text_inj : forall l l', text l = text l' -> l = l'.
Proof.
  intros l l' H. apply (f_equal chars) in H. now rewrite !chars_text in H.
Qed.

Lemma app_same_length : forall (A : Type) (l1 l1' l2 l2' : list A),
  l1 ++ l2 = l1' ++ l2' -> List.length l2 = List.length l2' ->
  l1 = l1' /\ l2 = l2'.
Proof.
  intros A l1. induction l1 as [|a l1 IH]; intros l1' l2 l2' H Hl.
  - destruct l1' as [|b l1']; [now split|]. cbn [app] in H.
    apply (f_equal (@List.length A)) in H.
    cbn [List.length] in H. rewrite length_app in H. lia.
  - destruct l1' as [|b l1'].
    + cbn [app] in H. apply (f_equal (@List.length A)) in H.
      cbn [List.length] in H. rewrite length_app in H. lia.
    + cbn [app] in H. injection H as -> H.
      destruct (IH l1' l2 l2' H Hl) as [-> ->]. now split.
Qed.

Lemma remove_insert_sep : forall sep l k,
  forallb (fun a => negb (Ascii.eqb a sep)) l = true ->
  remove_char sep (insert_sep_rev sep l k) = l.
Proof.
  intros sep l. induction l as [|a l IH]; intros k H; [reflexivity|].
  cbn [forallb] in H. apply andb_true_iff in H as [Ha Hl].
  destruct k as [|k]; cbn [insert_sep_rev remove_char filter].
  - fold (remove_char sep (insert_sep_rev sep l 2)).
    rewrite Ascii.eqb_refl. cbn [negb]. now rewrite Ha, IH.
  - fold (remove_char sep (insert_sep_rev sep l k)).
    now rewrite Ha, IH.
Qed.

Lemma remove_char_rev : forall sep l,
  remove_char sep (rev l) = rev (remove_char sep l).
Proof.
  intros sep l. unfold remove_char. induction l as [|a l IH]; [reflexivity|].
  cbn [rev filter]. rewrite filter_app, IH. cbn [filter].
  now destruct (negb (Ascii.eqb a sep)); cbn [rev]; rewrite ?app_nil_r.
Qed.

Lemma forallb_rev_char : forall (f : ascii -> bool) l,
  forallb f (rev l) = forallb f l.
Proof.
  intros f l. induction l as [|a l IH]; [reflexivity|].
  cbn [rev forallb]. rewrite forallb_app, IH. cbn [forallb].
  rewrite andb_true_r. apply andb_comm.
Qed.

(** The digits of a number written in groups, the separators removed. *)
Lemma remove_thousands : forall sep l,
  forallb (fun a => negb (Ascii.eqb a sep)) l = true ->
  remove_char sep (thousands sep l) = l.
Proof.
  intros sep l H. unfold thousands.
  rewrite remove_char_rev, remove_insert_sep, rev_involutive;
    [reflexivity|].
  now rewrite forallb_rev_char.
Qed.

Lemma digits_no_period : forall l,
  forallb is_digit l = true ->
  forallb (fun a => negb (Ascii.eqb a "."%char)) l = true.
Proof.
  intros l H. rewrite forallb_forall in *. intros a Ha. specialize (H a Ha).
  destruct (Ascii.eqb_spec a "."%char) as [-> | _]; [discriminate|].
  reflexivity.
Qed.

Lemma rescale_two_places : forall r s c,
  rescale r s c (-2) (-2) = Finite s c (-2).
Proof.
  intros r s c. unfold rescale. destruct (N.eqb_spec c 0) as [-> | H];
    [reflexivity|].
  change (-2 <=? -2) with true. cbv iota.
  change (pow10 (-2 - -2)) with 1%N. now rewrite N.mul_1_r.
Qed.

(** The amount part of what [format_currency] writes for a value of two
    places. *)
Lemma format_currency_two_places : forall s c currency,
  format_currency (Finite s c (-2)) currency
  = text ((sign_chars s ++ thousands "."%char (digits_of_N (c / 100))
           ++ ","%char :: zero_pad 2 (c mod 100))
          ++ " "%char :: map swap_marks (chars currency)).
Proof.
  intros s c currency. unfold format_currency, format_2f.
  rewrite rescale_two_places, replace_thrice. f_equal.
  assert (Hm : (c mod 100 < 10 ^ N.of_nat 2)%N).
  { change (10 ^ N.of_nat 2)%N with 100%N. apply N.mod_upper_bound. lia. }
  destruct (zero_pad_spec 2 (c mod 100) Hm ltac:(lia)) as (_ & Hd & _).
  repeat (rewrite map_app || rewrite map_cons).
  rewrite swap_marks_thousands by apply digits_of_N_digits.
  rewrite (swap_marks_no_mark (zero_pad 2 _)) by (now apply digits_no_mark).
  now destruct s.
Qed.

(** X19. Two amounts of two places that [format_currency] writes alike,
    with the same currency, are the same amount, sign included: the
    display loses nothing of a total. *)
Theorem format_currency_injective : forall s c s' c' currency,
  format_currency (Finite s c (-2)) currency
  = format_currency (Finite s' c' (-2)) currency ->
  s = s' /\ c = c'.
Proof.
  intros s c s' c' currency H.
  rewrite !format_currency_two_places in H. apply text_inj in H.
  apply app_same_length in H as [H _]; [|reflexivity].
  assert (Hm : forall n : N, (n mod 100 < 10 ^ N.of_nat 2)%N).
  { intros n. change (10 ^ N.of_nat 2)%N with 100%N.
    apply N.mod_upper_bound. lia. }
  destruct (zero_pad_spec 2 (c mod 100) (Hm c) ltac:(lia)) as (Hl & _ & Hn).
  destruct (zero_pad_spec 2 (c' mod 100) (Hm c') ltac:(lia))
    as (Hl' & _ & Hn').
  rewrite !app_assoc in H.
  apply app_same_length in H as [H Hp];
    [|cbn [List.length]; now rewrite Hl, Hl'].
  injection Hp as Hp.
  assert (Hs : s = s').
  { pose proof (digits_of_N_digits (c / 100)) as Hd.
    pose proof (digits_of_N_digits (c' / 100)) as Hd'.
    apply (f_equal (remove_char "."%char)) in H.
    unfold remove_char in H. rewrite !filter_app in H.
    fold (remove_char "."%char (thousands "."%char (digits_of_N (c / 100))))
      in H.
    fold (remove_char "."%char (thousands "."%char (digits_of_N (c' / 100))))
      in H.
    rewrite !remove_thousands in H by (now apply digits_no_period).
    destruct (digits_of_N (c / 100)) as [|a l] eqn:E;
      [now elim (digits_of_N_nonempty (c / 100))|].
    destruct (digits_of_N (c' / 100)) as [|a' l'] eqn:E';
      [now elim (digits_of_N_nonempty (c' / 100))|].
    cbn [forallb] in Hd, Hd'.
    apply andb_true_iff in Hd as [Ha _]. apply andb_true_iff in Hd' as [Ha' _].
    destruct s, s'; try reflexivity; cbn in H; injection H as H _; subst;
      discriminate. }
  subst s'. apply app_inv_head in H.
  apply (f_equal (remove_char "."%char)) in H.
  rewrite !remove_thousands in H
    by (apply digits_no_period, digits_of_N_digits).
  apply (f_equal (N_of_digits 0)) in H. rewrite !N_of_digits_of_N in H.
  apply (f_equal (N_of_digits 0)) in Hp. rewrite Hn, Hn' in Hp.
  split; [reflexivity|].
  rewrite (N.div_mod c 100), (N.div_mod c' 100) by lia. now rewrite H, Hp.
Qed.


Lemma format_currency_injective_witness :
  false = false /\ 123450%N = 123450%N.
Proof.
  apply (format_currency_injective false 123450 false 123450 "EUR").
  reflexivity.
Defined.
